(** * Source extraction and flux calibration steps of the image pipeline

    A shallow embedding of [StepSrcExtPy.run]
    (src/Developments/stepsextractors/stepsrcextpy.py) and of
    [StepFluxCalSex.run] with [residual]
    (src/source/stonesteps/stepfluxcalsex.py), and the properties of the
    specification that concern them.

    Numbers are IEEE 754 binary64 values, as numpy's float64: Rocq's
    primitive floats.  The libraries the steps call (sep, numpy's argsort,
    scipy's minimiser, astropy's catalog matching, the catalog service) are
    not part of the repository: they are fields of an environment record and
    the theorems state what they need from them as hypotheses.  The
    pipeline data object lives in a store, so that [self.dataout =
    self.datain] is an alias and not a copy.

    The data object is code of the framework, which is not part of the
    repository either.  Each step is embedded over the two header methods
    it calls ([run_on]) and read twice: on a header that takes every
    value ([run], what the step computes and writes), and on the FITS
    header of the framework ([run_fits]), which refuses a float that is
    NaN or infinite and logs the keyword it misses. *)

From Stdlib Require Import Floats ZArith List Permutation Sorted Lia Ascii String.
From stdpp Require Import gmap strings list functions.

Set Warnings "-inexact-float".

(** ** Floating point *)

Module Fl.

Abbreviation float := PrimFloat.float.

Definition nan : float := PrimFloat.nan.

(** Python's [x != y] on floats. *)
Definition neqb (x y : float) : bool := negb (PrimFloat.eqb x y).

(** An integer used where a float is expected. *)
Definition of_Z (z : Z) : float :=
  match z with
  | Z0 => 0%float
  | Zpos _ => PrimFloat.of_uint63 (Uint63.of_Z z)
  | Zneg _ => PrimFloat.opp (PrimFloat.of_uint63 (Uint63.of_Z (Z.opp z)))
  end.

Definition of_nat (n : nat) : float := of_Z (Z.of_nat n).

(** [x**2] of numpy. *)
Definition square (x : float) : float := (x * x)%float.

(** [np.sum] over a one-dimensional array, added from left to right
    (numpy adds in pairs beyond eight elements: the same value up to
    rounding). *)
Definition sum (l : list float) : float :=
  fold_left PrimFloat.add l 0%float.

End Fl.

Abbreviation float := PrimFloat.float.

(** ** numpy and astropy array functions

    The functions of numpy and astropy.stats whose result is determined by
    their documentation; [np.argsort], whose order among equal keys is not,
    is a field of the environment below. *)

Module Np.

(** [np.arange(n - 1, -1, -1)]. *)
Definition arange_down (n : nat) : list nat := rev (seq 0 n).

(** [np.arange(1, n + 1)]. *)
Definition arange1 (n : nat) : list nat := seq 1 n.

(** [np.take_along_axis(arr, idx, axis=0)] on one-dimensional arrays, and
    indexing with an integer array, [arr[idx]]: an index outside the array
    raises IndexError, here [None]. *)
Fixpoint take {A} (arr : list A) (idx : list nat) : option (list A) :=
  match idx with
  | [] => Some []
  | i :: idx' =>
      match arr !! i, take arr idx' with
      | Some x, Some xs => Some (x :: xs)
      | _, _ => None
      end
  end.

(** Indexing with a boolean array, [arr[mask]]: the lengths must agree
    (IndexError otherwise, here [None]). *)
Fixpoint bmask {A} (arr : list A) (mask : list bool) : option (list A) :=
  match arr, mask with
  | [], [] => Some []
  | x :: arr', m :: mask' =>
      match bmask arr' mask' with
      | Some xs => Some (if m then x :: xs else xs)
      | None => None
      end
  | _, _ => None
  end.

Definition count_nonzero (mask : list bool) : nat :=
  length (List.filter (fun m : bool => m) mask).

(** Insertion of a number into an ascending list, before the first element
    that is greater. *)
Fixpoint insert_asc (x : float) (l : list float) : list float :=
  match l with
  | [] => [x]
  | y :: l' => if (x <? y)%float then x :: l else y :: insert_asc x l'
  end.

Definition sort_asc (l : list float) : list float :=
  fold_right insert_asc [] l.

Definition drop_nan (l : list float) : list float :=
  List.filter (fun x => negb (PrimFloat.is_nan x)) l.

(** [np.nanmean]: the sum of the numbers of the array over their count;
    NaN (with a warning, not an exception) when there is none. *)
Definition nanmean (l : list float) : float :=
  let v := drop_nan l in (Fl.sum v / Fl.of_nat (length v))%float.

(** [np.nanmedian]: the median of the numbers of the array, NaN when there
    is none. *)
Definition nanmedian (l : list float) : float :=
  let v := sort_asc (drop_nan l) in
  let n := length v in
  match n with
  | O => Fl.nan
  | _ =>
      if Nat.even n
      then ((nth (n / 2 - 1) v Fl.nan + nth (n / 2) v Fl.nan) / 2)%float
      else nth (n / 2) v Fl.nan
  end.

(** [astropy.stats.mad_std(data, ignore_nan=True)]: the median absolute
    deviation about the median, scaled to estimate a standard deviation. *)
Definition mad_std (l : list float) : float :=
  let med := nanmedian l in
  (nanmedian (map (fun x => PrimFloat.abs (x - med)) l)
   * 1.482602218505602)%float.

End Np.

(** ** The pipeline data object, the store and the effects of a step *)

Definition Image := list (list float).

(** A header value: FITS cards hold integers, floats and strings. *)
Inductive HVal :=
| HInt (z : Z)
| HFloat (f : float)
| HStr (s : string).

(** [fits.Column(name=, format=, array=, unit=)]. *)
Record Column := mkColumn {
  col_name : string;
  col_format : string;
  col_unit : option string;
  col_array : list float }.

(** The pipeline data object (PipeData / DataFits of the framework): the
    header maps a keyword to its value and comment, the tables are kept by
    name. *)
Record PipeData := mkPipeData {
  pd_header : gmap string (HVal * string);
  pd_image : Image;
  pd_tables : gmap string (list Column);
  pd_filename : string;
  pd_filenamebegin : string }.

(** What a step does to the outside world, in the order it does it. *)
Inductive Event :=
| EvLog (level : string) (message : string) (values : list HVal)
| EvSave (obj : nat)
| EvPopen (command : string)
| EvRemove (path : string)
| EvHttpGet (url : string)
| EvMinimize (x0 : float * float) (x data errors : list float)
| EvRegionFile (path : string) (circles : list (float * float * nat))
| EvAsciiWrite (table : list Column) (path : string) (format : string).

Inductive Exn :=
| KeyError (key : string)
| IndexError
| TypeError
| ValueError
| OtherError (message : string).

(** The state a step runs in: the store of data objects (a reference is an
    address), the step's [dataout] attribute and the effects so far. *)
Record World := mkWorld {
  heap : nat -> PipeData;
  dataout : option nat;
  trace : list Event }.

Inductive Outcome (A : Type) :=
| Ok (a : A) (w : World)
| Raise (e : Exn) (w : World).
Arguments Ok {A} a w.
Arguments Raise {A} e w.

Definition M (A : Type) : Type := World -> Outcome A.

#[global] Instance M_ret : MRet M := fun A a w => Ok a w.
#[global] Instance M_bind : MBind M := fun A B f m w =>
  match m w with
  | Ok a w' => f a w'
  | Raise e w' => Raise e w'
  end.

Definition raise {A} (e : Exn) : M A := fun w => Raise e w.

Definition or_raise {A} (e : Exn) (o : option A) : M A :=
  match o with
  | Some a => mret a
  | None => raise e
  end.

Definition lift_sum {A} (r : Exn + A) : M A :=
  match r with
  | inr a => mret a
  | inl e => raise e
  end.

Definition emit (ev : Event) : M unit := fun w =>
  Ok tt (mkWorld (heap w) (dataout w) (trace w ++ [ev])).

Definition log (level message : string) (values : list HVal) : M unit :=
  emit (EvLog level message values).

(** Reading the object a reference points to. *)
Definition deref (r : nat) : M PipeData := fun w => Ok (heap w r) w.

Definition update (r : nat) (f : PipeData -> PipeData) : M unit := fun w =>
  Ok tt (mkWorld (<[r := f (heap w r)]> (heap w)) (dataout w) (trace w)).

(** [self.dataout = ...]. *)
Definition set_dataout (r : nat) : M unit := fun w =>
  Ok tt (mkWorld (heap w) (Some r) (trace w)).

(** [obj.getheadval(key)]: the value of the keyword, KeyError when the
    header has none. *)
Definition getheadval (r : nat) (key : string) : M HVal :=
  d ← deref r;
  match pd_header d !! key with
  | Some (v, _) => mret v
  | None => raise (KeyError key)
  end.

(** [obj.setheadval(key, value, comment)]: sets the keyword in the header
    of the object itself. *)
Definition setheadval (r : nat) (key : string) (v : HVal) (comment : string)
  : M unit :=
  update r (fun d =>
    mkPipeData (<[key := (v, comment)]> (pd_header d)) (pd_image d)
               (pd_tables d) (pd_filename d) (pd_filenamebegin d)).

(** [obj.tableset(data, name, header)]: adds the table, or replaces the one
    of that name. *)
Definition tableset (r : nat) (data : list Column) (name : string) : M unit :=
  update r (fun d =>
    mkPipeData (pd_header d) (pd_image d) (<[name := data]> (pd_tables d))
               (pd_filename d) (pd_filenamebegin d)).

(** [obj.tableget(name)]. *)
Definition tableget (r : nat) (name : string) : M (list Column) :=
  d ← deref r; or_raise (KeyError name) (pd_tables d !! name).

(** [obj.image = img]. *)
Definition set_image (r : nat) (img : Image) : M unit :=
  update r (fun d =>
    mkPipeData (pd_header d) img (pd_tables d) (pd_filename d)
               (pd_filenamebegin d)).

(** A header value used as a number, TypeError for a string. *)
Definition hval_float (v : HVal) : option float :=
  match v with
  | HInt z => Some (Fl.of_Z z)
  | HFloat f => Some f
  | HStr _ => None
  end.

Definition as_float (v : HVal) : M float := or_raise TypeError (hval_float v).

(** A header value used as a string. *)
Definition hval_str (v : HVal) : option string :=
  match v with
  | HStr s => Some s
  | _ => None
  end.

Definition as_str (v : HVal) : M string := or_raise TypeError (hval_str v).

Definition take_along_axis {A} (arr : list A) (idx : list nat) : M (list A) :=
  or_raise IndexError (Np.take arr idx).

Definition index_mask {A} (arr : list A) (mask : list bool) : M (list A) :=
  or_raise IndexError (Np.bmask arr mask).

(** [self.dataout], once it has been assigned. *)
Definition get_dataout : M nat := fun w =>
  match dataout w with
  | Some r => Ok r w
  | None => Raise (OtherError "dataout is not set") w
  end.

(** ** The data object over a FITS header

    The data object of the framework keeps its header as a FITS header.
    Two of its methods behave on it in a way the steps can observe. *)

(** A FITS header holds no float that is NaN or infinite; integers and
    strings it takes as they are. *)
Definition header_accepts (v : HVal) : bool :=
  match v with
  | HFloat f => PrimFloat.is_finite f
  | _ => true
  end.

(** [obj.setheadval(key, value, comment)] on a FITS header: a float that
    is NaN or infinite is refused with ValueError, and nothing is
    written. *)
Definition setheadval_fits (r : nat) (key : string) (v : HVal)
           (comment : string) : M unit :=
  if header_accepts v then setheadval r key v comment else raise ValueError.

(** The text of the KeyError for a keyword the header has not. *)
Definition missing_keyword (key : string) : string :=
  "Missing " +:+ key +:+ " keyword in header ".

(** [obj.getheadval(key)] of the data object: for a keyword the header has
    not, it logs an error line and raises KeyError with the text above. *)
Definition getheadval_fits (r : nat) (key : string) : M HVal :=
  d ← deref r;
  match pd_header d !! key with
  | Some (v, _) => mret v
  | None =>
      log "error" ("GetHeadVal: " +:+ missing_keyword key) [];;
      raise (KeyError (missing_keyword key))
  end.

(** Elementwise arithmetic of one-dimensional arrays of the same length. *)
Definition arr_div (u v : list float) : list float :=
  zip_with PrimFloat.div u v.
Definition arr_and (u v : list bool) : list bool := zip_with andb u v.
Definition arr_ltc (u : list float) (c : float) : list bool :=
  map (fun q => (q <? c)%float) u.
Definition arr_nec (u : list float) (c : float) : list bool :=
  map (fun q => Fl.neqb q c) u.

(** [a - b] on images of the same shape. *)
Definition img_sub (u v : Image) : Image :=
  zip_with (zip_with PrimFloat.sub) u v.

(** ** The source extraction step *)

Module StepSrcExtPy.

(** A row of the structured array [sep.extract] returns: the fields the
    step reads. *)
Record Source := mkSource {
  src_x : float; src_y : float;
  src_a : float; src_b : float; src_theta : float;
  src_xmin : Z; src_xmax : Z; src_ymin : Z; src_ymax : Z;
  src_flux : float }.

(** [sep.Background(...)]: the object with its [back()] and [rms()]. *)
Record Bkg := mkBkg { back : Image; rms : Image }.

(** The library functions the step calls.  sep's aperture functions take
    arrays and return one result for each element: they are given here for
    one source. *)
Record Sep := mkSep {
  (** [sep.Background(image, maskthresh=, bw=, bh=, fw=, fh=, fthresh=)] *)
  Background : Image -> float -> Z -> Z -> Z -> Z -> float -> Bkg;
  (** [sep.extract(data, thresh, err=, deblend_nthresh=)] *)
  extract : Image -> float -> Image -> Z -> list Source;
  (** [sep.kron_radius(data, x, y, a, b, theta, r)]: radius and flag *)
  kron_radius :
    Image -> float -> float -> float -> float -> float -> float -> float * Z;
  (** [sep.sum_ellipse(data, x, y, a, b, theta, r=, err=, subpix=)]: flux,
      its uncertainty and flag *)
  sum_ellipse :
    Image -> float -> float -> float -> float -> float -> float -> Image ->
    Z -> float * float * Z;
  (** [sep.flux_radius(data, x, y, rmax, frac)]: radius and flag *)
  flux_radius : Image -> float -> float -> float -> float -> float * Z;
  (** [np.argsort(a)] *)
  argsort : list float -> list nat }.

(** The value [sep.extract] gives [deblend_nthresh] when the caller passes
    none. *)
Definition default_deblend_nthresh : Z := 32.

(** The parameters of the step, [self.getarg(name)]. *)
Record Args := mkArgs {
  sourcetable : bool;
  sourcetableformat : string;
  maskthreshold : float;
  backgroundwh : Z * Z;
  filterwh : Z * Z;
  fthreshold : float;
  extractthersh : float;
  bfactor : float;
  deblend : Z;
  kronf : float }.

(** The defaults [setup] puts in [self.paramlist]. *)
Definition setup : Args :=
  {| sourcetable := false;
     sourcetableformat := "csv";
     maskthreshold := 0.0;
     backgroundwh := (16, 16)%Z;
     filterwh := (3, 3)%Z;
     fthreshold := 0.0;
     extractthersh := 2.0;
     bfactor := 10.0;
     deblend := 256;
     kronf := 2.5 |}.

(** The six columns of a result table. *)
Definition make_columns (num : list nat) (xs ys flux fluxerr rh : list float)
  : list Column :=
  [ mkColumn "ID" "D" None (map Fl.of_nat num);
    mkColumn "X" "D" (Some "pixel") xs;
    mkColumn "Y" "D" (Some "pixel") ys;
    mkColumn "Uncalibrated Flux" "D" (Some "flux") flux;
    mkColumn "Uncalibrated Fluxerr" "D" (Some "flux") fluxerr;
    mkColumn "Half-light Radius" "D" (Some "pixel") rh ].

Section Run.

Variable lib : Sep.
Variable args : Args.
Variable datain : nat.

Section OnObject.

(** The two header methods of the data object, [obj.getheadval] and
    [obj.setheadval]: they are code of the framework. *)
Variable get : nat -> string -> M HVal.
Variable put : nat -> string -> HVal -> string -> M unit.

(** [StepSrcExtPy.run].  The median and deviation of the subtracted image
    (lines 131-132) are computed and never read: they are left out. *)
Definition run_on : M unit :=
  (* Preparation *)
  binning ← get datain "XBIN";
  d ← deref datain;
  let psimage := pd_image d in
  (* byteswap().newbyteorder(): the same values in the native byte order *)
  let image := psimage in
  let maskthresh := maskthreshold args in
  let backwh := backgroundwh args in
  let filwh := filterwh args in
  let bw := fst backwh in let bh := snd backwh in
  let fw := fst filwh in let fh := snd filwh in
  let fthresh := fthreshold args in
  let bkg := Background lib image maskthresh bw bh fw fh fthresh in
  let bkg_image := back bkg in
  let bkg_rms := rms bkg in
  let image_sub := img_sub image bkg_image in
  let extract_thresh := extractthersh args in
  let bright_factor := bfactor args in
  let deblend_nthresh := deblend args in
  let kfactor := kronf args in
  let extract_err := bkg_rms in
  (* the low threshold list and the high threshold list *)
  let sources :=
    extract lib image_sub extract_thresh extract_err deblend_nthresh in
  let sourcesb :=
    extract lib image_sub (extract_thresh * bright_factor)%float extract_err
            default_deblend_nthresh in
  (* sort sources by descending isophotal flux *)
  let ind := argsort lib (map src_flux sources) in
  let reverser := Np.arange_down (length ind) in
  rev_ind ← take_along_axis ind reverser;
  objects ← take_along_axis sources rev_ind;
  let indb := argsort lib (map src_flux sourcesb) in
  let reverserbri := Np.arange_down (length indb) in
  rev_indb ← take_along_axis indb reverserbri;
  objectsb ← take_along_axis sourcesb rev_indb;
  (* Kron radius, r = 6.0 *)
  let kronrad :=
    map (fun o => fst (kron_radius lib image_sub (src_x o) (src_y o)
                         (src_a o) (src_b o) (src_theta o) 6.0)) objects in
  let kronradb :=
    map (fun o => fst (kron_radius lib image_sub (src_x o) (src_y o)
                         (src_a o) (src_b o) (src_theta o) 6.0)) objectsb in
  (* flux in the ellipse of radius kfactor*kronrad *)
  let ell :=
    zip_with (fun o r => sum_ellipse lib image_sub (src_x o) (src_y o)
                           (src_a o) (src_b o) (src_theta o) r bkg_rms 1)
             objects (map (fun k => (kfactor * k)%float) kronrad) in
  let flux_elip := map (fun t => fst (fst t)) ell in
  let fluxerr_elip := map (fun t => snd (fst t)) ell in
  let ellb :=
    zip_with (fun o r => sum_ellipse lib image_sub (src_x o) (src_y o)
                           (src_a o) (src_b o) (src_theta o) r bkg_rms 1)
             objectsb (map (fun k => (kfactor * k)%float) kronradb) in
  let flux_elipb := map (fun t => fst (fst t)) ellb in
  let fluxerr_elipb := map (fun t => snd (fst t)) ellb in
  (* half-flux radius within rmax *)
  let dx := map (fun o => (Fl.of_Z (src_xmax o - src_xmin o) / 2)%float)
                objects in
  let dy := map (fun o => (Fl.of_Z (src_ymax o - src_ymin o) / 2)%float)
                objects in
  let dxb := map (fun o => (Fl.of_Z (src_xmax o - src_xmin o) / 2)%float)
                 objectsb in
  let dyb := map (fun o => (Fl.of_Z (src_ymax o - src_ymin o) / 2)%float)
                 objectsb in
  let rmax :=
    zip_with (fun u v => PrimFloat.sqrt (u * u + v * v)%float) dx dy in
  let rmaxb :=
    zip_with (fun u v => PrimFloat.sqrt (u * u + v * v)%float) dxb dyb in
  let frac := 0.5%float in
  let rh :=
    zip_with (fun o rm =>
                fst (flux_radius lib image_sub (src_x o) (src_y o) rm frac))
             objects rmax in
  let rhb :=
    zip_with (fun o rm =>
                fst (flux_radius lib image_sub (src_x o) (src_y o) rm frac))
             objectsb rmaxb in
  (* sort the arrays by flux: the boosted threshold *)
  let indb := argsort lib flux_elipb in
  let reverserb := Np.arange_down (length indb) in
  rev_indb ← take_along_axis indb reverserb;
  flux_elipb ← take_along_axis flux_elipb rev_indb;
  fluxerr_elipb ← take_along_axis fluxerr_elipb rev_indb;
  objectsb ← take_along_axis objectsb rev_indb;
  rhb ← take_along_axis rhb rev_indb;
  (* the normal threshold *)
  let ind := argsort lib flux_elip in
  let reverser := Np.arange_down (length ind) in
  rev_ind ← take_along_axis ind reverser;
  flux_elip ← take_along_axis flux_elip rev_ind;
  fluxerr_elip ← take_along_axis fluxerr_elip rev_ind;
  objects ← take_along_axis objects rev_ind;
  rh ← take_along_axis rh rev_ind;
  (* the cuts *)
  let elim := 1.5%float in
  let elong := arr_ltc (map (fun o => (src_a o / src_b o)%float) objects)
                       elim in
  let seo_SN :=
    arr_and (arr_and (arr_and elong
                        (arr_ltc (arr_div flux_elip fluxerr_elip) 1000))
                     (arr_nec fluxerr_elip 0))
            (arr_nec flux_elip 0) in
  let elongb := arr_ltc (map (fun o => (src_a o / src_b o)%float) objectsb)
                        elim in
  let seo_SNB :=
    arr_and (arr_and (arr_and elongb
                        (arr_ltc (arr_div flux_elipb fluxerr_elipb) 1000))
                     (arr_nec fluxerr_elipb 0))
            (arr_nec flux_elipb 0) in
  log "debug" "Selected %d high thershold stars from Source Extrator catalog"
      [HInt (Z.of_nat (Np.count_nonzero seo_SN))];;
  log "debug" "Selected %d low thershold stars from Source Extrator catalog"
      [HInt (Z.of_nat (Np.count_nonzero seo_SNB))];;
  (* mean RH, its STD and mean elongation *)
  rh_sel ← index_mask rh seo_SN;
  let rhmean := Np.nanmean rh_sel in
  let rhstd := Np.mad_std rh_sel in
  a_sel ← index_mask (map src_a objects) seo_SN;
  b_sel ← index_mask (map src_b objects) seo_SN;
  let elmean := Np.nanmean (arr_div a_sel b_sel) in
  (* the table of the low threshold sources *)
  x_sel ← index_mask (map src_x objects) seo_SN;
  y_sel ← index_mask (map src_y objects) seo_SN;
  flux_sel ← index_mask flux_elip seo_SN;
  fluxerr_sel ← index_mask fluxerr_elip seo_SN;
  let num := Np.arange1 (length x_sel) in
  let cols := make_columns num x_sel y_sel flux_sel fluxerr_sel rh_sel in
  (* the table of the brighter threshold *)
  xb_sel ← index_mask (map src_x objectsb) seo_SNB;
  yb_sel ← index_mask (map src_y objectsb) seo_SNB;
  fluxb_sel ← index_mask flux_elipb seo_SNB;
  fluxerrb_sel ← index_mask fluxerr_elipb seo_SNB;
  rhb_sel ← index_mask rhb seo_SNB;
  let numb := Np.arange1 (length xb_sel) in
  let grid := make_columns numb xb_sel yb_sel fluxb_sel fluxerrb_sel rhb_sel in
  let sources_table := cols in
  let sourceb_table := grid in
  (* the output data *)
  set_dataout datain;;
  out ← get_dataout;
  put out "RHALF" (HFloat rhmean)
      "Mean half-power radius of stars (in pixels)";;
  out ← get_dataout;
  put out "RHALFSTD" (HFloat rhstd)
      "STD of masked mean of half-power radius";;
  out ← get_dataout;
  put out "ELONG" (HFloat elmean) "Mean elong of accepted sources";;
  out ← get_dataout;
  tableset out sources_table "Low Threshold Sources";;
  out ← get_dataout;
  tableset out sourceb_table "High Threshold Sources";;
  out ← get_dataout;
  put out "EXTRACT_THRESH" (HFloat extract_thresh)
      "Extraction Thershold for Low Thershold Table";;
  out ← get_dataout;
  put out "BRIGHT_FACTOR" (HFloat bright_factor)
      "Multiplier to create High Threshold Table";;
  (* the text files of the source list *)
  if sourcetable args then
    out ← get_dataout;
    o ← deref out;
    let filename := pd_filenamebegin o +:+ "FCALsources.reg" in
    emit (EvRegionFile filename (zip (zip x_sel y_sel) num));;
    out ← get_dataout;
    o ← deref out;
    let txtname := pd_filenamebegin o +:+ "FALsources.txt" in
    out ← get_dataout;
    tbl ← tableget out "Low Threshold Sources";
    emit (EvAsciiWrite tbl txtname (sourcetableformat args));;
    log "debug" "Saved sources table under %s" [HStr txtname]
  else mret tt.

End OnObject.

(** The step on a data object whose header takes every value. *)
Definition run : M unit := run_on getheadval setheadval.

(** The step on the data object over a FITS header. *)
Definition run_fits : M unit := run_on getheadval_fits setheadval_fits.

End Run.

End StepSrcExtPy.

(** ** A small library instance, to run the steps on concrete inputs *)

Module Toy.

Import StepSrcExtPy.

(** The order of numpy's sorts: numbers ascending, NaN last. *)
Definition np_lt (x y : float) : bool :=
  (x <? y)%float || (PrimFloat.is_nan y && negb (PrimFloat.is_nan x)).

Fixpoint insert_idx (v : list float) (i : nat) (l : list nat) : list nat :=
  match l with
  | [] => [i]
  | j :: l' =>
      if np_lt (nth j v Fl.nan) (nth i v Fl.nan)
      then j :: insert_idx v i l'
      else i :: l
  end.

(** An argsort by insertion that keeps the order of equal keys: the
    indices of the numbers ascending, those of NaN last. *)
Definition argsort_stable (v : list float) : list nat :=
  fold_right (insert_idx v) [] (seq 0 (length v)).

(** A background of zero with unit noise. *)
Definition flat_background (img : Image) : Bkg :=
  mkBkg (map (map (fun _ => 0%float)) img) (map (map (fun _ => 1%float)) img).

(** A stand-in for sep over the objects of a field, which may depend on the
    deblending parameter: a source is detected when its isophotal flux is
    above the threshold; its elliptical flux and uncertainty are read off
    [theta] and [y], so that the examples can choose them, the flux scaled
    by a factor that may depend on the sampling. *)
Definition toy_sep (field : Z -> list Source) (gain : Z -> float) : Sep :=
  {| Background := fun img _ _ _ _ _ _ => flat_background img;
     extract := fun _ thresh _ deblend_nthresh =>
       List.filter (fun s => (thresh <? src_flux s)%float)
                   (field deblend_nthresh);
     kron_radius := fun _ _ _ _ _ _ _ => (1%float, 0%Z);
     sum_ellipse := fun _ x y a b theta r _ subpix =>
       ((theta * gain subpix)%float, y, 0%Z);
     flux_radius := fun _ _ _ rmax _ => (rmax, 0%Z);
     argsort := argsort_stable |}.

Definition blank : PipeData :=
  mkPipeData {[ "XBIN" := (HInt 2, "binning") ]} [[0; 0]; [0; 0]]%float ∅
             "img.fits" "img.".

Definition world0 : World := mkWorld (fun _ => blank) None [].

(** A round source at [x] with the given isophotal flux, elliptical flux
    and uncertainty. *)
Definition star (x flux_iso flux_el err : float) : Source :=
  mkSource x err 1 1 flux_el 0 2 0 2 flux_iso.

(** Two sources of the same elliptical flux. *)
Definition twins : list Source := [star 1 6 50 1; star 2 5 50 1].

(** A source whose elliptical flux is negative. *)
Definition faint : list Source := [star 1 5 (-5) 1].

(** A pair of sources that a coarse deblending merges into one. *)
Definition blend (deblend_nthresh : Z) : list Source :=
  if (deblend_nthresh <=? 32)%Z then [star 1 90 80 1]
  else [star 1 50 45 1; star 2 40 35 1].

(** An aperture sum that is larger when the overlap is exact. *)
Definition exact_gain (subpix : Z) : float :=
  if (subpix =? 0)%Z then 2%float else 1%float.

End Toy.

(** ** The flux calibration step *)

(** [s.split(c)] of Python for a one-character separator. *)
Fixpoint split (c : ascii) (s : string) : list string :=
  match s with
  | EmptyString => [EmptyString]
  | String a s' =>
      if Ascii.eqb a c then EmptyString :: split c s'
      else match split c s' with
           | h :: t => String a h :: t
           | [] => [String a EmptyString]
           end
  end.

(** [s[-1]]: the last character, IndexError on the empty string. *)
Fixpoint last_char (s : string) : option ascii :=
  match s with
  | EmptyString => None
  | String a EmptyString => Some a
  | String _ s' => last_char s'
  end.

Module StepFluxCalSex.

(** A row of the LDAC_OBJECTS table the source extractor writes: the
    columns the step reads. *)
Record SexRow := mkSexRow {
  FLUX_AUTO : float;
  FLUXERR_AUTO : float;
  FLUX_APER : float;
  ALPHA_J2000 : float;
  DELTA_J2000 : float }.

(** The parameters of the step and the defaults of [setup]. *)
Record Args := mkArgs {
  sx_cmd : string;
  sx_options : string;
  sx_confilename : string;
  sx_paramfilename : string;
  sx_filterfilename : string;
  verbose : bool;
  delete_cat : bool;
  zeropercent : float }.

Definition setup : Args :=
  {| sx_cmd := "sex %s";
     sx_options := "";
     sx_confilename := "psf.sex";
     sx_paramfilename := "default.param";
     sx_filterfilename := "default.conv";
     verbose := false;
     delete_cat := false;
     zeropercent := 30.0 |}.

(** What the step calls outside the repository: the operating system, the
    source extractor process, the catalog service, astropy, numpy and
    scipy.  A call that can fail returns the exception. *)
Record Lib := mkLib {
  (** [os.path.exists(path)] *)
  path_exists : string -> bool;
  (** [os.path.expandvars(path)] *)
  expandvars : string -> string;
  (** [template % (arg)] *)
  format_s : string -> string -> string;
  (** the output of the process [subprocess.Popen(command, ...)] *)
  communicate : string -> string;
  (** [astropy.table.Table.read(name, format="fits", hdu='LDAC_OBJECTS')] *)
  table_read : string -> Exn + list SexRow;
  (** [np.log10], [np.log] *)
  np_log10 : float -> float;
  np_log : float -> float;
  (** [SkyCoord(text, unit=(u.hourangle, u.deg))]: ra and dec in degrees *)
  SkyCoord : string -> Exn + (float * float);
  (** [str(x)] of a float *)
  str : float -> string;
  (** [requests.get(url).text] *)
  requests_get : string -> Exn + string;
  (** [astropy.io.ascii.read(text)]: the columns by name *)
  ascii_read : string -> Exn + gmap string (list float);
  (** [coords.match_to_catalog_sky(catalog)]: for each coordinate the index
      of the nearest catalog entry and the separation in degrees *)
  match_to_catalog_sky :
    list (float * float) -> list (float * float) -> Exn + list (nat * float);
  (** [scipy.optimize.minimize(fun, x0, args=...)["x"]] *)
  minimize : (float * float -> float) -> float * float -> float * float;
  (** [np.nanpercentile(image, q)] *)
  nanpercentile : Image -> float -> float;
  (** [x ** y] on floats *)
  pow : float -> float -> float }.

(** [residual(params, x, data, errors)]. *)
Definition residual (params : float * float) (x data errors : list float)
  : float :=
  let '(m, c) := params in
  let model := map (fun xi => (m * xi + c)%float) x in
  let inv_sigma2 := map (fun e => (1.0 / Fl.square e)%float) errors in
  (-0.5 * Fl.sum (zip_with PrimFloat.mul
                    (map Fl.square (zip_with PrimFloat.sub data model))
                    inv_sigma2))%float.

(** [nll], the lambda that negates [residual] on the same arguments. *)
Definition nll (params : float * float) (x data errors : list float) : float :=
  (- residual params x data errors)%float.

(** A column of the catalog query table, KeyError when it has none of that
    name. *)
Definition column (t : gmap string (list float)) (name : string)
  : M (list float) :=
  or_raise (KeyError name) (t !! name).

Section Run.

Variable lib : Lib.
Variable args : Args.
Variable datain : nat.

Section OnObject.

(** The two header methods of the data object, [obj.getheadval] and
    [obj.setheadval]: they are code of the framework. *)
Variable get : nat -> string -> M HVal.
Variable put : nat -> string -> HVal -> string -> M unit.

(** [StepFluxCalSex.run].  The position is joined with [string.join], the
    function of Python 2. *)
Definition run_on : M unit :=
  (* Preparation *)
  binning ← get datain "XBIN";
  (* Run Source Extractor *)
  d ← deref datain;
  (if path_exists lib (pd_filename d) then mret tt else emit (EvSave datain));;
  d ← deref datain;
  let catfilename := pd_filenamebegin d in
  last ← or_raise IndexError (last_char catfilename);
  let catfilename :=
    if bool_decide (last ∈ ["."; "_"; "-"]%char)
    then catfilename +:+ "sex_cat.fits"
    else catfilename +:+ ".sex_cat.fits" in
  log "debug" "Sextractor catalog filename = %s" [HStr catfilename];;
  d ← deref datain;
  let command := format_s lib (sx_cmd args) (pd_filename d) in
  let command := command +:+ " " +:+ sx_options args in
  let command :=
    command +:+ " -c " +:+ expandvars lib (sx_confilename args) in
  let command := command +:+ " -CATALOG_NAME " +:+ catfilename in
  let command :=
    command +:+ " -PARAMETERS_NAME "
            +:+ expandvars lib (sx_paramfilename args) in
  let command :=
    command +:+ " -FILTER_NAME " +:+ expandvars lib (sx_filterfilename args) in
  log "debug" "running command = %s" [HStr command];;
  emit (EvPopen command);;
  let output := communicate lib command in
  (if verbose args then log "debug" "%s" [HStr output] else mret tt);;
  (* Extract catalog from source extractor and clean up dataset *)
  seo_catalog ← lift_sum (table_read lib catfilename);
  let seo_Mag :=
    map (fun r => (-2.5 * np_log10 lib (FLUX_AUTO r))%float) seo_catalog in
  let seo_MagErr :=
    map (fun r => (2.5 / np_log lib 10 * FLUXERR_AUTO r / FLUX_AUTO r)%float)
        seo_catalog in
  let elongation :=
    map (fun r => (FLUX_APER r - FLUX_AUTO r <? 250)%float) seo_catalog in
  let seo_SN :=
    map (fun r => (10 <? FLUX_AUTO r / FLUXERR_AUTO r)%float) seo_catalog in
  let seo_SN :=
    arr_and (arr_and seo_SN elongation)
            (map (fun r => (FLUX_AUTO r / FLUXERR_AUTO r <? 1000)%float)
                 seo_catalog) in
  log "debug" "Selected %d stars from Source Extrator catalog"
      [HInt (Z.of_nat (Np.count_nonzero seo_SN))];;
  (if delete_cat args then emit (EvRemove catfilename) else mret tt);;
  (* Query and extract data from the Guide Star Catalog *)
  ra_hv ← get datain "RA";
  ra_s ← as_str ra_hv;
  let ra_center := split ":" ra_s in
  dec_hv ← get datain "DEC";
  dec_s ← as_str dec_hv;
  let dec_center := split ":" dec_s in
  let ra_cent := String.concat " " ra_center in
  let dec_cent := String.concat " " dec_center in
  center_coordinates ← lift_sum (SkyCoord lib (ra_cent +:+ " " +:+ dec_cent));
  log "debug" "Using RA/Dec = %s / %s"
      [HFloat (fst center_coordinates); HFloat (snd center_coordinates)];;
  let gsc2_query :=
    "http://gsss.stsci.edu/webservices/vo/CatalogSearch.aspx?" in
  let gsc2_query :=
    gsc2_query +:+ "RA=" +:+ str lib (fst center_coordinates) in
  let gsc2_query :=
    gsc2_query +:+ "&DEC=" +:+ str lib (snd center_coordinates) in
  let gsc2_query :=
    gsc2_query +:+ "&DSN=+&FORMAT=CSV&CAT=GSC241&SR=0.5&" in
  log "debug" "Running URL = %s" [HStr gsc2_query];;
  emit (EvHttpGet gsc2_query);;
  gsc2_result ← lift_sum (requests_get lib gsc2_query);
  filter_hv ← get datain "FILTER";
  filter_s ← as_str filter_hv;
  filter_name ← or_raise IndexError (split "-" filter_s !! 0%nat);
  query_table ← lift_sum (ascii_read lib gsc2_result);
  let table_filter := "SDSS" +:+ filter_name +:+ "Mag" in
  let table_filter_err := "SDSS" +:+ filter_name +:+ "MagErr" in
  let usable (col : list float) : list bool :=
    arr_and (arr_ltc col 22) (map (fun q => (0 <? q)%float) col) in
  c ← column query_table "ra";
  f ← column query_table table_filter;
  GSC_RA ← index_mask c (usable f);
  c ← column query_table "dec";
  f ← column query_table table_filter;
  GSC_DEC ← index_mask c (usable f);
  c ← column query_table table_filter;
  f ← column query_table table_filter;
  GSC_Mag ← index_mask c (usable f);
  c ← column query_table table_filter_err;
  f ← column query_table table_filter;
  GSC_MagErr ← index_mask c (usable f);
  log "debug" "Received %d entries from Guide Star Catalog"
      [HInt (Z.of_nat (length GSC_RA))];;
  (* Match Guide Star Catalog data with data from Source Extractor *)
  let seo_coords :=
    map (fun r => (ALPHA_J2000 r, DELTA_J2000 r)) seo_catalog in
  let GSC_catalog := zip GSC_RA GSC_DEC in
  seo_sel ← index_mask seo_coords seo_SN;
  matched ← lift_sum (match_to_catalog_sky lib GSC_catalog seo_sel);
  let idx := map fst matched in
  let d2d := map snd matched in
  (* the objects less than 0.025 away: computed and not used *)
  let mask := List.filter (fun q => (q <? 0.025)%float) d2d in
  binning ← as_float binning;
  let dist_value := (1 * 0.76 * binning / 3600)%float in
  log "debug" "Distance_Value = %f" [HFloat dist_value];;
  (* the fit correction between the guide star and the extracted values *)
  let near := arr_ltc d2d dist_value in
  gerr ← index_mask GSC_MagErr near;
  serr ← index_mask seo_MagErr seo_SN;
  serr ← take_along_axis serr idx;
  serr ← index_mask serr near;
  let eps_data :=
    map PrimFloat.sqrt
        (zip_with PrimFloat.add (map Fl.square gerr) (map Fl.square serr)) in
  gmag ← index_mask GSC_Mag near;
  smag ← index_mask seo_Mag seo_SN;
  smag ← take_along_axis smag idx;
  smag ← index_mask smag near;
  emit (EvMinimize (1, -2)%float gmag smag eps_data);;
  let result :=
    minimize lib (fun p => nll p gmag smag eps_data) (1, -2)%float in
  let m_ml := fst result in
  let b_ml := snd result in
  log "info" "Fitted offset is %f mag" [HFloat b_ml];;
  (* Make output data *)
  set_dataout datain;;
  out ← get_dataout;
  put out "PHOTZP" (HFloat (- b_ml))
      "Photometric zeropoint MAG=-2.5*log(data)+PHOTZP";;
  out ← get_dataout;
  put out "PHOTZPER" (HFloat 0.0)
      "Uncertainty of the photometric zeropoint";;
  out ← get_dataout;
  o ← deref out;
  let bzero := nanpercentile lib (pd_image o) (zeropercent args) in
  let bscale := (3631 * pow lib 10 (b_ml / 2.5))%float in
  out ← get_dataout;
  o ← deref out;
  let rescaled :=
    map (map (fun p => (bscale * (p - bzero))%float)) (pd_image o) in
  out ← get_dataout;
  set_image out rescaled.

End OnObject.

(** The step on a data object whose header takes every value. *)
Definition run : M unit := run_on getheadval setheadval.

(** The step on the data object over a FITS header. *)
Definition run_fits : M unit := run_on getheadval_fits setheadval_fits.

End Run.

End StepFluxCalSex.

(** ** The source extraction step, source by source

    The step keeps a set of sources as parallel arrays that it sorts with
    one index and cuts with one mask.  The functions below do the same on
    one list of measured sources; the tables of [StepSrcExtPy.run] are
    proved equal to theirs further down. *)

Module SrcExtRows.

Import StepSrcExtPy.

(** A source with what the step measures of it. *)
Record Measured := mkMeasured {
  m_obj : Source;
  m_flux : float;
  m_fluxerr : float;
  m_rh : float }.

(** The sampling factor that selects the exact overlap of aperture and
    pixel in sep's aperture sums ([subpix=0]); a positive factor [n] samples
    each pixel on an [n] by [n] grid. *)
Definition subpix_exact : Z := 0.

Section Rows.

Variable lib : Sep.
Variable args : Args.
Variable img : Image.

Definition bkg : Bkg :=
  Background lib img (maskthreshold args)
             (fst (backgroundwh args)) (snd (backgroundwh args))
             (fst (filterwh args)) (snd (filterwh args)) (fthreshold args).

Definition image_sub : Image := img_sub img (back bkg).

Definition low_sources : list Source :=
  extract lib image_sub (extractthersh args) (rms bkg) (deblend args).

Definition high_sources : list Source :=
  extract lib image_sub (extractthersh args * bfactor args)%float (rms bkg)
          default_deblend_nthresh.

Definition kron (o : Source) : float :=
  fst (kron_radius lib image_sub (src_x o) (src_y o) (src_a o) (src_b o)
                   (src_theta o) 6.0).

(** The elliptical aperture sum of a source for a sampling factor. *)
Definition ellipse_at (subpix : Z) (o : Source) : float * float * Z :=
  sum_ellipse lib image_sub (src_x o) (src_y o) (src_a o) (src_b o)
              (src_theta o) (kronf args * kron o)%float (rms bkg) subpix.

Definition ellipse (o : Source) : float * float * Z := ellipse_at 1 o.

Definition rmax_of (o : Source) : float :=
  let u := (Fl.of_Z (src_xmax o - src_xmin o) / 2)%float in
  let v := (Fl.of_Z (src_ymax o - src_ymin o) / 2)%float in
  PrimFloat.sqrt (u * u + v * v)%float.

Definition half_radius (o : Source) : float :=
  fst (flux_radius lib image_sub (src_x o) (src_y o) (rmax_of o) 0.5).

Definition measure (o : Source) : Measured :=
  mkMeasured o (fst (fst (ellipse o))) (snd (fst (ellipse o)))
             (half_radius o).

Definition elongation (m : Measured) : float :=
  (src_a (m_obj m) / src_b (m_obj m))%float.

(** The cut [seo_SN] for one source. *)
Definition accepted (m : Measured) : bool :=
  (((elongation m <? 1.5)%float
    && (m_flux m / m_fluxerr m <? 1000)%float)
   && Fl.neqb (m_fluxerr m) 0)
  && Fl.neqb (m_flux m) 0.

(** Sorting by a key, descending: the argsort of the keys, reversed, and
    the array taken along it. *)
Definition sort_desc {A} (key : A -> float) (l : list A) : option (list A) :=
  Np.take l (rev (argsort lib (map key l))).

(** From the extracted sources to the accepted ones, in table order. *)
Definition select (sources : list Source) : option (list Measured) :=
  objects ← sort_desc src_flux sources;
  rows ← sort_desc m_flux (map measure objects);
  Some (List.filter accepted rows).

Definition table_of (rows : list Measured) : list Column :=
  make_columns (Np.arange1 (length rows))
               (map (fun m => src_x (m_obj m)) rows)
               (map (fun m => src_y (m_obj m)) rows)
               (map m_flux rows) (map m_fluxerr rows) (map m_rh rows).

(** The data object after the step, for the accepted sources of the two
    sets. *)
Definition result (d : PipeData) (rows rowsb : list Measured) : PipeData :=
  mkPipeData
    (<["BRIGHT_FACTOR" := (HFloat (bfactor args),
                           "Multiplier to create High Threshold Table")]>
     (<["EXTRACT_THRESH" := (HFloat (extractthersh args),
                            "Extraction Thershold for Low Thershold Table")]>
      (<["ELONG" := (HFloat (Np.nanmean (map elongation rows)),
                     "Mean elong of accepted sources")]>
       (<["RHALFSTD" := (HFloat (Np.mad_std (map m_rh rows)),
                         "STD of masked mean of half-power radius")]>
        (<["RHALF" := (HFloat (Np.nanmean (map m_rh rows)),
                       "Mean half-power radius of stars (in pixels)")]>
         (pd_header d))))))
    (pd_image d)
    (<["High Threshold Sources" := table_of rowsb]>
     (<["Low Threshold Sources" := table_of rows]> (pd_tables d)))
    (pd_filename d) (pd_filenamebegin d).

(** The effects of the step, in order. *)
Definition effects (d : PipeData) (rows rowsb : list Measured) : list Event :=
  [ EvLog "debug"
          "Selected %d high thershold stars from Source Extrator catalog"
          [HInt (Z.of_nat (length rows))];
    EvLog "debug"
          "Selected %d low thershold stars from Source Extrator catalog"
          [HInt (Z.of_nat (length rowsb))] ]
  ++ (if sourcetable args then
        [ EvRegionFile (pd_filenamebegin d +:+ "FCALsources.reg")
                       (zip (zip (map (fun m => src_x (m_obj m)) rows)
                                 (map (fun m => src_y (m_obj m)) rows))
                            (Np.arange1 (length rows)));
          EvAsciiWrite (table_of rows)
                       (pd_filenamebegin d +:+ "FALsources.txt")
                       (sourcetableformat args);
          EvLog "debug" "Saved sources table under %s"
                [HStr (pd_filenamebegin d +:+ "FALsources.txt")] ]
      else []).

(** The specification's reading of the two paths: one pipeline, a function
    of the extraction threshold alone, run once for each threshold. *)
Definition pipeline_spec (thresh : float) : option (list Column) :=
  table_of <$> select (extract lib image_sub thresh (rms bkg) (deblend args)).

(** The pipeline the step runs: a function of the threshold and of the
    deblending parameter. *)
Definition pipeline (thresh : float) (deblend_nthresh : Z)
  : option (list Column) :=
  table_of <$> select (extract lib image_sub thresh (rms bkg) deblend_nthresh).

End Rows.

(** What the step needs of [np.argsort]: the indices of the array, each
    once, and the elements along them ascending with NaN last. *)
Definition ascending (x y : float) : Prop :=
  (x <=? y)%float = true \/ PrimFloat.is_nan y = true.

Definition argsort_ok (f : list float -> list nat) : Prop :=
  forall v : list float,
    Permutation (f v) (seq 0 (length v)) /\
    StronglySorted ascending (map (fun i => nth i v Fl.nan) (f v)).


(** The array of a column of a table, by the name of the column. *)
Definition column_array (name : string) (t : list Column)
  : option (list float) :=
  col_array <$> List.find (fun c => String.eqb (col_name c) name) t.


End SrcExtRows.

(** ** The flux calibration step, pair by pair

    The step keeps the catalog entries, the stars and the matches as
    parallel arrays.  The functions below speak of one list of matched
    pairs; the arguments [StepFluxCalSex.run] gives the minimiser are proved
    to be the columns of the retained pairs further down. *)

Module FluxCalPairs.

Import StepFluxCalSex.

(** A row of the table the catalog query returns, for the filter of the
    image. *)
Record Entry := mkEntry {
  e_ra : float;
  e_dec : float;
  e_mag : float;
  e_magerr : float }.

(** A catalog entry with the star nearest to it and their separation, in
    degrees. *)
Record Pair := mkPair {
  p_entry : Entry;
  p_star : SexRow;
  p_sep : float }.

(** What the step reads from the header and receives from outside. *)
Record Inputs := mkInputs {
  in_binning : float;
  in_last : ascii;
  in_seo : list SexRow;
  in_ra : string;
  in_dec : string;
  in_center : float * float;
  in_text : string;
  in_filter : string;
  in_table : gmap string (list float);
  in_rows : list Entry;
  in_matched : list (nat * float);
  in_pairs : list Pair }.

(** The cut on the catalog magnitude: observed and brighter than 22. *)
Definition is_usable (e : Entry) : bool :=
  (e_mag e <? 22)%float && (0 <? e_mag e)%float.

(** The cut [seo_SN] on the extracted sources. *)
Definition is_star (r : SexRow) : bool :=
  ((10 <? FLUX_AUTO r / FLUXERR_AUTO r)%float
   && (FLUX_APER r - FLUX_AUTO r <? 250)%float)
  && (FLUX_AUTO r / FLUXERR_AUTO r <? 1000)%float.

(** The distance threshold for the binning of the image. *)
Definition dist_value (binning : float) : float :=
  (1 * 0.76 * binning / 3600)%float.

Definition pair_up (stars : list SexRow) (em : Entry * (nat * float))
  : option Pair :=
  match stars !! fst (snd em) with
  | Some s => Some (mkPair (fst em) s (snd (snd em)))
  | None => None
  end.

Fixpoint pair_all (stars : list SexRow) (ems : list (Entry * (nat * float)))
  : option (list Pair) :=
  match ems with
  | [] => Some []
  | em :: ems' =>
      match pair_up stars em, pair_all stars ems' with
      | Some p, Some ps => Some (p :: ps)
      | _, _ => None
      end
  end.

(** The pairs of the usable entries with their matches: one match for each
    entry, each naming a star. *)
Definition pairs_of (entries : list Entry) (stars : list SexRow)
           (matched : list (nat * float)) : option (list Pair) :=
  if Nat.eqb (length entries) (length matched)
  then pair_all stars (zip entries matched)
  else None.

Section Pairs.

Variable lib : Lib.
Variable args : Args.

Definition star_mag (r : SexRow) : float :=
  (-2.5 * np_log10 lib (FLUX_AUTO r))%float.

Definition star_magerr (r : SexRow) : float :=
  (2.5 / np_log lib 10 * FLUXERR_AUTO r / FLUX_AUTO r)%float.

Definition gsc_mag (p : Pair) : float := e_mag (p_entry p).
Definition seo_mag (p : Pair) : float := star_mag (p_star p).

(** The uncertainty of a pair: the two uncertainties added in quadrature. *)
Definition combined_err (p : Pair) : float :=
  PrimFloat.sqrt (Fl.square (e_magerr (p_entry p))
                  + Fl.square (star_magerr (p_star p)))%float.

(** The pairs the fit uses. *)
Definition retained (binning : float) (pairs : list Pair) : list Pair :=
  List.filter (fun p => (p_sep p <? dist_value binning)%float) pairs.

Definition catfilename (d : PipeData) (last : ascii) : string :=
  if bool_decide (last ∈ ["."; "_"; "-"]%char)
  then pd_filenamebegin d +:+ "sex_cat.fits"
  else pd_filenamebegin d +:+ ".sex_cat.fits".

Definition command (d : PipeData) (last : ascii) : string :=
  (((((format_s lib (sx_cmd args) (pd_filename d)
       +:+ (" " +:+ sx_options args))
      +:+ (" -c " +:+ expandvars lib (sx_confilename args)))
     +:+ (" -CATALOG_NAME " +:+ catfilename d last))
    +:+ (" -PARAMETERS_NAME " +:+ expandvars lib (sx_paramfilename args)))
   +:+ (" -FILTER_NAME " +:+ expandvars lib (sx_filterfilename args))).

Definition center_text (ra dec : string) : string :=
  String.concat " " (split ":" ra) +:+ " "
  +:+ String.concat " " (split ":" dec).

Definition gsc2_query (center : float * float) : string :=
  ((("http://gsss.stsci.edu/webservices/vo/CatalogSearch.aspx?"
     +:+ ("RA=" +:+ str lib (fst center)))
    +:+ ("&DEC=" +:+ str lib (snd center)))
   +:+ "&DSN=+&FORMAT=CSV&CAT=GSC241&SR=0.5&").

Definition filter_name (s : string) : string :=
  match split "-" s with
  | h :: _ => h
  | [] => EmptyString
  end.

(** The inputs with which the step runs to its end: the header has the
    binning, the position and the filter, the files and the catalog service
    answer, the query table has the four columns, and the matching returns
    a star for each usable entry. *)
Definition ready (d : PipeData) (i : Inputs) : Prop :=
  (exists (v : HVal) (c : string),
      pd_header d !! "XBIN" = Some (v, c) /\
      hval_float v = Some (in_binning i)) /\
  last_char (pd_filenamebegin d) = Some (in_last i) /\
  table_read lib (catfilename d (in_last i)) = inr (in_seo i) /\
  (exists c : string, pd_header d !! "RA" = Some (HStr (in_ra i), c)) /\
  (exists c : string, pd_header d !! "DEC" = Some (HStr (in_dec i), c)) /\
  SkyCoord lib (center_text (in_ra i) (in_dec i)) = inr (in_center i) /\
  requests_get lib (gsc2_query (in_center i)) = inr (in_text i) /\
  (exists c : string,
      pd_header d !! "FILTER" = Some (HStr (in_filter i), c)) /\
  ascii_read lib (in_text i) = inr (in_table i) /\
  in_table i !! "ra" = Some (map e_ra (in_rows i)) /\
  in_table i !! "dec" = Some (map e_dec (in_rows i)) /\
  in_table i !! ("SDSS" +:+ filter_name (in_filter i) +:+ "Mag")
  = Some (map e_mag (in_rows i)) /\
  in_table i !! ("SDSS" +:+ filter_name (in_filter i) +:+ "MagErr")
  = Some (map e_magerr (in_rows i)) /\
  match_to_catalog_sky lib
    (map (fun e => (e_ra e, e_dec e)) (List.filter is_usable (in_rows i)))
    (map (fun r => (ALPHA_J2000 r, DELTA_J2000 r))
         (List.filter is_star (in_seo i)))
  = inr (in_matched i) /\
  pairs_of (List.filter is_usable (in_rows i))
           (List.filter is_star (in_seo i)) (in_matched i)
  = Some (in_pairs i).

(** The arguments of the fit and its result. *)
Definition fit_x (i : Inputs) : list float :=
  map gsc_mag (retained (in_binning i) (in_pairs i)).
Definition fit_data (i : Inputs) : list float :=
  map seo_mag (retained (in_binning i) (in_pairs i)).
Definition fit_errors (i : Inputs) : list float :=
  map combined_err (retained (in_binning i) (in_pairs i)).

(** The parameters the minimiser returns, slope and intercept. *)
Definition fit (i : Inputs) : float * float :=
  minimize lib (fun p => nll p (fit_x i) (fit_data i) (fit_errors i))
           (1, -2)%float.

Definition bzero (d : PipeData) : float :=
  nanpercentile lib (pd_image d) (zeropercent args).

Definition bscale (i : Inputs) : float :=
  (3631 * pow lib 10 (snd (fit i) / 2.5))%float.

(** The data object after the step. *)
Definition result (d : PipeData) (i : Inputs) : PipeData :=
  mkPipeData
    (<["PHOTZPER" := (HFloat 0.0,
                      "Uncertainty of the photometric zeropoint")]>
     (<["PHOTZP" := (HFloat (- snd (fit i)),
                     "Photometric zeropoint MAG=-2.5*log(data)+PHOTZP")]>
      (pd_header d)))
    (map (map (fun p => (bscale i * (p - bzero d))%float)) (pd_image d))
    (pd_tables d) (pd_filename d) (pd_filenamebegin d).

(** The effects of the step, in order. *)
Definition effects (datain : nat) (d : PipeData) (i : Inputs) : list Event :=
  (if path_exists lib (pd_filename d) then [] else [EvSave datain])
  ++ [ EvLog "debug" "Sextractor catalog filename = %s"
             [HStr (catfilename d (in_last i))];
       EvLog "debug" "running command = %s" [HStr (command d (in_last i))];
       EvPopen (command d (in_last i)) ]
  ++ (if verbose args
      then [EvLog "debug" "%s"
                  [HStr (communicate lib (command d (in_last i)))]]
      else [])
  ++ [ EvLog "debug" "Selected %d stars from Source Extrator catalog"
             [HInt (Z.of_nat (length (List.filter is_star (in_seo i))))] ]
  ++ (if delete_cat args then [EvRemove (catfilename d (in_last i))] else [])
  ++ [ EvLog "debug" "Using RA/Dec = %s / %s"
             [HFloat (fst (in_center i)); HFloat (snd (in_center i))];
       EvLog "debug" "Running URL = %s" [HStr (gsc2_query (in_center i))];
       EvHttpGet (gsc2_query (in_center i));
       EvLog "debug" "Received %d entries from Guide Star Catalog"
             [HInt (Z.of_nat (length (List.filter is_usable (in_rows i))))];
       EvLog "debug" "Distance_Value = %f"
             [HFloat (dist_value (in_binning i))];
       EvMinimize (1, -2)%float (fit_x i) (fit_data i) (fit_errors i);
       EvLog "info" "Fitted offset is %f mag" [HFloat (snd (fit i))] ].

(** The objective the step gives the minimiser for a list of pairs. *)
Definition objective (pairs : list Pair) (params : float * float) : float :=
  nll params (map gsc_mag pairs) (map seo_mag pairs) (map combined_err pairs).

(** The specification's reading of the fit: the catalog magnitude as a
    line in the instrumental magnitude, the squared residuals weighted by
    the inverse of the combined variance. *)
Definition objective_spec (pairs : list Pair) (params : float * float)
  : float :=
  let '(m, b) := params in
  Fl.sum (map (fun p =>
                 (Fl.square (gsc_mag p - (m * seo_mag p + b))
                  / (Fl.square (e_magerr (p_entry p))
                     + Fl.square (star_magerr (p_star p))))%float)
              pairs).

End Pairs.

End FluxCalPairs.

(** ** A small library instance for the flux calibration step *)

Module ToyCal.

Import StepFluxCalSex FluxCalPairs.

(** The separation of two positions on a flat sky. *)
Definition separation (p q : float * float) : float :=
  PrimFloat.sqrt (Fl.square (fst p - fst q) + Fl.square (snd p - snd q))%float.

(** The nearest entry of a catalog, the first of them when several are as
    near: its index, counted from [i], and the separation. *)
Fixpoint nearest (c : float * float) (cat : list (float * float)) (i : nat)
  : option (nat * float) :=
  match cat with
  | [] => None
  | q :: cat' =>
      match nearest c cat' (S i) with
      | Some (j, d) =>
          if (d <? separation c q)%float then Some (j, d)
          else Some (i, separation c q)
      | None => Some (i, separation c q)
      end
  end.

(** Matching to an empty catalog is an error, as in astropy. *)
Definition toy_match (coords cat : list (float * float))
  : Exn + list (nat * float) :=
  match cat with
  | [] => inl ValueError
  | _ => inr (omap (fun c => nearest c cat 0) coords)
  end.

(** A minimiser over a few candidates: the start, or the first candidate
    with a smaller value than those before it. *)
Definition best_of (candidates : list (float * float))
           (f : float * float -> float) (x0 : float * float)
  : float * float :=
  fold_left (fun best c => if (f c <? f best)%float then c else best)
            candidates x0.

(** A stand-in for the world outside the step: the source extractor leaves
    the catalog [seo], the catalog service answers with [table].  The
    logarithm is replaced by a linear function, so that the magnitudes of
    the examples are exact: a flux of 128 has magnitude 1.25, one of 256
    magnitude 2.5. *)
Definition toy_lib (seo : list SexRow) (table : gmap string (list float))
           (candidates : list (float * float)) : Lib :=
  {| path_exists := fun _ => true;
     expandvars := fun s => s;
     format_s := fun _ a => "sex " +:+ a;
     communicate := fun _ => "";
     table_read := fun _ => inr seo;
     np_log10 := fun x => (- x / 256)%float;
     np_log := fun _ => 2.302585092994046%float;
     SkyCoord := fun _ => inr (150, 20)%float;
     str := fun _ => "0.0";
     requests_get := fun _ => inr "";
     ascii_read := fun _ => inr table;
     match_to_catalog_sky := toy_match;
     minimize := best_of candidates;
     nanpercentile := fun img _ => hd 0%float (concat img);
     pow := fun _ _ => 1%float |}.

(** Two stars a quarter of a degree apart. *)
Definition seo : list SexRow :=
  [ mkSexRow 128 4 128 150 20; mkSexRow 256 4 256 150.25 20 ]%float.

(** A query table of three entries in the r filter: one at each star, with
    catalog magnitude twice the instrumental magnitude plus one, and one
    away from both. *)
Definition table3 : gmap string (list float) :=
  {[ "ra" := [150.0001; 150.25; 150.5]%float;
     "dec" := [20; 20.0001; 20.5]%float;
     "SDSSrMag" := [3.5; 6; 10]%float;
     "SDSSrMagErr" := [0.125; 0.125; 0.125]%float ]}.

(** A query table with one usable entry; the magnitude 25 of the other is
    beyond the cut. *)
Definition table1 : gmap string (list float) :=
  {[ "ra" := [150.0001; 150.25]%float;
     "dec" := [20; 20.0001]%float;
     "SDSSrMag" := [3.5; 25]%float;
     "SDSSrMagErr" := [0.125; 0.125]%float ]}.

Definition frame : PipeData :=
  mkPipeData {[ "XBIN" := (HInt 2, "binning");
                "RA" := (HStr "10:00:00", "");
                "DEC" := (HStr "+20:00:00", "");
                "FILTER" := (HStr "r-band", "") ]}
             [[1; 2]; [3; 5]]%float ∅ "img.fits" "img.".

Definition world0 : World := mkWorld (fun _ => frame) None [].

Definition candidates : list (float * float) := [(2, 1); (0.5, -0.5)]%float.

Definition rows3 : list Entry :=
  [ mkEntry 150.0001 20 3.5 0.125; mkEntry 150.25 20.0001 6 0.125;
    mkEntry 150.5 20.5 10 0.125 ]%float.

Definition rows1 : list Entry :=
  [ mkEntry 150.0001 20 3.5 0.125; mkEntry 150.25 20.0001 25 0.125 ]%float.

(** What the step reads and receives in the examples, for the rows of the
    query table. *)
Definition inputs_of (table : gmap string (list float)) (rows : list Entry)
  : Inputs :=
  let usable := List.filter is_usable rows in
  let stars := List.filter is_star seo in
  let matched :=
    match toy_match (map (fun e => (e_ra e, e_dec e)) usable)
                    (map (fun r => (ALPHA_J2000 r, DELTA_J2000 r)) stars) with
    | inr l => l
    | inl _ => []
    end in
  mkInputs 2 "." seo "10:00:00" "+20:00:00" (150, 20)%float "" "r-band"
           table rows matched
           (default [] (pairs_of usable stars matched)).

Definition lib3 : Lib := toy_lib seo table3 candidates.
Definition lib1 : Lib := toy_lib seo table1 candidates.
Definition inputs3 : Inputs := inputs_of table3 rows3.
Definition inputs1 : Inputs := inputs_of table1 rows1.

End ToyCal.

(** ** How a step changes the world

    [evolves w0 w1 r d evs o]: from [w0] to [w1] the object at [r] has
    become [d], the other objects are as they were, the effects [evs] were
    added and [dataout] is [o]. *)
Definition evolves (w0 w1 : World) (r : nat) (d : PipeData)
           (evs : list Event) (o : option nat) : Prop :=
  heap w1 r = d /\
  (forall r' : nat, r' <> r -> heap w1 r' = heap w0 r') /\
  dataout w1 = o /\
  trace w1 = trace w0 ++ evs.

(** ** What a run writes to the header, and what it does outside *)

(** The five values the source extraction step writes to the header, for
    the accepted sources of the low threshold: RHALF, RHALFSTD, ELONG,
    EXTRACT_THRESH and BRIGHT_FACTOR. *)
Definition header_values (args : StepSrcExtPy.Args)
           (rows : list SrcExtRows.Measured) : list float :=
  [ Np.nanmean (map SrcExtRows.m_rh rows);
    Np.mad_std (map SrcExtRows.m_rh rows);
    Np.nanmean (map SrcExtRows.elongation rows);
    StepSrcExtPy.extractthersh args; StepSrcExtPy.bfactor args ].

(** The effects of a run that are not log lines: the files it writes and
    removes, the processes it starts, the requests it sends, the fits it
    asks for. *)
Definition is_log (ev : Event) : bool :=
  match ev with
  | EvLog _ _ _ => true
  | _ => false
  end.

Definition actions (evs : list Event) : list Event :=
  List.filter (fun ev => negb (is_log ev)) evs.

(** [s.replace(a, b)] of Python for two characters. *)
Fixpoint replace_char (a b : ascii) (s : string) : string :=
  match s with
  | EmptyString => EmptyString
  | String c s' => String (if Ascii.eqb c a then b else c) (replace_char a b s')
  end.

(** The characters of a string. *)
Fixpoint chars (s : string) : list ascii :=
  match s with
  | EmptyString => []
  | String c s' => c :: chars s'
  end.

(** * Properties *)

(** ** Floating point: NaN and the order of the numbers *)

Module FlFacts.

Lemma is_nan_Prim2SF (x : float) :
  is_nan x = true <-> Prim2SF x = S754_nan.
Proof.
  unfold is_nan. rewrite FloatAxioms.eqb_spec.
  unfold SFeqb. destruct (Prim2SF x) as [s|s| |s m e]; simpl.
  - split; discriminate.
  - destruct s; simpl; split; discriminate.
  - split; reflexivity.
  - destruct s; rewrite Z.compare_refl; simpl;
      rewrite ?Pos.compare_cont_refl; simpl; split; discriminate.
Qed.

Lemma is_nan_false_Prim2SF (x : float) :
  is_nan x = false <-> Prim2SF x <> S754_nan.
Proof.
  rewrite <- is_nan_Prim2SF. destruct (is_nan x); split; congruence.
Qed.

Lemma div_nan_l (x y : float) :
  is_nan x = true -> is_nan (x / y) = true.
Proof.
  rewrite !is_nan_Prim2SF, div_spec. intros ->. reflexivity.
Qed.

Lemma div_nan_r (x y : float) :
  is_nan y = true -> is_nan (x / y) = true.
Proof.
  rewrite !is_nan_Prim2SF, div_spec. intros ->.
  destruct (Prim2SF x); reflexivity.
Qed.

Lemma ltb_nan_l (x y : float) :
  is_nan x = true -> (x <? y)%float = false.
Proof.
  rewrite is_nan_Prim2SF, ltb_spec. intros ->. reflexivity.
Qed.

Lemma leb_nan_l (x y : float) :
  is_nan x = true -> (x <=? y)%float = false.
Proof.
  rewrite is_nan_Prim2SF, leb_spec. intros ->. reflexivity.
Qed.

(** A quotient that compares below a bound has a numerator that is a
    number. *)
Lemma ltb_div_not_nan (x e c : float) :
  (x / e <? c)%float = true -> is_nan x = false.
Proof.
  intros H. destruct (is_nan x) eqn:E; [|reflexivity].
  rewrite (ltb_nan_l _ _ (div_nan_l x e E)) in H. discriminate.
Qed.

Lemma ltb_div_not_nan_r (x e c : float) :
  (x / e <? c)%float = true -> is_nan e = false.
Proof.
  intros H. destruct (is_nan e) eqn:E; [|reflexivity].
  rewrite (ltb_nan_l _ _ (div_nan_r x e E)) in H. discriminate.
Qed.

(** Comparison of the specification floats is a total preorder away from
    NaN. *)
Lemma SFcompare_swap (x y : spec_float) :
  SFcompare y x = option_map CompOpp (SFcompare x y).
Proof.
  destruct x as [sx|sx| |sx mx ex], y as [sy|sy| |sy my ey]; simpl;
    try reflexivity;
    try (destruct sx; reflexivity); try (destruct sy; reflexivity);
    try (destruct sx, sy; reflexivity).
  change (PosDef.Pos.compare_cont Eq my mx) with (Pos.compare my mx).
  change (PosDef.Pos.compare_cont Eq mx my) with (Pos.compare mx my).
  rewrite (Z.compare_antisym ex ey), (Pos.compare_antisym mx my).
  destruct sx, sy; simpl; try reflexivity;
    destruct (ex ?= ey)%Z; simpl; try reflexivity;
    destruct (mx ?= my)%positive; reflexivity.
Qed.

Lemma SFleb_trans (x y z : spec_float) :
  SFleb x y = true -> SFleb y z = true -> SFleb x z = true.
Proof.
  unfold SFleb.
  destruct x as [sx|sx| |sx mx ex], y as [sy|sy| |sy my ey],
           z as [sz|sz| |sz mz ez]; simpl;
    try discriminate; try reflexivity;
    try (destruct sx, sy, sz; simpl; (discriminate || reflexivity || idtac));
    try (destruct sx, sy; simpl; (discriminate || reflexivity || idtac));
    try (destruct sy, sz; simpl; (discriminate || reflexivity || idtac));
    try (destruct sx, sz; simpl; (discriminate || reflexivity || idtac)).
  all: change (PosDef.Pos.compare_cont Eq) with Pos.compare.
  all: destruct (Z.compare_spec ex ey), (Z.compare_spec ey ez),
         (Z.compare_spec ex ez); try lia; simpl;
         try discriminate; try reflexivity; subst.
  all: destruct (Pos.compare_spec mx my), (Pos.compare_spec my mz),
         (Pos.compare_spec mx mz); try lia; simpl;
         try discriminate; try reflexivity.
Qed.

Lemma leb_trans (x y z : float) :
  (x <=? y)%float = true -> (y <=? z)%float = true -> (x <=? z)%float = true.
Proof. rewrite !leb_spec. apply SFleb_trans. Qed.

Lemma ltb_leb (x y : float) :
  (x <? y)%float = true -> (x <=? y)%float = true.
Proof.
  rewrite ltb_spec, leb_spec. unfold SFltb, SFleb.
  destruct (SFcompare _ _) as [[]|]; congruence.
Qed.

Lemma not_ltb_leb (x y : float) :
  is_nan x = false -> is_nan y = false ->
  (y <? x)%float = false -> (x <=? y)%float = true.
Proof.
  rewrite !is_nan_false_Prim2SF, ltb_spec, leb_spec.
  unfold SFltb, SFleb. rewrite (SFcompare_swap (Prim2SF x) (Prim2SF y)).
  destruct (Prim2SF x) as [sx|sx| |sx mx ex], (Prim2SF y) as [sy|sy| |sy my ey];
    try congruence; intros _ _; simpl;
    try reflexivity;
    try (destruct sx; simpl; congruence);
    try (destruct sy; simpl; congruence);
    try (destruct sx, sy; simpl; congruence).
  destruct sx, sy; simpl; try congruence;
    destruct (ex ?= ey)%Z; simpl; try congruence;
    destruct (PosDef.Pos.compare_cont Eq mx my); simpl; congruence.
Qed.

End FlFacts.

(** ** Arrays *)

Section ArrayFacts.

Context {A B C : Type}.

Lemma take_Some_nth (d : A) (l : list A) (idx : list nat) :
  Forall (fun i => (i < length l)%nat) idx ->
  Np.take l idx = Some (map (fun i => nth i l d) idx).
Proof.
  induction 1 as [|i idx Hi _ IH]; simpl; [reflexivity|].
  rewrite IH. destruct (l !! i) as [x|] eqn:E.
  - rewrite (nth_lookup_Some _ _ d _ E). reflexivity.
  - apply lookup_ge_None in E. lia.
Qed.

Lemma take_Some_length (l l' : list A) (idx : list nat) :
  Np.take l idx = Some l' -> length l' = length idx.
Proof.
  revert l'. induction idx as [|i idx IH]; simpl; intros l' H.
  - injection H as <-. reflexivity.
  - destruct (l !! i); [|discriminate].
    destruct (Np.take l idx); [|discriminate].
    injection H as <-. simpl. f_equal. apply IH. reflexivity.
Qed.

Lemma take_map (f : A -> B) (l : list A) (idx : list nat) :
  Np.take (map f l) idx = map f <$> Np.take l idx.
Proof.
  induction idx as [|i idx IH]; simpl; [reflexivity|].
  rewrite IH, list_lookup_fmap.
  destruct (l !! i); simpl; [|reflexivity].
  destruct (Np.take l idx); reflexivity.
Qed.

Lemma map_nth_seq (d : A) (l : list A) :
  map (fun i => nth i l d) (seq 0 (length l)) = l.
Proof.
  induction l as [|x l IH]; simpl; [reflexivity|].
  f_equal. rewrite <- seq_shift, map_map. exact IH.
Qed.

Lemma take_arange_down (l : list A) :
  Np.take l (Np.arange_down (length l)) = Some (rev l).
Proof.
  destruct l as [|x l]; [reflexivity|].
  rewrite (take_Some_nth x).
  - unfold Np.arange_down. rewrite map_rev, map_nth_seq. reflexivity.
  - unfold Np.arange_down. apply Forall_forall. intros i Hi.
    apply in_rev, in_seq in Hi. lia.
Qed.

Lemma take_perm_total (l : list A) (idx : list nat) :
  Permutation idx (seq 0 (length l)) ->
  exists l', Np.take l idx = Some l' /\ Permutation l' l.
Proof.
  intros HP. destruct l as [|x l].
  - apply Permutation_sym, Permutation_nil in HP. subst.
    exists []. split; reflexivity.
  - exists (map (fun i => nth i (x :: l) x) idx). split.
    + apply take_Some_nth. apply Forall_forall. intros i Hi.
      apply (Permutation_in _ HP), in_seq in Hi. lia.
    + etransitivity; [apply Permutation_map, HP|].
      rewrite map_nth_seq. reflexivity.
Qed.

Lemma bmask_map_filter (f : A -> B) (p : A -> bool) (l : list A) :
  Np.bmask (map f l) (map p l) = Some (map f (List.filter p l)).
Proof.
  induction l as [|x l IH]; simpl; [reflexivity|].
  rewrite IH. destruct (p x); reflexivity.
Qed.

Lemma zip_with_map_diag {D} (f : B -> C -> D) (g : A -> B) (h : A -> C)
      (l : list A) :
  zip_with f (map g l) (map h l) = map (fun x => f (g x) (h x)) l.
Proof.
  induction l as [|x l IH]; simpl; [reflexivity|]. f_equal. exact IH.
Qed.

Lemma zip_with_map_self (f : A -> B -> C) (g : A -> B) (l : list A) :
  zip_with f l (map g l) = map (fun x => f x (g x)) l.
Proof.
  induction l as [|x l IH]; simpl; [reflexivity|]. f_equal. exact IH.
Qed.

Lemma count_nonzero_map (p : A -> bool) (l : list A) :
  Np.count_nonzero (map p l) = length (List.filter p l).
Proof.
  unfold Np.count_nonzero.
  induction l as [|x l IH]; simpl; [reflexivity|].
  destruct (p x); simpl; rewrite IH; reflexivity.
Qed.

End ArrayFacts.

(** Arrays built elementwise from one list, as one map over it. *)
Ltac norm_columns :=
  unfold arr_and, arr_ltc, arr_nec, arr_div;
  repeat (rewrite ?map_map, ?zip_with_map_self, ?zip_with_map_diag).

(** ** The monad of a step *)

Lemma bind_Ok {A B} (m : M A) (k : A -> M B) (w w1 : World) (a : A) :
  m w = Ok a w1 -> (m ≫= k) w = k a w1.
Proof. intros H. unfold mbind, M_bind. rewrite H. reflexivity. Qed.

Lemma bind_ex {A} (m : M A) (k : A -> M unit) (w w1 : World) (a : A)
      (P : World -> Prop) :
  m w = Ok a w1 ->
  (exists w' : World, k a w1 = Ok tt w' /\ P w') ->
  exists w' : World, (m ≫= k) w = Ok tt w' /\ P w'.
Proof.
  intros H (w' & E & HP). exists w'. split; [|exact HP].
  rewrite (bind_Ok _ _ _ _ _ H). exact E.
Qed.

Lemma or_raise_Some {A} (e : Exn) (o : option A) (a : A) (w : World) :
  o = Some a -> or_raise e o w = Ok a w.
Proof. intros ->. reflexivity. Qed.

Lemma lift_sum_inr {A} (r : Exn + A) (a : A) (w : World) :
  r = inr a -> lift_sum r w = Ok a w.
Proof. intros ->. reflexivity. Qed.

Section Evolves.

Variables (w0 w1 : World) (r : nat) (d : PipeData) (evs : list Event)
          (o : option nat).
Hypothesis H : evolves w0 w1 r d evs o.

Lemma evolves_refl (w : World) (r0 : nat) :
  evolves w w r0 (heap w r0) [] (dataout w).
Proof.
  repeat split. symmetry. apply app_nil_r.
Qed.

Lemma emit_step (ev : Event) :
  exists w2 : World,
    emit ev w1 = Ok tt w2 /\ evolves w0 w2 r d (evs ++ [ev]) o.
Proof.
  destruct H as (Hd & Hf & Ho & Ht).
  eexists. split; [reflexivity|]. repeat split; simpl; try assumption.
  rewrite Ht, app_assoc. reflexivity.
Qed.

Lemma emit_if_step (b : bool) (ev : Event) :
  exists w2 : World,
    (if b then emit ev else mret tt) w1 = Ok tt w2 /\
    evolves w0 w2 r d (evs ++ (if b then [ev] else [])) o.
Proof.
  destruct b; [apply emit_step|].
  exists w1. split; [reflexivity|]. rewrite app_nil_r. exact H.
Qed.

Lemma emit_unless_step (b : bool) (ev : Event) :
  exists w2 : World,
    (if b then mret tt else emit ev) w1 = Ok tt w2 /\
    evolves w0 w2 r d (evs ++ (if b then [] else [ev])) o.
Proof.
  destruct b; [|apply emit_step].
  exists w1. split; [reflexivity|]. rewrite app_nil_r. exact H.
Qed.

Lemma update_step (f : PipeData -> PipeData) :
  exists w2 : World,
    update r f w1 = Ok tt w2 /\ evolves w0 w2 r (f d) evs o.
Proof.
  destruct H as (Hd & Hf & Ho & Ht).
  eexists. split; [reflexivity|]. repeat split; simpl; try assumption.
  - rewrite fn_lookup_insert, Hd. reflexivity.
  - intros r' Hr. rewrite fn_lookup_insert_ne by congruence. apply Hf, Hr.
Qed.

Lemma set_dataout_step :
  exists w2 : World,
    set_dataout r w1 = Ok tt w2 /\ evolves w0 w2 r d evs (Some r).
Proof.
  destruct H as (Hd & Hf & Ho & Ht).
  eexists. split; [reflexivity|]. repeat split; simpl; assumption.
Qed.

Lemma get_dataout_step (r' : nat) :
  o = Some r' -> get_dataout w1 = Ok r' w1.
Proof.
  destruct H as (Hd & Hf & Ho & Ht). intros ->.
  unfold get_dataout. rewrite Ho. reflexivity.
Qed.

Lemma deref_step : deref r w1 = Ok d w1.
Proof.
  destruct H as (Hd & Hf & Ho & Ht). unfold deref. rewrite Hd. reflexivity.
Qed.

Lemma getheadval_step (key : string) (v : HVal) (c : string) :
  pd_header d !! key = Some (v, c) -> getheadval r key w1 = Ok v w1.
Proof.
  intros Hk. unfold getheadval. rewrite (bind_Ok _ _ _ _ _ deref_step).
  rewrite Hk. reflexivity.
Qed.

Lemma tableget_step (name : string) (t : list Column) :
  pd_tables d !! name = Some t -> tableget r name w1 = Ok t w1.
Proof.
  intros Hk. unfold tableget. rewrite (bind_Ok _ _ _ _ _ deref_step).
  rewrite Hk. reflexivity.
Qed.

End Evolves.

(** One step of a run: the first action of the program is run in the
    current world, which [Hw] describes. *)
Ltac effect_step Hw lem :=
  let w2 := fresh "w" in
  let E := fresh "E" in
  let H2 := fresh "Hw" in
  destruct lem as (w2 & E & H2);
  eapply bind_ex; [exact E|];
  clear E Hw; rename H2 into Hw.

Ltac step Hw :=
  lazymatch goal with
  | |- ex (fun w' => (?m ≫= _) _ = _ /\ _) =>
      let m' := eval cbv beta delta [log setheadval tableset set_image] in m in
      lazymatch m' with
      | emit ?ev =>
          effect_step Hw (emit_step _ _ _ _ _ _ Hw ev)
      | (if ?b then emit ?ev else mret tt) =>
          effect_step Hw (emit_if_step _ _ _ _ _ _ Hw b ev)
      | (if ?b then mret tt else emit ?ev) =>
          effect_step Hw (emit_unless_step _ _ _ _ _ _ Hw b ev)
      | update _ ?f =>
          effect_step Hw (update_step _ _ _ _ _ _ Hw f);
          cbn [pd_header pd_image pd_tables pd_filename pd_filenamebegin]
            in Hw
      | set_dataout _ =>
          effect_step Hw (set_dataout_step _ _ _ _ _ _ Hw)
      | get_dataout =>
          eapply bind_ex; [eapply (get_dataout_step _ _ _ _ _ _ Hw); reflexivity|]
      | deref _ =>
          eapply bind_ex; [exact (deref_step _ _ _ _ _ _ Hw)|]
      end
  end.

Ltac pure_step tac := eapply bind_ex; [tac|].

(** ** The source extraction step: what [run] leaves *)

Section SrcExtRun.

Import StepSrcExtPy SrcExtRows.

Variable lib : Sep.
Variable args : Args.
Variable datain : nat.

Lemma sort_desc_columns {X Y} (key : X -> float) (l l' : list X)
      (G : X -> Y) (w : World) :
  sort_desc lib key l = Some l' ->
  take_along_axis (map G l) (rev (argsort lib (map key l))) w
  = Ok (map G l') w.
Proof.
  intros H. apply or_raise_Some. rewrite take_map.
  unfold sort_desc in H. rewrite H. reflexivity.
Qed.

Lemma sort_desc_self {X} (key : X -> float) (l l' : list X) (w : World) :
  sort_desc lib key l = Some l' ->
  take_along_axis l (rev (argsort lib (map key l))) w = Ok l' w.
Proof. intros H. apply or_raise_Some. exact H. Qed.

Lemma sort_desc_map {X Y} (key : Y -> float) (f : X -> Y) (l : list X)
      (r : list Y) :
  sort_desc lib key (map f l) = Some r ->
  exists l' : list X,
    sort_desc lib (fun x => key (f x)) l = Some l' /\ r = map f l'.
Proof.
  unfold sort_desc. rewrite map_map, take_map.
  destruct (Np.take l _) as [l'|]; [|discriminate].
  intros [= <-]. exists l'. split; reflexivity.
Qed.

Lemma index_mask_map {X Y} (G : X -> Y) (P : X -> bool) (l : list X)
      (w : World) :
  index_mask (map G l) (map P l) w = Ok (map G (List.filter P l)) w.
Proof. apply or_raise_Some, bmask_map_filter. Qed.

Lemma filter_map_swap {X Y} (p : Y -> bool) (f : X -> Y) (l : list X) :
  List.filter p (map f l) = map f (List.filter (fun x => p (f x)) l).
Proof.
  induction l as [|x l IH]; simpl; [reflexivity|].
  destruct (p (f x)); simpl; rewrite IH; reflexivity.
Qed.

Lemma srcext_run_spec (w : World) (v : HVal) (c : string)
      (rows rowsb : list Measured) :
  pd_header (heap w datain) !! "XBIN" = Some (v, c) ->
  select lib args (pd_image (heap w datain))
         (low_sources lib args (pd_image (heap w datain))) = Some rows ->
  select lib args (pd_image (heap w datain))
         (high_sources lib args (pd_image (heap w datain))) = Some rowsb ->
  exists w' : World,
    run lib args datain w = Ok tt w' /\
    evolves w w' datain (result args (heap w datain) rows rowsb)
            (effects args (heap w datain) rows rowsb) (Some datain).
Proof.
  intros HX Hlow Hhigh.
  unfold select in Hlow, Hhigh.
  destruct (sort_desc lib src_flux (low_sources _ _ _)) as [objects|] eqn:Ho;
    [|discriminate].
  destruct (sort_desc lib src_flux (high_sources _ _ _)) as [objectsb|] eqn:Hob;
    [|discriminate].
  simpl in Hlow, Hhigh.
  destruct (sort_desc lib (m_flux) (map _ objects)) as [all|] eqn:Hall;
    [|discriminate].
  destruct (sort_desc lib (m_flux) (map _ objectsb)) as [allb|] eqn:Hallb;
    [|discriminate].
  simpl in Hlow, Hhigh.
  injection Hlow as <-. injection Hhigh as <-.
  apply sort_desc_map in Hall as (objs & Hs & ->).
  apply sort_desc_map in Hallb as (objsb & Hsb & ->).
  rewrite !filter_map_swap.
  pose proof (evolves_refl w datain) as Hw.
  unfold run, run_on.
  pure_step ltac:(eapply (getheadval_step _ _ _ _ _ _ Hw); eassumption).
  step Hw.
  cbv beta zeta.
  pure_step ltac:(apply or_raise_Some, take_arange_down).
  pure_step ltac:(apply or_raise_Some; exact Ho).
  pure_step ltac:(apply or_raise_Some, take_arange_down).
  pure_step ltac:(apply or_raise_Some; exact Hob).
  pure_step ltac:(apply or_raise_Some, take_arange_down).
  norm_columns.
  pure_step ltac:(eapply sort_desc_columns; exact Hsb).
  pure_step ltac:(eapply sort_desc_columns; exact Hsb).
  pure_step ltac:(eapply sort_desc_self; exact Hsb).
  pure_step ltac:(eapply sort_desc_columns; exact Hsb).
  pure_step ltac:(apply or_raise_Some, take_arange_down).
  pure_step ltac:(eapply sort_desc_columns; exact Hs).
  pure_step ltac:(eapply sort_desc_columns; exact Hs).
  pure_step ltac:(eapply sort_desc_self; exact Hs).
  pure_step ltac:(eapply sort_desc_columns; exact Hs).
  norm_columns.
  rewrite !count_nonzero_map.
  step Hw. step Hw.
  do 12 pure_step ltac:(apply index_mask_map).
  norm_columns.
  rewrite !length_map.
  do 15 step Hw.
  unfold effects, result, table_of.
  norm_columns. rewrite !length_map.
  destruct (sourcetable args).
  - do 6 step Hw.
    pure_step ltac:(eapply (tableget_step _ _ _ _ _ _ Hw);
                    cbn [pd_tables];
                    rewrite lookup_insert_ne by discriminate;
                    apply lookup_insert_eq).
    step Hw.
    destruct (emit_step _ _ _ _ _ _ Hw
                (EvLog "debug" "Saved sources table under %s"
                   [HStr (pd_filenamebegin (heap w datain)
                          +:+ "FALsources.txt")]))
      as (wn & E & Hwn).
    exists wn. split; [exact E|exact Hwn].
  - eexists. split; [reflexivity|]. exact Hw.
Qed.

End SrcExtRun.

(** ** The order [np.argsort] sorts in, and the stable argsort *)

Section Ascending.

Import SrcExtRows.

Lemma ascending_trans (x y z : float) :
  ascending x y -> ascending y z -> ascending x z.
Proof.
  unfold ascending. intros Hxy [Hyz|Hz]; [|right; exact Hz].
  left. destruct Hxy as [Hxy|Hy].
  - exact (FlFacts.leb_trans _ _ _ Hxy Hyz).
  - rewrite (FlFacts.leb_nan_l _ _ Hy) in Hyz. discriminate.
Qed.

Lemma np_lt_ascending (x y : float) :
  Toy.np_lt x y = true -> ascending x y.
Proof.
  unfold Toy.np_lt, ascending. intros H.
  apply orb_true_iff in H as [H|H].
  - left. apply FlFacts.ltb_leb, H.
  - right. apply andb_true_iff in H as [H _]. exact H.
Qed.

Lemma not_np_lt_ascending (x y : float) :
  Toy.np_lt y x = false -> ascending x y.
Proof.
  unfold Toy.np_lt, ascending. intros H.
  apply orb_false_iff in H as [H1 H2].
  destruct (is_nan y) eqn:Ey; [right; reflexivity|left].
  destruct (is_nan x) eqn:Ex; [discriminate|].
  apply FlFacts.not_ltb_leb; assumption.
Qed.

Lemma insert_idx_perm (v : list float) (i : nat) (l : list nat) :
  Permutation (Toy.insert_idx v i l) (i :: l).
Proof.
  induction l as [|j l IH]; simpl; [reflexivity|].
  destruct (Toy.np_lt _ _); [|reflexivity].
  rewrite IH. apply perm_swap.
Qed.

Lemma insert_idx_sorted (v : list float) (i : nat) (l : list nat) :
  StronglySorted ascending (map (fun k => nth k v Fl.nan) l) ->
  StronglySorted ascending
    (map (fun k => nth k v Fl.nan) (Toy.insert_idx v i l)).
Proof.
  induction l as [|j l IH]; simpl; intros HS.
  - repeat constructor.
  - apply StronglySorted_inv in HS as [HS HF].
    destruct (Toy.np_lt _ _) eqn:E; simpl.
    + constructor; [apply IH, HS|].
      rewrite (insert_idx_perm v i l). simpl. constructor; [|exact HF].
      apply np_lt_ascending, E.
    + pose proof (not_np_lt_ascending _ _ E) as Hij.
      constructor; [constructor; assumption|].
      constructor; [exact Hij|].
      eapply Forall_impl; [|exact HF].
      intros z Hz. exact (ascending_trans _ _ _ Hij Hz).
Qed.

Lemma argsort_stable_ok : argsort_ok Toy.argsort_stable.
Proof.
  intros v. unfold Toy.argsort_stable.
  generalize (seq 0 (length v)) as s.
  induction s as [|i s [IHp IHs]]; simpl.
  - split; constructor.
  - split.
    + rewrite insert_idx_perm. constructor. exact IHp.
    + apply insert_idx_sorted, IHs.
Qed.

End Ascending.

(** ** Sorted lists *)

Section SortedFacts.

Context {A B : Type}.

Lemma StronglySorted_snoc (R : A -> A -> Prop) (l : list A) (x : A) :
  StronglySorted R l -> Forall (fun y => R y x) l ->
  StronglySorted R (l ++ [x]).
Proof.
  induction 1 as [|y l HS IH HF]; simpl; intros Hx.
  - repeat constructor.
  - apply Forall_cons_iff in Hx as [Hy Hx].
    constructor; [apply IH, Hx|].
    apply Forall_app. split; [exact HF|]. repeat constructor. exact Hy.
Qed.

Lemma StronglySorted_rev (R : A -> A -> Prop) (l : list A) :
  StronglySorted R l -> StronglySorted (fun x y => R y x) (rev l).
Proof.
  induction 1 as [|x l HS IH HF]; simpl; [constructor|].
  apply StronglySorted_snoc; [exact IH|].
  apply Forall_forall. intros y Hy. apply in_rev in Hy.
  rewrite Forall_forall in HF. apply HF, Hy.
Qed.

Lemma StronglySorted_map (R : B -> B -> Prop) (f : A -> B) (l : list A) :
  StronglySorted R (map f l) <->
  StronglySorted (fun x y => R (f x) (f y)) l.
Proof.
  induction l as [|x l IH]; simpl.
  - split; constructor.
  - split; intros H; apply StronglySorted_inv in H as [HS HF];
      constructor; try (apply IH, HS).
    + rewrite Forall_forall in *. intros y Hy. apply HF, in_map, Hy.
    + rewrite Forall_forall in *. intros y Hy.
      apply in_map_iff in Hy as (z & <- & Hz). apply HF, Hz.
Qed.

Lemma StronglySorted_filter (R : A -> A -> Prop) (p : A -> bool)
      (l : list A) :
  StronglySorted R l -> StronglySorted R (List.filter p l).
Proof.
  induction 1 as [|x l HS IH HF]; simpl; [constructor|].
  destruct (p x); [|exact IH].
  constructor; [exact IH|].
  rewrite Forall_forall in *. intros y Hy.
  apply filter_In in Hy as [Hy _]. apply HF, Hy.
Qed.

Lemma take_Some_inv (d : A) (l l' : list A) (idx : list nat) :
  Np.take l idx = Some l' ->
  Forall (fun i => (i < length l)%nat) idx /\
  l' = map (fun i => nth i l d) idx.
Proof.
  revert l'. induction idx as [|i idx IH]; simpl; intros l' H.
  - injection H as <-. split; constructor.
  - destruct (l !! i) as [x|] eqn:E; [|discriminate].
    destruct (Np.take l idx) as [xs|]; [|discriminate].
    injection H as <-. destruct (IH xs eq_refl) as [HF ->].
    split.
    + constructor; [|exact HF]. apply lookup_lt_Some in E. exact E.
    + rewrite (nth_lookup_Some _ _ d _ E). reflexivity.
Qed.

End SortedFacts.

(** ** The source extraction step: sorting and selection *)

Section SrcExtSelect.

Import StepSrcExtPy SrcExtRows.

Variable lib : Sep.
Hypothesis Hsort : argsort_ok (argsort lib).

(** Sorting by a key returns the list rearranged, no element below a later
    one (NaN keys first). *)
Lemma sort_desc_ok {X} (key : X -> float) (l : list X) :
  exists l' : list X,
    sort_desc lib key l = Some l' /\
    Permutation l' l /\
    StronglySorted (fun u v => ascending (key v) (key u)) l'.
Proof.
  destruct (Hsort (map key l)) as [HP HS].
  rewrite length_map in HP.
  assert (HPr : Permutation (rev (argsort lib (map key l)))
                            (seq 0 (length l))).
  { rewrite <- HP. symmetry. apply Permutation_rev. }
  destruct (take_perm_total l _ HPr) as (l' & E & Hl').
  exists l'. split; [exact E|]. split; [exact Hl'|].
  destruct l as [|x0 l0];
    [apply Permutation_sym, Permutation_nil in Hl'; subst; constructor|].
  set (l := x0 :: l0) in *.
  destruct (take_Some_inv x0 _ _ _ E) as [HF ->].
  apply StronglySorted_map.
  apply (StronglySorted_rev ascending) in HS.
  rewrite <- map_rev in HS. apply StronglySorted_map in HS.
  rewrite Forall_forall in HF.
  clear E Hl' HPr HP.
  induction HS as [|i idx HS' IH HFi]; [constructor|].
  constructor.
  - apply IH. intros j Hj. apply HF. right. exact Hj.
  - rewrite Forall_forall in *. intros j Hj.
    specialize (HFi j Hj). cbv beta in HFi.
    rewrite (nth_indep (map key l) Fl.nan (key x0)) in HFi
      by (rewrite length_map; apply HF; right; exact Hj).
    rewrite (nth_indep (map key l) Fl.nan (key x0)) in HFi
      by (rewrite length_map; apply HF; left; reflexivity).
    rewrite !map_nth in HFi. exact HFi.
Qed.

Section WithImage.

Variable args : Args.
Variable img : Image.

Lemma accepted_flux_number (m : Measured) :
  accepted m = true -> is_nan (m_flux m) = false.
Proof.
  unfold accepted. rewrite !andb_true_iff. intros [[[_ H] _] _].
  exact (FlFacts.ltb_div_not_nan _ _ _ H).
Qed.

(** The accepted sources are a selection of the measured sources, in
    descending order of elliptical flux. *)
Lemma select_ok (sources : list Source) :
  exists (rows : list Measured) (objs : list Source),
    select lib args img sources = Some rows /\
    Permutation objs sources /\
    rows = List.filter accepted (map (measure lib args img) objs) /\
    StronglySorted (fun u v => (m_flux v <=? m_flux u)%float = true) rows.
Proof.
  destruct (sort_desc_ok src_flux sources) as (objects & E1 & HP1 & _).
  destruct (sort_desc_ok m_flux (map (measure lib args img) objects))
    as (all & E2 & HP2 & HS2).
  destruct (sort_desc_map lib _ _ _ _ E2) as (objs & E3 & ->).
  exists (List.filter accepted (map (measure lib args img) objs)), objs.
  split; [|split; [|split]].
  - unfold select. rewrite E1. simpl. rewrite E2. reflexivity.
  - rewrite <- HP1.
    unfold sort_desc in E3.
    destruct (Hsort (map (fun x => m_flux (measure lib args img x)) objects))
      as [HP _].
    rewrite length_map in HP.
    assert (HPr : Permutation
                    (rev (argsort lib
                            (map (fun x => m_flux (measure lib args img x))
                                 objects)))
                    (seq 0 (length objects))).
    { rewrite <- HP. symmetry. apply Permutation_rev. }
    destruct (take_perm_total objects _ HPr) as (l' & E & Hl').
    rewrite E in E3. injection E3 as <-. exact Hl'.
  - reflexivity.
  - apply (StronglySorted_filter _ accepted) in HS2.
    revert HS2. generalize (map (measure lib args img) objs) as all.
    intros all HS2.
    assert (HN : Forall (fun m => is_nan (m_flux m) = false)
                        (List.filter accepted all)).
    { apply Forall_forall. intros m Hm. apply filter_In in Hm as [_ Hm].
      apply accepted_flux_number, Hm. }
    induction HS2 as [|m rows HS IH HF]; [constructor|].
    apply Forall_cons_iff in HN as [Hm HN].
    constructor; [apply IH, HN|].
    rewrite Forall_forall in *. intros m' Hm'.
    destruct (HF m' Hm') as [H|H]; [exact H|congruence].
Qed.

End WithImage.

End SrcExtSelect.

(** ** The source extraction step: the result of [run] *)

Section SrcExtResult.

Import StepSrcExtPy SrcExtRows.

Variable lib : Sep.
Variable args : Args.
Variable datain : nat.
Variable w : World.

Let img : Image := pd_image (heap w datain).

Lemma result_low (d : PipeData) (rows rowsb : list Measured) :
  pd_tables (result args d rows rowsb) !! "Low Threshold Sources"
  = Some (table_of rows).
Proof.
  simpl. rewrite lookup_insert_ne by discriminate. apply lookup_insert_eq.
Qed.

Lemma result_high (d : PipeData) (rows rowsb : list Measured) :
  pd_tables (result args d rows rowsb) !! "High Threshold Sources"
  = Some (table_of rowsb).
Proof. simpl. apply lookup_insert_eq. Qed.

(** With the binning in the header and an argsort that sorts, the step
    completes and leaves the two tables of the accepted sources. *)
Lemma run_tables (v : HVal) (c : string) :
  pd_header (heap w datain) !! "XBIN" = Some (v, c) ->
  argsort_ok (argsort lib) ->
  exists (w' : World) (rows rowsb : list Measured),
    select lib args img (low_sources lib args img) = Some rows /\
    select lib args img (high_sources lib args img) = Some rowsb /\
    run lib args datain w = Ok tt w' /\
    evolves w w' datain (result args (heap w datain) rows rowsb)
            (effects args (heap w datain) rows rowsb) (Some datain).
Proof.
  intros HX Hsort.
  destruct (select_ok lib Hsort args img (low_sources lib args img))
    as (rows & _ & E1 & _).
  destruct (select_ok lib Hsort args img (high_sources lib args img))
    as (rowsb & _ & E2 & _).
  destruct (srcext_run_spec lib args datain w v c rows rowsb HX E1 E2)
    as (w' & E & Hw).
  exists w', rows, rowsb. auto.
Qed.

End SrcExtResult.


(** ** The flux calibration step: what [run] leaves *)

Section FluxCalRun.

Import StepFluxCalSex FluxCalPairs.

Variable lib : Lib.
Variable args : Args.
Variable datain : nat.

Lemma split_cons (c : ascii) (s : string) :
  exists (h : string) (t : list string), split c s = h :: t.
Proof.
  induction s as [|a s (h & t & IH)]; simpl; [eauto|].
  destruct (Ascii.eqb a c); [eauto|]. rewrite IH. eauto.
Qed.

Lemma split_head (c : ascii) (s : string) :
  split c s !! 0%nat = Some (match split c s with h :: _ => h | [] => EmptyString end).
Proof. destruct (split_cons c s) as (h & t & ->). reflexivity. Qed.

Lemma pair_all_columns (stars : list SexRow)
      (ems : list (Entry * (nat * float))) (pairs : list Pair) :
  pair_all stars ems = Some pairs ->
  map p_entry pairs = map fst ems /\
  map p_sep pairs = map (fun em => snd (snd em)) ems /\
  Np.take stars (map (fun em => fst (snd em)) ems) = Some (map p_star pairs).
Proof.
  revert pairs. induction ems as [|em ems IH]; simpl; intros pairs H.
  - injection H as <-. repeat split.
  - unfold pair_up in H.
    destruct (stars !! (em.2).1) as [s|] eqn:E; [|discriminate].
    destruct (pair_all stars ems) as [ps|]; [|discriminate].
    injection H as <-. destruct (IH ps eq_refl) as (H1 & H2 & H3).
    simpl. rewrite H1, H2, H3. repeat split.
Qed.

Lemma pairs_of_columns (entries : list Entry) (stars : list SexRow)
      (matched : list (nat * float)) (pairs : list Pair) :
  pairs_of entries stars matched = Some pairs ->
  map p_entry pairs = entries /\
  map p_sep pairs = map snd matched /\
  Np.take stars (map fst matched) = Some (map p_star pairs).
Proof.
  unfold pairs_of. destruct (Nat.eqb_spec (length entries) (length matched))
    as [HL|]; [|discriminate].
  intros H. destruct (pair_all_columns _ _ _ H) as (H1 & H2 & H3).
  assert (Hfst : map fst (zip entries matched) = entries)
    by (apply fst_zip; lia).
  assert (Hsnd : map snd (zip entries matched) = matched)
    by (apply snd_zip; lia).
  assert (Hd : map (fun em : Entry * (nat * float) => snd (snd em))
                  (zip entries matched) = map snd matched)
    by (rewrite <- (map_map snd snd), Hsnd; reflexivity).
  assert (Hi : map (fun em : Entry * (nat * float) => fst (snd em))
                  (zip entries matched) = map fst matched)
    by (rewrite <- (map_map snd fst), Hsnd; reflexivity).
  rewrite H1, H2, <- H3, Hfst, Hd, Hi. repeat split.
Qed.

Lemma fluxcal_run_spec (w : World) (i : Inputs) :
  ready lib (heap w datain) i ->
  exists w' : World,
    run lib args datain w = Ok tt w' /\
    evolves w w' datain (result lib args (heap w datain) i)
            (effects lib args datain (heap w datain) i) (Some datain).
Proof.
  intros ((v & c & HX & Hb) & Hlast & Htab & (cra & HRA) & (cdec & HDEC)
          & Hsky & Hget & (cf & HF) & Hascii & Hra & Hdec & Hmag & Hmagerr
          & Hmatch & Hpairs).
  destruct (pairs_of_columns _ _ _ _ Hpairs) as (H1 & H2 & H3).
  pose proof (evolves_refl w datain) as Hw.
  unfold run, run_on.
  pure_step ltac:(eapply (getheadval_step _ _ _ _ _ _ Hw); eassumption).
  step Hw. step Hw. step Hw.
  pure_step ltac:(apply or_raise_Some; exact Hlast).
  cbv beta zeta.
  step Hw. step Hw. step Hw. step Hw. step Hw.
  pure_step ltac:(apply lift_sum_inr; exact Htab).
  norm_columns. rewrite !count_nonzero_map.
  step Hw. step Hw.
  pure_step ltac:(eapply (getheadval_step _ _ _ _ _ _ Hw); eassumption).
  pure_step ltac:(reflexivity).
  pure_step ltac:(eapply (getheadval_step _ _ _ _ _ _ Hw); eassumption).
  pure_step ltac:(reflexivity).
  pure_step ltac:(apply lift_sum_inr; exact Hsky).
  step Hw. step Hw. step Hw.
  pure_step ltac:(apply lift_sum_inr; exact Hget).
  pure_step ltac:(eapply (getheadval_step _ _ _ _ _ _ Hw); eassumption).
  pure_step ltac:(reflexivity).
  pure_step ltac:(apply or_raise_Some, split_head).
  pure_step ltac:(apply lift_sum_inr; exact Hascii).
  pure_step ltac:(apply or_raise_Some; exact Hra).
  pure_step ltac:(apply or_raise_Some; exact Hmag).
  norm_columns.
  pure_step ltac:(apply index_mask_map).
  pure_step ltac:(apply or_raise_Some; exact Hdec).
  pure_step ltac:(apply or_raise_Some; exact Hmag).
  norm_columns.
  pure_step ltac:(apply index_mask_map).
  pure_step ltac:(apply or_raise_Some; exact Hmag).
  pure_step ltac:(apply or_raise_Some; exact Hmag).
  norm_columns.
  pure_step ltac:(apply index_mask_map).
  pure_step ltac:(apply or_raise_Some; exact Hmagerr).
  pure_step ltac:(apply or_raise_Some; exact Hmag).
  norm_columns.
  pure_step ltac:(apply index_mask_map).
  rewrite !length_map.
  step Hw.
  pure_step ltac:(apply index_mask_map).
  norm_columns.
  pure_step ltac:(apply lift_sum_inr; exact Hmatch).
  pure_step ltac:(apply or_raise_Some; exact Hb).
  step Hw.
  change (List.filter _ (in_rows i))
    with (List.filter is_usable (in_rows i)).
  change (List.filter _ (in_seo i)) with (List.filter is_star (in_seo i)).
  rewrite <- H1, <- H2. norm_columns.
  pure_step ltac:(apply index_mask_map).
  pure_step ltac:(apply index_mask_map).
  pure_step ltac:(apply or_raise_Some; rewrite take_map;
                  change (List.filter _ (in_seo i))
                    with (List.filter is_star (in_seo i));
                  rewrite H3; reflexivity).
  norm_columns.
  pure_step ltac:(apply index_mask_map).
  pure_step ltac:(apply index_mask_map).
  pure_step ltac:(apply index_mask_map).
  pure_step ltac:(apply or_raise_Some; rewrite take_map;
                  change (List.filter _ (in_seo i))
                    with (List.filter is_star (in_seo i));
                  rewrite H3; reflexivity).
  norm_columns.
  pure_step ltac:(apply index_mask_map).
  norm_columns.
  step Hw. step Hw.
  do 10 step Hw.
  match goal with
  | |- ex (fun w' => set_image _ ?img _ = _ /\ _) =>
      destruct (update_step _ _ _ _ _ _ Hw
                  (fun d => mkPipeData (pd_header d) img (pd_tables d)
                                       (pd_filename d) (pd_filenamebegin d)))
        as (wn & E & Hwn)
  end.
  exists wn. split; [exact E|].
  cbn [pd_header pd_image pd_tables pd_filename pd_filenamebegin] in Hwn.
  unfold effects, result, fit_x, fit_data, fit_errors, retained.
  destruct (path_exists lib _), (verbose args), (delete_cat args);
    exact Hwn.
Qed.

End FluxCalRun.

(** The inputs of an example are ready: every condition is evaluated. *)
Ltac prove_ready :=
  unfold FluxCalPairs.ready;
  repeat match goal with
         | |- _ /\ _ => split
         | |- exists _, _ => eexists
         end; vm_compute; reflexivity.

(** * The claims of the specification *)

(** ** Flux calibration *)

Section FluxCalClaims.

Import StepFluxCalSex FluxCalPairs.

Lemma result_photzp (lib : Lib) (args : Args) (d : PipeData) (i : Inputs) :
  pd_header (result lib args d i) !! "PHOTZP"
  = Some (HFloat (- snd (fit lib i)),
          "Photometric zeropoint MAG=-2.5*log(data)+PHOTZP").
Proof.
  simpl. rewrite lookup_insert_ne by discriminate. apply lookup_insert_eq.
Qed.

Lemma minimize_in_effects (lib : Lib) (args : Args) (datain : nat)
      (d : PipeData) (i : Inputs) :
  In (EvMinimize (1, -2)%float (fit_x i) (fit_data lib i) (fit_errors lib i))
     (effects lib args datain d i).
Proof.
  unfold effects. rewrite !in_app_iff. do 5 right. simpl. tauto.
Qed.

(** C1, as the code has it: the run makes no check of the number of
    retained pairs.  With fewer than two of them (also with none) it calls
    the minimiser on them from the guess (1, -2) all the same, completes,
    and writes the zero point of what the minimiser returns; it reports no
    failure. *)
Theorem C1_few_pairs_are_fitted (lib : Lib) (args : Args) (datain : nat)
        (w : World) (i : Inputs) :
  ready lib (heap w datain) i ->
  (length (retained (in_binning i) (in_pairs i)) < 2)%nat ->
  exists w' : World,
    run lib args datain w = Ok tt w' /\
    In (EvMinimize (1, -2)%float (fit_x i) (fit_data lib i)
                   (fit_errors lib i)) (trace w') /\
    (length (fit_x i) < 2)%nat /\
    pd_header (heap w' datain) !! "PHOTZP"
    = Some (HFloat (- snd (fit lib i)),
            "Photometric zeropoint MAG=-2.5*log(data)+PHOTZP").
Proof.
  intros Hr Hn.
  destruct (fluxcal_run_spec lib args datain w i Hr)
    as (w' & E & Hh & _ & _ & Ht).
  exists w'. split; [exact E|]. split; [|split].
  - rewrite Ht. apply in_or_app. right. apply minimize_in_effects.
  - unfold fit_x. rewrite length_map. exact Hn.
  - rewrite Hh. apply result_photzp.
Qed.

Lemma C1_few_pairs_are_fitted_witness :
  exists w' : World,
    run ToyCal.lib1 setup 0 ToyCal.world0 = Ok tt w' /\
    In (EvMinimize (1, -2)%float (fit_x ToyCal.inputs1)
                   (fit_data ToyCal.lib1 ToyCal.inputs1)
                   (fit_errors ToyCal.lib1 ToyCal.inputs1))
       (trace w') /\
    (length (fit_x ToyCal.inputs1) < 2)%nat /\
    pd_header (heap w' 0%nat) !! "PHOTZP"
    = Some (HFloat (- snd (fit ToyCal.lib1 ToyCal.inputs1)),
            "Photometric zeropoint MAG=-2.5*log(data)+PHOTZP").
Proof.
  apply (C1_few_pairs_are_fitted ToyCal.lib1 setup 0 ToyCal.world0
                                 ToyCal.inputs1).
  - prove_ready.
  - vm_compute. lia.
Defined.

(** C1 as the specification states it fails: the catalog query yields one
    usable entry, one pair is retained, and the run completes with the
    minimiser called on that pair and a zero point in the header, where
    the claim wants a failure reported and no fit. *)
Lemma C1_one_entry_is_fitted :
  exists (w' : World) (eps : float),
    run ToyCal.lib1 setup 0 ToyCal.world0 = Ok tt w' /\
    trace w' !! 9%nat
    = Some (EvMinimize (1, -2)%float [3.5%float] [1.25%float] [eps]) /\
    pd_header (heap w' 0%nat) !! "PHOTZP"
    = Some (HFloat 0.5, "Photometric zeropoint MAG=-2.5*log(data)+PHOTZP") /\
    (forall (e : Exn) (w'' : World),
        run ToyCal.lib1 setup 0 ToyCal.world0 <> Raise e w'').
Proof.
  eexists. eexists. split; [vm_compute; reflexivity|].
  split; [vm_compute; reflexivity|].
  split; [vm_compute; reflexivity|].
  intros e w'' H. vm_compute in H. discriminate H.
Qed.

Lemma objective_pairwise (lib : Lib) (pairs : list Pair) (m c : float) :
  objective lib pairs (m, c)
  = (- (-0.5 * Fl.sum
                 (map (fun p =>
                         (Fl.square (seo_mag lib p - (m * gsc_mag p + c))
                          * (1.0 / Fl.square (combined_err lib p)))%float)
                      pairs)))%float.
Proof.
  unfold objective, nll, residual. norm_columns. reflexivity.
Qed.

(** C4, as the code has it: for the retained pairs the fitter is given, from
    the initial guess m = 1, b = -2, the catalog magnitudes as [x] and the
    instrumental magnitudes as [data]: it minimises half the sum of the
    squared residuals of instrumental_mag = m * catalog_mag + b, each
    weighted by the inverse square of sqrt(catalog_err^2 +
    instrumental_err^2).  The zero point written to the header is minus
    the intercept the minimiser returns. *)
Theorem C4_fit_of_instrumental_on_catalog (lib : Lib) (args : Args)
        (datain : nat) (w : World) (i : Inputs) :
  ready lib (heap w datain) i ->
  let pairs := retained (in_binning i) (in_pairs i) in
  let best := minimize lib (objective lib pairs) (1, -2)%float in
  exists w' : World,
    run lib args datain w = Ok tt w' /\
    In (EvMinimize (1, -2)%float (map gsc_mag pairs) (map (seo_mag lib) pairs)
                   (map (combined_err lib) pairs)) (trace w') /\
    (forall m c : float,
        objective lib pairs (m, c)
        = (- (-0.5 * Fl.sum
                       (map (fun p =>
                               (Fl.square
                                  (seo_mag lib p - (m * gsc_mag p + c))
                                * (1.0 / Fl.square
                                           (PrimFloat.sqrt
                                              (Fl.square (e_magerr (p_entry p))
                                               + Fl.square
                                                   (star_magerr lib
                                                      (p_star p))))))%float)
                            pairs)))%float) /\
    pd_header (heap w' datain) !! "PHOTZP"
    = Some (HFloat (- snd best),
            "Photometric zeropoint MAG=-2.5*log(data)+PHOTZP").
Proof.
  intros Hr pairs best.
  destruct (fluxcal_run_spec lib args datain w i Hr)
    as (w' & E & Hh & _ & _ & Ht).
  exists w'. split; [exact E|]. split; [|split].
  - rewrite Ht. apply in_or_app. right. apply minimize_in_effects.
  - intros m c. apply objective_pairwise.
  - rewrite Hh. apply result_photzp.
Qed.

Lemma C4_fit_of_instrumental_on_catalog_witness :
  let pairs := retained (in_binning ToyCal.inputs3)
                        (in_pairs ToyCal.inputs3) in
  let best := minimize ToyCal.lib3 (objective ToyCal.lib3 pairs)
                       (1, -2)%float in
  exists w' : World,
    run ToyCal.lib3 setup 0 ToyCal.world0 = Ok tt w' /\
    In (EvMinimize (1, -2)%float (map gsc_mag pairs)
                   (map (seo_mag ToyCal.lib3) pairs)
                   (map (combined_err ToyCal.lib3) pairs)) (trace w') /\
    (forall m c : float,
        objective ToyCal.lib3 pairs (m, c)
        = (- (-0.5 * Fl.sum
                       (map (fun p =>
                               (Fl.square
                                  (seo_mag ToyCal.lib3 p
                                   - (m * gsc_mag p + c))
                                * (1.0 / Fl.square
                                           (PrimFloat.sqrt
                                              (Fl.square (e_magerr (p_entry p))
                                               + Fl.square
                                                   (star_magerr ToyCal.lib3
                                                      (p_star p))))))%float)
                            pairs)))%float) /\
    pd_header (heap w' 0%nat) !! "PHOTZP"
    = Some (HFloat (- snd best),
            "Photometric zeropoint MAG=-2.5*log(data)+PHOTZP").
Proof.
  apply (C4_fit_of_instrumental_on_catalog ToyCal.lib3 setup 0 ToyCal.world0
                                           ToyCal.inputs3).
  prove_ready.
Defined.

(** C4 as the specification states it fails.  Two pairs lie on the line
    catalog_mag = 2 * instrumental_mag + 1.  The parameters that minimise
    the objective of the code, with value zero, are (0.5, -0.5), the line
    instrumental_mag = 0.5 * catalog_mag - 0.5, and the zero point written
    is 0.5.  They do not minimise the weighted squared residuals of
    catalog_mag = m * instrumental_mag + b, which (2, 1) makes smaller. *)
Lemma C4_fitted_line_is_not_the_claimed_one :
  let pairs := retained (in_binning ToyCal.inputs3)
                        (in_pairs ToyCal.inputs3) in
  exists w' : World,
    run ToyCal.lib3 setup 0 ToyCal.world0 = Ok tt w' /\
    map gsc_mag pairs = [3.5; 6]%float /\
    map (seo_mag ToyCal.lib3) pairs = [1.25; 2.5]%float /\
    fit ToyCal.lib3 ToyCal.inputs3 = (0.5, -0.5)%float /\
    objective ToyCal.lib3 pairs (0.5, -0.5)%float = 0%float /\
    pd_header (heap w' 0%nat) !! "PHOTZP"
    = Some (HFloat 0.5, "Photometric zeropoint MAG=-2.5*log(data)+PHOTZP") /\
    (objective_spec ToyCal.lib3 pairs (2, 1)
     <? objective_spec ToyCal.lib3 pairs (fit ToyCal.lib3 ToyCal.inputs3))%float
    = true.
Proof.
  eexists. repeat split; vm_compute; reflexivity.
Qed.

(** C5: once the fit has produced the intercept, the image of the output is
    [bscale * (image - bzero)] pixel by pixel, with [bzero] the configured
    percentile of the input image and [bscale] 3631 times ten to the power
    of the intercept over 2.5: one pass over the image, in closed form. *)
Theorem C5_image_is_rescaled (lib : Lib) (args : Args) (datain : nat)
        (w : World) (i : Inputs) :
  ready lib (heap w datain) i ->
  let image := pd_image (heap w datain) in
  let b_ml := snd (fit lib i) in
  let bzero := nanpercentile lib image (zeropercent args) in
  let bscale := (3631 * pow lib 10 (b_ml / 2.5))%float in
  exists w' : World,
    run lib args datain w = Ok tt w' /\
    pd_image (heap w' datain)
    = map (map (fun p => (bscale * (p - bzero))%float)) image.
Proof.
  intros Hr image b_ml bzero bscale.
  destruct (fluxcal_run_spec lib args datain w i Hr)
    as (w' & E & Hh & _).
  exists w'. split; [exact E|]. rewrite Hh. reflexivity.
Qed.

Lemma C5_image_is_rescaled_witness :
  exists w' : World,
    run ToyCal.lib3 setup 0 ToyCal.world0 = Ok tt w' /\
    pd_image (heap w' 0%nat) = [[0; 3631]; [7262; 14524]]%float.
Proof.
  assert (Hr : ready ToyCal.lib3 (heap ToyCal.world0 0%nat) ToyCal.inputs3)
    by prove_ready.
  destruct (C5_image_is_rescaled ToyCal.lib3 setup 0 ToyCal.world0
                                 ToyCal.inputs3 Hr)
    as (w' & E & H).
  exists w'. split; [exact E|]. rewrite H. vm_compute. reflexivity.
Defined.

(** C7: the pairs the fit is given are those of separation strictly below
    0.76 * binning / 3600 degrees, and no other: a pair is retained exactly
    when its separation compares below the threshold. *)
Theorem C7_retained_pairs_are_within_a_pixel (lib : Lib) (args : Args)
        (datain : nat) (w : World) (i : Inputs) :
  ready lib (heap w datain) i ->
  exists (w' : World) (kept : list Pair),
    run lib args datain w = Ok tt w' /\
    In (EvMinimize (1, -2)%float (map gsc_mag kept) (map (seo_mag lib) kept)
                   (map (combined_err lib) kept)) (trace w') /\
    (forall p : Pair,
        In p kept <->
        In p (in_pairs i) /\
        (p_sep p <? 0.76 * in_binning i / 3600)%float = true).
Proof.
  intros Hr.
  destruct (fluxcal_run_spec lib args datain w i Hr)
    as (w' & E & _ & _ & _ & Ht).
  exists w', (retained (in_binning i) (in_pairs i)).
  split; [exact E|]. split.
  - rewrite Ht. apply in_or_app. right. apply minimize_in_effects.
  - intros p. unfold retained. rewrite filter_In. reflexivity.
Qed.

Lemma C7_retained_pairs_are_within_a_pixel_witness :
  exists (w' : World) (kept : list Pair),
    run ToyCal.lib3 setup 0 ToyCal.world0 = Ok tt w' /\
    In (EvMinimize (1, -2)%float (map gsc_mag kept)
                   (map (seo_mag ToyCal.lib3) kept)
                   (map (combined_err ToyCal.lib3) kept)) (trace w') /\
    (forall p : Pair,
        In p kept <->
        In p (in_pairs ToyCal.inputs3) /\
        (p_sep p <? 0.76 * in_binning ToyCal.inputs3 / 3600)%float = true).
Proof.
  apply (C7_retained_pairs_are_within_a_pixel ToyCal.lib3 setup 0
                                              ToyCal.world0 ToyCal.inputs3).
  prove_ready.
Defined.

End FluxCalClaims.

(** ** Source extraction *)

Section SrcExtClaims.

Import StepSrcExtPy SrcExtRows.

(** The cut of the step, spelled out. *)
Lemma accepted_iff (m : Measured) :
  accepted m = true <->
  (src_a (m_obj m) / src_b (m_obj m) <? 1.5)%float = true /\
  (m_flux m / m_fluxerr m <? 1000)%float = true /\
  Fl.neqb (m_fluxerr m) 0 = true /\
  Fl.neqb (m_flux m) 0 = true.
Proof. unfold accepted, elongation. rewrite !andb_true_iff. tauto. Qed.

(** The rows of the two tables are the measured sources that pass the cut
    of the step: elongation below 1.5, flux over uncertainty below 1000,
    and neither of the two zero.  The cut has no lower bound on flux over
    uncertainty. *)
Lemma table_rows_pass_the_cut (lib : Sep) (args : Args) (datain : nat)
      (w : World) (v : HVal) (c : string) :
  pd_header (heap w datain) !! "XBIN" = Some (v, c) ->
  argsort_ok (argsort lib) ->
  let img := pd_image (heap w datain) in
  exists (w' : World) (rows rowsb : list Measured),
    run lib args datain w = Ok tt w' /\
    pd_tables (heap w' datain) !! "Low Threshold Sources"
    = Some (table_of rows) /\
    pd_tables (heap w' datain) !! "High Threshold Sources"
    = Some (table_of rowsb) /\
    (forall m : Measured,
        In m rows <->
        In m (map (measure lib args img) (low_sources lib args img)) /\
        accepted m = true) /\
    (forall m : Measured,
        In m rowsb <->
        In m (map (measure lib args img) (high_sources lib args img)) /\
        accepted m = true).
Proof.
  intros HX Hsort img.
  destruct (select_ok lib Hsort args img (low_sources lib args img))
    as (rows & objs & E1 & HP1 & -> & _).
  destruct (select_ok lib Hsort args img (high_sources lib args img))
    as (rowsb & objsb & E2 & HP2 & -> & _).
  destruct (srcext_run_spec lib args datain w v c _ _ HX E1 E2)
    as (w' & E & Hh & _).
  eexists w', _, _. split; [exact E|].
  rewrite Hh, result_low, result_high.
  split; [reflexivity|]. split; [reflexivity|].
  split; intros m; rewrite filter_In, !in_map_iff;
    [setoid_rewrite (Permutation_in' eq_refl HP1)
    |setoid_rewrite (Permutation_in' eq_refl HP2)]; reflexivity.
Qed.

(** C2 at a failing input: a source whose elliptical flux is -5 with
    uncertainty 1 passes the cut and enters the table of the low threshold
    sources, although its flux over uncertainty is not above zero. *)
Theorem C2_negative_flux_is_accepted :
  let lib := Toy.toy_sep (fun _ => Toy.faint) (fun _ => 1%float) in
  exists (w' : World) (low : list Column),
    run lib setup 0 Toy.world0 = Ok tt w' /\
    pd_tables (heap w' 0%nat) !! "Low Threshold Sources" = Some low /\
    column_array "Uncalibrated Flux" low = Some [(-5)%float] /\
    column_array "Uncalibrated Fluxerr" low = Some [1%float] /\
    (0 <? -5 / 1)%float = false.
Proof.
  eexists. eexists. repeat split; vm_compute; reflexivity.
Qed.

Lemma column_flux (rows : list Measured) :
  column_array "Uncalibrated Flux" (table_of rows) = Some (map m_flux rows).
Proof. reflexivity. Qed.




(** C8, as the code has it: the elliptical flux of a source of a table and
    its uncertainty are the sum over the ellipse of radius kronf times the
    Kron radius (itself taken with r = 6), with the RMS map of the
    background as the error, and with the sampling factor 1: one sample
    for each pixel, no sub-pixel sampling. *)
Theorem C8_flux_in_the_kron_ellipse (lib : Sep) (args : Args) (datain : nat)
        (w : World) (v : HVal) (c : string) :
  pd_header (heap w datain) !! "XBIN" = Some (v, c) ->
  argsort_ok (argsort lib) ->
  let img := pd_image (heap w datain) in
  let data := image_sub lib args img in
  exists (w' : World) (rows rowsb : list Measured),
    run lib args datain w = Ok tt w' /\
    pd_tables (heap w' datain) !! "Low Threshold Sources"
    = Some (table_of rows) /\
    pd_tables (heap w' datain) !! "High Threshold Sources"
    = Some (table_of rowsb) /\
    (forall m : Measured,
        In m (rows ++ rowsb) ->
        let o := m_obj m in
        let kronrad :=
          fst (kron_radius lib data (src_x o) (src_y o) (src_a o) (src_b o)
                           (src_theta o) 6.0) in
        (m_flux m, m_fluxerr m)
        = fst (sum_ellipse lib data (src_x o) (src_y o) (src_a o) (src_b o)
                           (src_theta o) (kronf args * kronrad)%float
                           (rms (bkg lib args img)) 1)).
Proof.
  intros HX Hsort img data.
  destruct (select_ok lib Hsort args img (low_sources lib args img))
    as (rows & objs & E1 & _ & -> & _).
  destruct (select_ok lib Hsort args img (high_sources lib args img))
    as (rowsb & objsb & E2 & _ & -> & _).
  destruct (srcext_run_spec lib args datain w v c _ _ HX E1 E2)
    as (w' & E & Hh & _).
  eexists w', _, _. split; [exact E|].
  rewrite Hh, result_low, result_high.
  split; [reflexivity|]. split; [reflexivity|].
  intros m Hm. apply in_app_or in Hm.
  assert (Hin : exists o : Source, m = measure lib args img o).
  { destruct Hm as [Hm|Hm]; apply filter_In in Hm as [Hm _];
      apply in_map_iff in Hm as (o & <- & _); eauto. }
  destruct Hin as (o & ->). simpl.
  unfold ellipse, ellipse_at, kron.
  destruct (sum_ellipse _ _ _ _ _ _ _ _ _ _) as [[f e] g]. reflexivity.
Qed.

Lemma C8_flux_in_the_kron_ellipse_witness :
  let lib := Toy.toy_sep (fun _ => Toy.twins) Toy.exact_gain in
  let img := pd_image (heap Toy.world0 0%nat) in
  let data := image_sub lib setup img in
  exists (w' : World) (rows rowsb : list Measured),
    run lib setup 0 Toy.world0 = Ok tt w' /\
    pd_tables (heap w' 0%nat) !! "Low Threshold Sources"
    = Some (table_of rows) /\
    pd_tables (heap w' 0%nat) !! "High Threshold Sources"
    = Some (table_of rowsb) /\
    (forall m : Measured,
        In m (rows ++ rowsb) ->
        let o := m_obj m in
        let kronrad :=
          fst (kron_radius lib data (src_x o) (src_y o) (src_a o) (src_b o)
                           (src_theta o) 6.0) in
        (m_flux m, m_fluxerr m)
        = fst (sum_ellipse lib data (src_x o) (src_y o) (src_a o) (src_b o)
                           (src_theta o) (kronf setup * kronrad)%float
                           (rms (bkg lib setup img)) 1)).
Proof.
  apply (C8_flux_in_the_kron_ellipse
           (Toy.toy_sep (fun _ => Toy.twins) Toy.exact_gain) setup 0
           Toy.world0 (HInt 2) "binning").
  - vm_compute. reflexivity.
  - exact argsort_stable_ok.
Defined.

(** C8 as the specification states it fails: the sampling is not the finest
    the aperture sum supports.  With an aperture sum whose value depends on
    the sampling, the flux in the table is the one for the factor 1, and
    not the one for the exact overlap. *)
Lemma C8_sampling_is_one_per_pixel :
  let lib := Toy.toy_sep (fun _ => Toy.twins) Toy.exact_gain in
  let img := pd_image Toy.blank in
  exists (w' : World) (low : list Column),
    run lib setup 0 Toy.world0 = Ok tt w' /\
    pd_tables (heap w' 0%nat) !! "Low Threshold Sources" = Some low /\
    column_array "Uncalibrated Flux" low = Some [50; 50]%float /\
    map (fun o => fst (fst (ellipse_at lib setup img 1 o)))
        (low_sources lib setup img) = [50; 50]%float /\
    map (fun o => fst (fst (ellipse_at lib setup img subpix_exact o)))
        (low_sources lib setup img) = [100; 100]%float.
Proof.
  eexists. eexists. repeat split; vm_compute; reflexivity.
Qed.

(** What the code does in the two paths: they are one pipeline, a function
    of the extraction threshold and of the deblending parameter.  The low
    path runs it with the configured threshold and the configured
    deblending parameter, the high path with the threshold times the bright
    factor and the default of the extraction, 32. *)
Lemma two_paths_one_pipeline (lib : Sep) (args : Args) (datain : nat)
      (w : World) (v : HVal) (c : string) :
  pd_header (heap w datain) !! "XBIN" = Some (v, c) ->
  argsort_ok (argsort lib) ->
  let img := pd_image (heap w datain) in
  exists w' : World,
    run lib args datain w = Ok tt w' /\
    pd_tables (heap w' datain) !! "Low Threshold Sources"
    = pipeline lib args img (extractthersh args) (deblend args) /\
    pd_tables (heap w' datain) !! "High Threshold Sources"
    = pipeline lib args img (extractthersh args * bfactor args)%float 32.
Proof.
  intros HX Hsort img.
  destruct (run_tables lib args datain w v c HX Hsort)
    as (w' & rows & rowsb & E1 & E2 & E & Hh & _).
  exists w'. split; [exact E|].
  rewrite Hh, result_low, result_high. unfold pipeline.
  fold img in E1, E2. unfold low_sources in E1. unfold high_sources in E2.
  fold (image_sub lib args img) in *.
  unfold default_deblend_nthresh in E2.
  rewrite E1, E2. split; reflexivity.
Qed.

(** C9 at a failing input: the two paths do not differ in the threshold
    alone.  The low path passes the configured deblending parameter (256)
    to the extraction, the high path passes none.  Where a deblending at
    32 merges two sources into one, the table of the high threshold path
    holds the merged source, while the pipeline of the low path, run at the
    high threshold, holds the two. *)
Theorem C9_high_path_deblends_by_default :
  let lib := Toy.toy_sep Toy.blend (fun _ => 1%float) in
  let img := pd_image Toy.blank in
  exists (w' : World) (high spec : list Column),
    run lib setup 0 Toy.world0 = Ok tt w' /\
    pd_tables (heap w' 0%nat) !! "High Threshold Sources" = Some high /\
    pipeline_spec lib setup img (extractthersh setup * bfactor setup)%float
    = Some spec /\
    column_array "X" high = Some [1%float] /\
    column_array "X" spec = Some [1%float; 2%float].
Proof.
  eexists. eexists. eexists. repeat split; vm_compute; reflexivity.
Qed.

End SrcExtClaims.

(** ** Both steps *)

(** C10: each of the two steps returns the input data object itself: after
    the run [dataout] is the reference [datain], the header keywords and
    the tables are in the object at that reference, no other object has
    changed, and in the flux calibration step the image of that object is
    the rescaled image. *)
Theorem C10_output_is_the_input_object
        (lib : StepSrcExtPy.Sep) (args : StepSrcExtPy.Args) (datain : nat)
        (w : World) (v : HVal) (c : string)
        (libc : StepFluxCalSex.Lib) (argsc : StepFluxCalSex.Args)
        (datainc : nat) (wc : World) (i : FluxCalPairs.Inputs) :
  pd_header (heap w datain) !! "XBIN" = Some (v, c) ->
  SrcExtRows.argsort_ok (StepSrcExtPy.argsort lib) ->
  FluxCalPairs.ready libc (heap wc datainc) i ->
  (exists (w' : World) (rows rowsb : list SrcExtRows.Measured),
      StepSrcExtPy.run lib args datain w = Ok tt w' /\
      dataout w' = Some datain /\
      heap w' datain = SrcExtRows.result args (heap w datain) rows rowsb /\
      pd_image (heap w' datain) = pd_image (heap w datain) /\
      (forall r : nat, r <> datain -> heap w' r = heap w r)) /\
  (exists wc' : World,
      StepFluxCalSex.run libc argsc datainc wc = Ok tt wc' /\
      dataout wc' = Some datainc /\
      heap wc' datainc
      = FluxCalPairs.result libc argsc (heap wc datainc) i /\
      pd_image (heap wc' datainc)
      = map (map (fun p => (FluxCalPairs.bscale libc i
                            * (p - FluxCalPairs.bzero libc argsc
                                     (heap wc datainc)))%float))
            (pd_image (heap wc datainc)) /\
      (forall r : nat, r <> datainc -> heap wc' r = heap wc r)).
Proof.
  intros HX Hsort Hr. split.
  - destruct (run_tables lib args datain w v c HX Hsort)
      as (w' & rows & rowsb & _ & _ & E & Hh & Hf & Hd & _).
    exists w', rows, rowsb. rewrite Hh. auto.
  - destruct (fluxcal_run_spec libc argsc datainc wc i Hr)
      as (wc' & E & Hh & Hf & Hd & _).
    exists wc'. rewrite Hh. auto.
Qed.

Lemma C10_output_is_the_input_object_witness :
  (exists (w' : World) (rows rowsb : list SrcExtRows.Measured),
      StepSrcExtPy.run (Toy.toy_sep (fun _ => Toy.twins) (fun _ => 1%float))
                       StepSrcExtPy.setup 0 Toy.world0 = Ok tt w' /\
      dataout w' = Some 0%nat /\
      heap w' 0%nat
      = SrcExtRows.result StepSrcExtPy.setup (heap Toy.world0 0%nat)
                          rows rowsb /\
      pd_image (heap w' 0%nat) = pd_image (heap Toy.world0 0%nat) /\
      (forall r : nat, r <> 0%nat -> heap w' r = heap Toy.world0 r)) /\
  (exists wc' : World,
      StepFluxCalSex.run ToyCal.lib3 StepFluxCalSex.setup 0 ToyCal.world0
      = Ok tt wc' /\
      dataout wc' = Some 0%nat /\
      heap wc' 0%nat
      = FluxCalPairs.result ToyCal.lib3 StepFluxCalSex.setup
                            (heap ToyCal.world0 0%nat) ToyCal.inputs3 /\
      pd_image (heap wc' 0%nat)
      = map (map (fun p => (FluxCalPairs.bscale ToyCal.lib3 ToyCal.inputs3
                            * (p - FluxCalPairs.bzero
                                     ToyCal.lib3 StepFluxCalSex.setup
                                     (heap ToyCal.world0 0%nat)))%float))
            (pd_image (heap ToyCal.world0 0%nat)) /\
      (forall r : nat, r <> 0%nat -> heap wc' r = heap ToyCal.world0 r)).
Proof.
  apply (C10_output_is_the_input_object
           (Toy.toy_sep (fun _ => Toy.twins) (fun _ => 1%float))
           StepSrcExtPy.setup 0 Toy.world0 (HInt 2) "binning"
           ToyCal.lib3 StepFluxCalSex.setup 0 ToyCal.world0 ToyCal.inputs3).
  - vm_compute. reflexivity.
  - exact argsort_stable_ok.
  - prove_ready.
Defined.

(** * More of the two steps *)

(** ** Runs that fail *)

Lemma bind_Raise {A B} (m : M A) (k : A -> M B) (w w1 : World) (e : Exn) :
  m w = Raise e w1 -> (m ≫= k) w = Raise e w1.
Proof. intros H. unfold mbind, M_bind. rewrite H. reflexivity. Qed.

Lemma bind_ex_Raise {A B} (m : M A) (k : A -> M B) (w w1 : World) (a : A)
      (e : Exn) (P : World -> Prop) :
  m w = Ok a w1 ->
  (exists w' : World, k a w1 = Raise e w' /\ P w') ->
  exists w' : World, (m ≫= k) w = Raise e w' /\ P w'.
Proof.
  intros H (w' & E & HP). exists w'. split; [|exact HP].
  rewrite (bind_Ok _ _ _ _ _ H). exact E.
Qed.

Lemma or_raise_None {A} (e : Exn) (o : option A) (w : World) :
  o = None -> or_raise e o w = Raise e w.
Proof. intros ->. reflexivity. Qed.

(** ** The source extraction step: more of what [run] does *)

Section SrcExtMore.

Import StepSrcExtPy SrcExtRows.

Lemma table_of_columns (rows : list Measured) (c : Column) :
  In c (table_of rows) -> length (col_array c) = length rows.
Proof.
  unfold table_of, make_columns, Np.arange1. simpl.
  intros [<-|[<-|[<-|[<-|[<-|[<-|[]]]]]]]; simpl;
    rewrite ?length_map, ?length_seq; reflexivity.
Qed.

(** X3: the ID column of each of the two tables counts its rows from 1,
    and the six columns of a table have as many entries as the table has
    rows. *)
Theorem X3_ids_count_the_rows (lib : Sep) (args : Args) (datain : nat)
        (w : World) (v : HVal) (c : string) :
  pd_header (heap w datain) !! "XBIN" = Some (v, c) ->
  argsort_ok (argsort lib) ->
  exists (w' : World) (low high : list Column) (n nb : nat),
    run lib args datain w = Ok tt w' /\
    pd_tables (heap w' datain) !! "Low Threshold Sources" = Some low /\
    pd_tables (heap w' datain) !! "High Threshold Sources" = Some high /\
    column_array "ID" low = Some (map Fl.of_nat (seq 1 n)) /\
    column_array "ID" high = Some (map Fl.of_nat (seq 1 nb)) /\
    length low = 6%nat /\ length high = 6%nat /\
    (forall col : Column, In col low -> length (col_array col) = n) /\
    (forall col : Column, In col high -> length (col_array col) = nb).
Proof.
  intros HX Hsort.
  destruct (run_tables lib args datain w v c HX Hsort)
    as (w' & rows & rowsb & _ & _ & E & Hh & _).
  exists w', (table_of rows), (table_of rowsb), (length rows), (length rowsb).
  split; [exact E|]. rewrite Hh, result_low, result_high.
  do 6 (split; [reflexivity|]).
  split; intros col; apply table_of_columns.
Qed.

Lemma X3_ids_count_the_rows_witness :
  exists (w' : World) (low high : list Column) (n nb : nat),
    run (Toy.toy_sep (fun _ => Toy.twins) (fun _ => 1%float)) setup 0
        Toy.world0 = Ok tt w' /\
    pd_tables (heap w' 0%nat) !! "Low Threshold Sources" = Some low /\
    pd_tables (heap w' 0%nat) !! "High Threshold Sources" = Some high /\
    column_array "ID" low = Some (map Fl.of_nat (seq 1 n)) /\
    column_array "ID" high = Some (map Fl.of_nat (seq 1 nb)) /\
    length low = 6%nat /\ length high = 6%nat /\
    (forall col : Column, In col low -> length (col_array col) = n) /\
    (forall col : Column, In col high -> length (col_array col) = nb).
Proof.
  apply (X3_ids_count_the_rows
           (Toy.toy_sep (fun _ => Toy.twins) (fun _ => 1%float)) setup 0
           Toy.world0 (HInt 2) "binning").
  - vm_compute. reflexivity.
  - exact argsort_stable_ok.
Defined.


Lemma lookup_map_Some {X Y} (f : X -> Y) (l : list X) (k : nat) (y : Y) :
  map f l !! k = Some y -> exists x : X, l !! k = Some x /\ y = f x.
Proof.
  revert k. induction l as [|x l IH]; intros [|k]; simpl; try discriminate.
  - intros [= <-]. eauto.
  - apply IH.
Qed.

(** X4: no row of the two tables has a flux or an uncertainty that is NaN
    or zero, and the flux over the uncertainty of each row is below 1000. *)
Theorem X4_table_fluxes_are_numbers (lib : Sep) (args : Args) (datain : nat)
        (w : World) (v : HVal) (c : string) :
  pd_header (heap w datain) !! "XBIN" = Some (v, c) ->
  argsort_ok (argsort lib) ->
  exists (w' : World) (low high : list Column),
    run lib args datain w = Ok tt w' /\
    pd_tables (heap w' datain) !! "Low Threshold Sources" = Some low /\
    pd_tables (heap w' datain) !! "High Threshold Sources" = Some high /\
    (forall (t : list Column) (flux fluxerr : list float) (k : nat)
            (f e : float),
        In t [low; high] ->
        column_array "Uncalibrated Flux" t = Some flux ->
        column_array "Uncalibrated Fluxerr" t = Some fluxerr ->
        flux !! k = Some f -> fluxerr !! k = Some e ->
        is_nan f = false /\ is_nan e = false /\
        (f =? 0)%float = false /\ (e =? 0)%float = false /\
        (f / e <? 1000)%float = true).
Proof.
  intros HX Hsort.
  set (img := pd_image (heap w datain)).
  destruct (select_ok lib Hsort args img (low_sources lib args img))
    as (rows & objs & E1 & _ & Hrows & _).
  destruct (select_ok lib Hsort args img (high_sources lib args img))
    as (rowsb & objsb & E2 & _ & Hrowsb & _).
  destruct (srcext_run_spec lib args datain w v c _ _ HX E1 E2)
    as (w' & E & Hh & _).
  exists w', (table_of rows), (table_of rowsb).
  split; [exact E|]. rewrite Hh, result_low, result_high.
  split; [reflexivity|]. split; [reflexivity|].
  assert (Hcut : forall (l : list Measured) (k : nat) (f e : float),
             (forall m : Measured, In m l -> accepted m = true) ->
             map m_flux l !! k = Some f -> map m_fluxerr l !! k = Some e ->
             is_nan f = false /\ is_nan e = false /\
             (f =? 0)%float = false /\ (e =? 0)%float = false /\
             (f / e <? 1000)%float = true).
  { intros l k f e Hl Hf He.
    apply lookup_map_Some in Hf as (m & Hm & ->).
    apply lookup_map_Some in He as (m' & Hm' & ->).
    assert (m' = m) by congruence. subst m'.
    apply list_elem_of_lookup_2, list_elem_of_In, Hl in Hm.
    unfold accepted, Fl.neqb in Hm.
    rewrite !andb_true_iff, !negb_true_iff in Hm.
    destruct Hm as [[[_ Hsn] He0] Hf0].
    split; [exact (FlFacts.ltb_div_not_nan _ _ _ Hsn)|].
    split; [exact (FlFacts.ltb_div_not_nan_r _ _ _ Hsn)|]. auto. }
  intros t flux fluxerr k f e [<-|[<-|[]]] [= <-] [= <-];
    apply Hcut; intros m Hm.
  - rewrite Hrows in Hm. apply filter_In in Hm as [_ Hm]. exact Hm.
  - rewrite Hrowsb in Hm. apply filter_In in Hm as [_ Hm]. exact Hm.
Qed.

Lemma X4_table_fluxes_are_numbers_witness :
  exists (w' : World) (low high : list Column),
    run (Toy.toy_sep (fun _ => Toy.twins) (fun _ => 1%float)) setup 0
        Toy.world0 = Ok tt w' /\
    pd_tables (heap w' 0%nat) !! "Low Threshold Sources" = Some low /\
    pd_tables (heap w' 0%nat) !! "High Threshold Sources" = Some high /\
    (forall (t : list Column) (flux fluxerr : list float) (k : nat)
            (f e : float),
        In t [low; high] ->
        column_array "Uncalibrated Flux" t = Some flux ->
        column_array "Uncalibrated Fluxerr" t = Some fluxerr ->
        flux !! k = Some f -> fluxerr !! k = Some e ->
        is_nan f = false /\ is_nan e = false /\
        (f =? 0)%float = false /\ (e =? 0)%float = false /\
        (f / e <? 1000)%float = true).
Proof.
  apply (X4_table_fluxes_are_numbers
           (Toy.toy_sep (fun _ => Toy.twins) (fun _ => 1%float)) setup 0
           Toy.world0 (HInt 2) "binning").
  - vm_compute. reflexivity.
  - exact argsort_stable_ok.
Defined.

(** X5: the step adds to its input and takes nothing away: the keywords
    other than the five it writes keep their values and comments, the
    tables other than the two it attaches are as they were, and so are the
    image and the file names.  A table of one of the two names that the
    input had is replaced. *)
Theorem X5_srcext_keeps_the_rest (lib : Sep) (args : Args) (datain : nat)
        (w : World) (v : HVal) (c : string) :
  pd_header (heap w datain) !! "XBIN" = Some (v, c) ->
  argsort_ok (argsort lib) ->
  exists w' : World,
    run lib args datain w = Ok tt w' /\
    (forall key : string,
        ~ In key ["RHALF"; "RHALFSTD"; "ELONG"; "EXTRACT_THRESH";
                  "BRIGHT_FACTOR"] ->
        pd_header (heap w' datain) !! key
        = pd_header (heap w datain) !! key) /\
    (forall name : string,
        ~ In name ["Low Threshold Sources"; "High Threshold Sources"] ->
        pd_tables (heap w' datain) !! name
        = pd_tables (heap w datain) !! name) /\
    pd_image (heap w' datain) = pd_image (heap w datain) /\
    pd_filename (heap w' datain) = pd_filename (heap w datain) /\
    pd_filenamebegin (heap w' datain) = pd_filenamebegin (heap w datain).
Proof.
  intros HX Hsort.
  destruct (run_tables lib args datain w v c HX Hsort)
    as (w' & rows & rowsb & _ & _ & E & Hh & _).
  exists w'. split; [exact E|]. rewrite Hh. unfold result.
  cbn [pd_header pd_image pd_tables pd_filename pd_filenamebegin].
  split; [|split; [|auto]].
  - intros key Hk.
    rewrite !lookup_insert_ne by (intros <-; apply Hk; simpl; tauto).
    reflexivity.
  - intros name Hn.
    rewrite !lookup_insert_ne by (intros <-; apply Hn; simpl; tauto).
    reflexivity.
Qed.

Lemma X5_srcext_keeps_the_rest_witness :
  exists w' : World,
    run (Toy.toy_sep (fun _ => Toy.twins) (fun _ => 1%float)) setup 0
        Toy.world0 = Ok tt w' /\
    (forall key : string,
        ~ In key ["RHALF"; "RHALFSTD"; "ELONG"; "EXTRACT_THRESH";
                  "BRIGHT_FACTOR"] ->
        pd_header (heap w' 0%nat) !! key
        = pd_header (heap Toy.world0 0%nat) !! key) /\
    (forall name : string,
        ~ In name ["Low Threshold Sources"; "High Threshold Sources"] ->
        pd_tables (heap w' 0%nat) !! name
        = pd_tables (heap Toy.world0 0%nat) !! name) /\
    pd_image (heap w' 0%nat) = pd_image (heap Toy.world0 0%nat) /\
    pd_filename (heap w' 0%nat) = pd_filename (heap Toy.world0 0%nat) /\
    pd_filenamebegin (heap w' 0%nat)
    = pd_filenamebegin (heap Toy.world0 0%nat).
Proof.
  apply (X5_srcext_keeps_the_rest
           (Toy.toy_sep (fun _ => Toy.twins) (fun _ => 1%float)) setup 0
           Toy.world0 (HInt 2) "binning").
  - vm_compute. reflexivity.
  - exact argsort_stable_ok.
Defined.

(** X6: the files of the source list.  Without the parameter sourcetable
    the step writes no file and does nothing else outside but log.  With
    it the step writes two files, named after the start of the file name
    of the object: a region file with one circle for each row of the table
    of the low threshold sources, at the X and Y of the row and labelled
    with its ID, and then that table as text in the configured format. *)
Theorem X6_files_of_the_source_list (lib : Sep) (args : Args) (datain : nat)
        (w : World) (v : HVal) (c : string) :
  pd_header (heap w datain) !! "XBIN" = Some (v, c) ->
  argsort_ok (argsort lib) ->
  exists (w' : World) (evs : list Event) (low : list Column)
         (xs ys : list float),
    run lib args datain w = Ok tt w' /\
    trace w' = trace w ++ evs /\
    pd_tables (heap w' datain) !! "Low Threshold Sources" = Some low /\
    column_array "X" low = Some xs /\
    column_array "Y" low = Some ys /\
    actions evs
    = if sourcetable args
      then [ EvRegionFile
               (pd_filenamebegin (heap w datain) +:+ "FCALsources.reg")
               (zip (zip xs ys) (seq 1 (length xs)));
             EvAsciiWrite
               low (pd_filenamebegin (heap w datain) +:+ "FALsources.txt")
               (sourcetableformat args) ]
      else [].
Proof.
  intros HX Hsort.
  destruct (run_tables lib args datain w v c HX Hsort)
    as (w' & rows & rowsb & _ & _ & E & Hh & _ & _ & Ht).
  exists w', (effects args (heap w datain) rows rowsb), (table_of rows),
    (map (fun m => src_x (m_obj m)) rows),
    (map (fun m => src_y (m_obj m)) rows).
  split; [exact E|]. split; [exact Ht|].
  rewrite Hh, result_low. do 3 (split; [reflexivity|]).
  unfold effects, Np.arange1. rewrite length_map.
  destruct (sourcetable args); reflexivity.
Qed.

Lemma X6_files_of_the_source_list_witness :
  let args := mkArgs true "csv" 0 (16, 16)%Z (3, 3)%Z 0 2 10 256 2.5 in
  exists (w' : World) (evs : list Event) (low : list Column)
         (xs ys : list float),
    run (Toy.toy_sep (fun _ => Toy.twins) (fun _ => 1%float)) args 0
        Toy.world0 = Ok tt w' /\
    trace w' = trace Toy.world0 ++ evs /\
    pd_tables (heap w' 0%nat) !! "Low Threshold Sources" = Some low /\
    column_array "X" low = Some xs /\
    column_array "Y" low = Some ys /\
    actions evs
    = if sourcetable args
      then [ EvRegionFile
               (pd_filenamebegin (heap Toy.world0 0%nat)
                +:+ "FCALsources.reg")
               (zip (zip xs ys) (seq 1 (length xs)));
             EvAsciiWrite
               low (pd_filenamebegin (heap Toy.world0 0%nat)
                    +:+ "FALsources.txt")
               (sourcetableformat args) ]
      else [].
Proof.
  intros args.
  apply (X6_files_of_the_source_list
           (Toy.toy_sep (fun _ => Toy.twins) (fun _ => 1%float)) args 0
           Toy.world0 (HInt 2) "binning").
  - vm_compute. reflexivity.
  - exact argsort_stable_ok.
Defined.

(** X7: the statistics in the header are those of the table of the low
    threshold sources: RHALF is the mean of its column of half-light radii
    with NaN left out, RHALFSTD the robust deviation of the same column,
    and EXTRACT_THRESH and BRIGHT_FACTOR record the two parameters.  The
    high threshold sources have no part in them. *)
Theorem X7_header_statistics (lib : Sep) (args : Args) (datain : nat)
        (w : World) (v : HVal) (c : string) :
  pd_header (heap w datain) !! "XBIN" = Some (v, c) ->
  argsort_ok (argsort lib) ->
  exists (w' : World) (low : list Column) (rh : list float)
         (c1 c2 c3 c4 : string),
    run lib args datain w = Ok tt w' /\
    pd_tables (heap w' datain) !! "Low Threshold Sources" = Some low /\
    column_array "Half-light Radius" low = Some rh /\
    pd_header (heap w' datain) !! "RHALF"
    = Some (HFloat (Np.nanmean rh), c1) /\
    pd_header (heap w' datain) !! "RHALFSTD"
    = Some (HFloat (Np.mad_std rh), c2) /\
    pd_header (heap w' datain) !! "EXTRACT_THRESH"
    = Some (HFloat (extractthersh args), c3) /\
    pd_header (heap w' datain) !! "BRIGHT_FACTOR"
    = Some (HFloat (bfactor args), c4).
Proof.
  intros HX Hsort.
  destruct (run_tables lib args datain w v c HX Hsort)
    as (w' & rows & rowsb & _ & _ & E & Hh & _).
  exists w', (table_of rows), (map m_rh rows). do 4 eexists.
  split; [exact E|]. rewrite Hh, result_low.
  do 2 (split; [reflexivity|]).
  unfold result. cbn [pd_header].
  repeat split;
    rewrite ?lookup_insert_ne by discriminate; apply lookup_insert_eq.
Qed.

Lemma X7_header_statistics_witness :
  exists (w' : World) (low : list Column) (rh : list float)
         (c1 c2 c3 c4 : string),
    run (Toy.toy_sep (fun _ => Toy.twins) (fun _ => 1%float)) setup 0
        Toy.world0 = Ok tt w' /\
    pd_tables (heap w' 0%nat) !! "Low Threshold Sources" = Some low /\
    column_array "Half-light Radius" low = Some rh /\
    pd_header (heap w' 0%nat) !! "RHALF"
    = Some (HFloat (Np.nanmean rh), c1) /\
    pd_header (heap w' 0%nat) !! "RHALFSTD"
    = Some (HFloat (Np.mad_std rh), c2) /\
    pd_header (heap w' 0%nat) !! "EXTRACT_THRESH"
    = Some (HFloat (extractthersh setup), c3) /\
    pd_header (heap w' 0%nat) !! "BRIGHT_FACTOR"
    = Some (HFloat (bfactor setup), c4).
Proof.
  apply (X7_header_statistics
           (Toy.toy_sep (fun _ => Toy.twins) (fun _ => 1%float)) setup 0
           Toy.world0 (HInt 2) "binning").
  - vm_compute. reflexivity.
  - exact argsort_stable_ok.
Defined.

Lemma Permutation_List_filter {X} (p : X -> bool) (l l' : list X) :
  Permutation l l' -> Permutation (List.filter p l) (List.filter p l').
Proof.
  induction 1 as [|x l l' HP IH|x y l|l l' l'' HP1 IH1 HP2 IH2]; simpl.
  - constructor.
  - destruct (p x); [constructor|]; exact IH.
  - destruct (p x), (p y); try reflexivity. constructor.
  - etransitivity; eassumption.
Qed.

(** X18: the two sorts and the cut lose no source and repeat none: the
    rows of each table are, up to their order, the extracted sources of
    its threshold that pass the cut, each of them once. *)
Theorem X18_rows_are_the_accepted_sources (lib : Sep) (args : Args)
        (datain : nat) (w : World) (v : HVal) (c : string) :
  pd_header (heap w datain) !! "XBIN" = Some (v, c) ->
  argsort_ok (argsort lib) ->
  let img := pd_image (heap w datain) in
  exists (w' : World) (rows rowsb : list Measured),
    run lib args datain w = Ok tt w' /\
    pd_tables (heap w' datain) !! "Low Threshold Sources"
    = Some (table_of rows) /\
    pd_tables (heap w' datain) !! "High Threshold Sources"
    = Some (table_of rowsb) /\
    Permutation rows
      (List.filter accepted
         (map (measure lib args img) (low_sources lib args img))) /\
    Permutation rowsb
      (List.filter accepted
         (map (measure lib args img) (high_sources lib args img))).
Proof.
  intros HX Hsort img.
  destruct (select_ok lib Hsort args img (low_sources lib args img))
    as (rows & objs & E1 & HP1 & -> & _).
  destruct (select_ok lib Hsort args img (high_sources lib args img))
    as (rowsb & objsb & E2 & HP2 & -> & _).
  destruct (srcext_run_spec lib args datain w v c _ _ HX E1 E2)
    as (w' & E & Hh & _).
  eexists w', _, _. split; [exact E|].
  rewrite Hh, result_low, result_high.
  split; [reflexivity|]. split; [reflexivity|].
  split; apply Permutation_List_filter, Permutation_map; assumption.
Qed.

Lemma X18_rows_are_the_accepted_sources_witness :
  let lib := Toy.toy_sep (fun _ => Toy.twins) (fun _ => 1%float) in
  let img := pd_image (heap Toy.world0 0%nat) in
  exists (w' : World) (rows rowsb : list Measured),
    run lib setup 0 Toy.world0 = Ok tt w' /\
    pd_tables (heap w' 0%nat) !! "Low Threshold Sources"
    = Some (table_of rows) /\
    pd_tables (heap w' 0%nat) !! "High Threshold Sources"
    = Some (table_of rowsb) /\
    Permutation rows
      (List.filter accepted
         (map (measure lib setup img) (low_sources lib setup img))) /\
    Permutation rowsb
      (List.filter accepted
         (map (measure lib setup img) (high_sources lib setup img))).
Proof.
  apply (X18_rows_are_the_accepted_sources
           (Toy.toy_sep (fun _ => Toy.twins) (fun _ => 1%float)) setup 0
           Toy.world0 (HInt 2) "binning").
  - vm_compute. reflexivity.
  - exact argsort_stable_ok.
Defined.

(** X19: the two numbers the step logs are the numbers of rows of the two
    tables, under each other's name: the line that says "high thershold"
    gives the number of rows of the table of the low threshold sources,
    and the line that says "low thershold" that of the table of the high
    threshold sources. *)
Theorem X19_logged_counts (lib : Sep) (args : Args) (datain : nat)
        (w : World) (v : HVal) (c : string) :
  pd_header (heap w datain) !! "XBIN" = Some (v, c) ->
  argsort_ok (argsort lib) ->
  exists (w' : World) (low high : list Column) (n nb : nat)
         (evs : list Event),
    run lib args datain w = Ok tt w' /\
    pd_tables (heap w' datain) !! "Low Threshold Sources" = Some low /\
    pd_tables (heap w' datain) !! "High Threshold Sources" = Some high /\
    (forall col : Column, In col low -> length (col_array col) = n) /\
    (forall col : Column, In col high -> length (col_array col) = nb) /\
    trace w'
    = trace w
      ++ EvLog "debug"
               "Selected %d high thershold stars from Source Extrator catalog"
               [HInt (Z.of_nat n)]
      :: EvLog "debug"
               "Selected %d low thershold stars from Source Extrator catalog"
               [HInt (Z.of_nat nb)]
      :: evs.
Proof.
  intros HX Hsort.
  destruct (run_tables lib args datain w v c HX Hsort)
    as (w' & rows & rowsb & _ & _ & E & Hh & _ & _ & Ht).
  exists w', (table_of rows), (table_of rowsb), (length rows), (length rowsb).
  eexists. split; [exact E|]. rewrite Hh, result_low, result_high.
  do 2 (split; [reflexivity|]).
  split; [intros col; apply table_of_columns|].
  split; [intros col; apply table_of_columns|].
  rewrite Ht. unfold effects. reflexivity.
Qed.

Lemma X19_logged_counts_witness :
  exists (w' : World) (low high : list Column) (n nb : nat)
         (evs : list Event),
    run (Toy.toy_sep (fun _ => Toy.twins) (fun _ => 1%float)) setup 0
        Toy.world0 = Ok tt w' /\
    pd_tables (heap w' 0%nat) !! "Low Threshold Sources" = Some low /\
    pd_tables (heap w' 0%nat) !! "High Threshold Sources" = Some high /\
    (forall col : Column, In col low -> length (col_array col) = n) /\
    (forall col : Column, In col high -> length (col_array col) = nb) /\
    trace w'
    = trace Toy.world0
      ++ EvLog "debug"
               "Selected %d high thershold stars from Source Extrator catalog"
               [HInt (Z.of_nat n)]
      :: EvLog "debug"
               "Selected %d low thershold stars from Source Extrator catalog"
               [HInt (Z.of_nat nb)]
      :: evs.
Proof.
  apply (X19_logged_counts
           (Toy.toy_sep (fun _ => Toy.twins) (fun _ => 1%float)) setup 0
           Toy.world0 (HInt 2) "binning").
  - vm_compute. reflexivity.
  - exact argsort_stable_ok.
Defined.

End SrcExtMore.

(** ** The data object over a FITS header *)

Lemma setheadval_fits_bad (r : nat) (key : string) (x : float) (c : string)
      (w : World) :
  PrimFloat.is_finite x = false ->
  setheadval_fits r key (HFloat x) c w = Raise ValueError w.
Proof. intros H. unfold setheadval_fits. simpl. rewrite H. reflexivity. Qed.

Lemma getheadval_fits_None (r : nat) (key : string) (w : World) :
  pd_header (heap w r) !! key = None ->
  getheadval_fits r key w
  = Raise (KeyError (missing_keyword key))
          (mkWorld (heap w) (dataout w)
                   (trace w ++ [EvLog "error"
                                      ("GetHeadVal: " +:+ missing_keyword key)
                                      []])).
Proof.
  intros H. unfold getheadval_fits, deref, mbind, M_bind. rewrite H.
  reflexivity.
Qed.

Section EvolvesFits.

Variables (w0 w1 : World) (r : nat) (d : PipeData) (evs : list Event)
          (o : option nat).
Hypothesis H : evolves w0 w1 r d evs o.

Lemma getheadval_fits_step (key : string) (v : HVal) (c : string) :
  pd_header d !! key = Some (v, c) -> getheadval_fits r key w1 = Ok v w1.
Proof.
  intros Hk. unfold getheadval_fits.
  rewrite (bind_Ok _ _ _ _ _ (deref_step _ _ _ _ _ _ H)).
  rewrite Hk. reflexivity.
Qed.

Lemma setheadval_fits_step (key : string) (x : float) (c : string) :
  PrimFloat.is_finite x = true ->
  exists w2 : World,
    setheadval_fits r key (HFloat x) c w1 = Ok tt w2 /\
    evolves w0 w2 r
            (mkPipeData (<[key := (HFloat x, c)]> (pd_header d)) (pd_image d)
                        (pd_tables d) (pd_filename d) (pd_filenamebegin d))
            evs o.
Proof.
  intros Hx. unfold setheadval_fits. simpl. rewrite Hx.
  apply (update_step _ _ _ _ _ _ H).
Qed.

End EvolvesFits.

(** One step of a run, for a run that returns ([bnd] applies [bind_ex]) or
    for one that will raise ([bnd] applies [bind_ex_Raise]). *)
Ltac effect_step_with bnd Hw lem :=
  let w2 := fresh "w" in
  let E := fresh "E" in
  let H2 := fresh "Hw" in
  destruct lem as (w2 & E & H2);
  bnd; [exact E|];
  clear E Hw; rename H2 into Hw.

Ltac step_with bnd Hw :=
  lazymatch goal with
  | |- ex (fun w' => (?m ≫= _) _ = _ /\ _) =>
      let m' := eval cbv beta delta [log setheadval tableset set_image] in m in
      lazymatch m' with
      | emit ?ev =>
          effect_step_with bnd Hw (emit_step _ _ _ _ _ _ Hw ev)
      | (if ?b then emit ?ev else mret tt) =>
          effect_step_with bnd Hw (emit_if_step _ _ _ _ _ _ Hw b ev)
      | (if ?b then mret tt else emit ?ev) =>
          effect_step_with bnd Hw (emit_unless_step _ _ _ _ _ _ Hw b ev)
      | update _ ?f =>
          effect_step_with bnd Hw (update_step _ _ _ _ _ _ Hw f);
          cbn [pd_header pd_image pd_tables pd_filename pd_filenamebegin]
            in Hw
      | setheadval_fits _ ?k (HFloat _) ?c =>
          match goal with
          | Hf : PrimFloat.is_finite _ = true |- _ =>
              effect_step_with bnd Hw
                               (setheadval_fits_step _ _ _ _ _ _ Hw k _ c Hf);
              cbn [pd_header pd_image pd_tables pd_filename pd_filenamebegin]
                in Hw
          end
      | set_dataout _ =>
          effect_step_with bnd Hw (set_dataout_step _ _ _ _ _ _ Hw)
      | get_dataout =>
          bnd; [eapply (get_dataout_step _ _ _ _ _ _ Hw); reflexivity|]
      | deref _ =>
          bnd; [exact (deref_step _ _ _ _ _ _ Hw)|]
      end
  end.

Ltac pure_step_with bnd tac := bnd; [tac|].

(** The run has come to a header write that the header refuses. *)
Ltac refused Hw Hbad :=
  eexists; split;
  [apply bind_Raise, setheadval_fits_bad; exact Hbad|].

(** One step of a run that will raise. *)
Ltac step_r Hw := step_with ltac:(eapply bind_ex_Raise) Hw.

Ltac pure_step_r tac := pure_step_with ltac:(eapply bind_ex_Raise) tac.

(** ** The flux calibration step: more of what [run] does *)

Section FluxCalMore.

Import StepFluxCalSex FluxCalPairs.

(** X11: a filter the catalog has no column for.  When the header, the
    files and the catalog service are in order and the query table has no
    column SDSS<filter>Mag for the part of FILTER before the first dash,
    the step raises KeyError with the name of that column.  By then the
    source extractor has run and the catalog has been queried; no fit is
    asked for. *)
Theorem X11_fluxcal_unknown_filter (lib : Lib) (args : Args) (datain : nat)
        (w : World) (v : HVal) (c cra cdec cf : string) (last : ascii)
        (seo : list SexRow) (ra dec filter text : string)
        (center : float * float) (table : gmap string (list float))
        (col : list float) :
  let d := heap w datain in
  pd_header d !! "XBIN" = Some (v, c) ->
  last_char (pd_filenamebegin d) = Some last ->
  table_read lib (catfilename d last) = inr seo ->
  pd_header d !! "RA" = Some (HStr ra, cra) ->
  pd_header d !! "DEC" = Some (HStr dec, cdec) ->
  SkyCoord lib (center_text ra dec) = inr center ->
  requests_get lib (gsc2_query lib center) = inr text ->
  pd_header d !! "FILTER" = Some (HStr filter, cf) ->
  ascii_read lib text = inr table ->
  table !! "ra" = Some col ->
  table !! ("SDSS" +:+ filter_name filter +:+ "Mag") = None ->
  exists (w' : World) (evs : list Event),
    run lib args datain w
    = Raise (KeyError ("SDSS" +:+ filter_name filter +:+ "Mag")) w' /\
    trace w' = trace w ++ evs /\
    actions evs
    = (if path_exists lib (pd_filename d) then [] else [EvSave datain])
      ++ [EvPopen (command lib args d last)]
      ++ (if delete_cat args then [EvRemove (catfilename d last)] else [])
      ++ [EvHttpGet (gsc2_query lib center)].
Proof.
  intros d HX Hlast Htab HRA HDEC Hsky Hget HF Hascii Hra Hnone.
  subst d.
  cut (exists w' : World,
          run lib args datain w
          = Raise (KeyError ("SDSS" +:+ filter_name filter +:+ "Mag")) w' /\
          exists evs : list Event,
            evolves w w' datain (heap w datain) evs (dataout w) /\
            actions evs
            = (if path_exists lib (pd_filename (heap w datain))
               then [] else [EvSave datain])
              ++ [EvPopen (command lib args (heap w datain) last)]
              ++ (if delete_cat args
                  then [EvRemove (catfilename (heap w datain) last)]
                  else [])
              ++ [EvHttpGet (gsc2_query lib center)]).
  { intros (w' & E & evs & (_ & _ & _ & Ht) & Ha). exists w', evs. auto. }
  pose proof (evolves_refl w datain) as Hw.
  unfold run, run_on.
  pure_step_r ltac:(eapply (getheadval_step _ _ _ _ _ _ Hw); eassumption).
  step_r Hw. step_r Hw. step_r Hw.
  pure_step_r ltac:(apply or_raise_Some; exact Hlast).
  cbv beta zeta.
  step_r Hw. step_r Hw. step_r Hw. step_r Hw. step_r Hw.
  pure_step_r ltac:(apply lift_sum_inr; exact Htab).
  step_r Hw. step_r Hw.
  pure_step_r ltac:(eapply (getheadval_step _ _ _ _ _ _ Hw); eassumption).
  pure_step_r ltac:(reflexivity).
  pure_step_r ltac:(eapply (getheadval_step _ _ _ _ _ _ Hw); eassumption).
  pure_step_r ltac:(reflexivity).
  pure_step_r ltac:(apply lift_sum_inr; exact Hsky).
  step_r Hw. step_r Hw. step_r Hw.
  pure_step_r ltac:(apply lift_sum_inr; exact Hget).
  pure_step_r ltac:(eapply (getheadval_step _ _ _ _ _ _ Hw); eassumption).
  pure_step_r ltac:(reflexivity).
  pure_step_r ltac:(apply or_raise_Some, split_head).
  pure_step_r ltac:(apply lift_sum_inr; exact Hascii).
  pure_step_r ltac:(apply or_raise_Some; exact Hra).
  eexists. split; [apply bind_Raise, or_raise_None; exact Hnone|].
  eexists. split; [exact Hw|].
  destruct (path_exists lib _), (verbose args), (delete_cat args);
    reflexivity.
Qed.

Lemma X11_fluxcal_unknown_filter_witness :
  let d := mkPipeData {[ "XBIN" := (HInt 2, "binning");
                         "RA" := (HStr "10:00:00", "");
                         "DEC" := (HStr "+20:00:00", "");
                         "FILTER" := (HStr "clear", "") ]}
                      [[1; 2]; [3; 5]]%float ∅ "img.fits" "img." in
  let w := mkWorld (fun _ => d) None [] in
  exists (w' : World) (evs : list Event),
    run ToyCal.lib3 setup 0 w = Raise (KeyError "SDSSclearMag") w' /\
    trace w' = trace w ++ evs /\
    actions evs
    = (if path_exists ToyCal.lib3 (pd_filename d) then [] else [EvSave 0%nat])
      ++ [EvPopen (command ToyCal.lib3 setup d ".")]
      ++ (if delete_cat setup then [EvRemove (catfilename d ".")] else [])
      ++ [EvHttpGet (gsc2_query ToyCal.lib3 (150, 20)%float)].
Proof.
  intros d w.
  apply (X11_fluxcal_unknown_filter
           ToyCal.lib3 setup 0 w (HInt 2) "binning" "" "" "" "."%char
           ToyCal.seo "10:00:00" "+20:00:00" "clear" "" (150, 20)%float
           ToyCal.table3 [150.0001; 150.25; 150.5]%float);
    vm_compute; reflexivity.
Defined.

(** X12: what a completed run leaves in the header, besides the zero
    point: its uncertainty, which is written as 0.0 whatever the fit was.
    The other keywords keep their values and comments, and the tables and
    the file names of the object are as they were. *)
Theorem X12_fluxcal_keeps_the_rest (lib : Lib) (args : Args) (datain : nat)
        (w : World) (i : Inputs) :
  ready lib (heap w datain) i ->
  exists w' : World,
    run lib args datain w = Ok tt w' /\
    pd_header (heap w' datain) !! "PHOTZPER"
    = Some (HFloat 0.0, "Uncertainty of the photometric zeropoint") /\
    (forall key : string,
        ~ In key ["PHOTZP"; "PHOTZPER"] ->
        pd_header (heap w' datain) !! key
        = pd_header (heap w datain) !! key) /\
    pd_tables (heap w' datain) = pd_tables (heap w datain) /\
    pd_filename (heap w' datain) = pd_filename (heap w datain) /\
    pd_filenamebegin (heap w' datain) = pd_filenamebegin (heap w datain).
Proof.
  intros Hr.
  destruct (fluxcal_run_spec lib args datain w i Hr) as (w' & E & Hh & _).
  exists w'. split; [exact E|]. rewrite Hh. unfold result.
  cbn [pd_header pd_image pd_tables pd_filename pd_filenamebegin].
  split; [apply lookup_insert_eq|]. split; [|auto].
  intros key Hk.
  rewrite !lookup_insert_ne by (intros <-; apply Hk; simpl; tauto).
  reflexivity.
Qed.

Lemma X12_fluxcal_keeps_the_rest_witness :
  exists w' : World,
    run ToyCal.lib3 setup 0 ToyCal.world0 = Ok tt w' /\
    pd_header (heap w' 0%nat) !! "PHOTZPER"
    = Some (HFloat 0.0, "Uncertainty of the photometric zeropoint") /\
    (forall key : string,
        ~ In key ["PHOTZP"; "PHOTZPER"] ->
        pd_header (heap w' 0%nat) !! key
        = pd_header (heap ToyCal.world0 0%nat) !! key) /\
    pd_tables (heap w' 0%nat) = pd_tables (heap ToyCal.world0 0%nat) /\
    pd_filename (heap w' 0%nat) = pd_filename (heap ToyCal.world0 0%nat) /\
    pd_filenamebegin (heap w' 0%nat)
    = pd_filenamebegin (heap ToyCal.world0 0%nat).
Proof.
  apply (X12_fluxcal_keeps_the_rest ToyCal.lib3 setup 0 ToyCal.world0
                                    ToyCal.inputs3).
  prove_ready.
Defined.

(** X13: what a completed run does outside, log lines apart, in order: it
    saves the input if its file does not exist, starts the source
    extractor once, removes the catalog file if delete_cat is set, sends
    one request to the catalog service and asks for one fit.  It writes no
    other file and starts no other process. *)
Theorem X13_fluxcal_actions (lib : Lib) (args : Args) (datain : nat)
        (w : World) (i : Inputs) :
  ready lib (heap w datain) i ->
  let d := heap w datain in
  exists (w' : World) (evs : list Event),
    run lib args datain w = Ok tt w' /\
    trace w' = trace w ++ evs /\
    actions evs
    = (if path_exists lib (pd_filename d) then [] else [EvSave datain])
      ++ [EvPopen (command lib args d (in_last i))]
      ++ (if delete_cat args
          then [EvRemove (catfilename d (in_last i))] else [])
      ++ [ EvHttpGet (gsc2_query lib (in_center i));
           EvMinimize (1, -2)%float (fit_x i) (fit_data lib i)
                      (fit_errors lib i) ].
Proof.
  intros Hr d.
  destruct (fluxcal_run_spec lib args datain w i Hr)
    as (w' & E & _ & _ & _ & Ht).
  exists w', (effects lib args datain (heap w datain) i).
  split; [exact E|]. split; [exact Ht|].
  unfold effects. subst d.
  destruct (path_exists lib _), (verbose args), (delete_cat args);
    reflexivity.
Qed.

Lemma X13_fluxcal_actions_witness :
  let d := heap ToyCal.world0 0%nat in
  exists (w' : World) (evs : list Event),
    run ToyCal.lib3 setup 0 ToyCal.world0 = Ok tt w' /\
    trace w' = trace ToyCal.world0 ++ evs /\
    actions evs
    = (if path_exists ToyCal.lib3 (pd_filename d) then [] else [EvSave 0%nat])
      ++ [EvPopen (command ToyCal.lib3 setup d (in_last ToyCal.inputs3))]
      ++ (if delete_cat setup
          then [EvRemove (catfilename d (in_last ToyCal.inputs3))] else [])
      ++ [ EvHttpGet (gsc2_query ToyCal.lib3 (in_center ToyCal.inputs3));
           EvMinimize (1, -2)%float (fit_x ToyCal.inputs3)
                      (fit_data ToyCal.lib3 ToyCal.inputs3)
                      (fit_errors ToyCal.lib3 ToyCal.inputs3) ].
Proof.
  apply (X13_fluxcal_actions ToyCal.lib3 setup 0 ToyCal.world0
                             ToyCal.inputs3).
  prove_ready.
Defined.


Lemma concat_split (c b : ascii) (s : string) :
  String.concat (String b EmptyString) (split c s) = replace_char c b s.
Proof.
  induction s as [|a s IH]; [reflexivity|].
  simpl. destruct (split_cons c s) as (h & t & Hs).
  rewrite Hs in IH |- *. rewrite <- IH.
  destruct (Ascii.eqb a c); [reflexivity|].
  destruct t; reflexivity.
Qed.

Lemma replace_char_length (a b : ascii) (s : string) :
  String.length (replace_char a b s) = String.length s.
Proof. induction s as [|c s IH]; simpl; congruence. Qed.

Lemma replace_char_gone (a b : ascii) (s : string) :
  a <> b -> ~ In a (chars (replace_char a b s)).
Proof.
  intros Hab. induction s as [|c s IH]; simpl; [tauto|].
  intros [H|H]; [|exact (IH H)].
  destruct (Ascii.eqb_spec c a); congruence.
Qed.

Lemma chars_app (s t : string) : chars (s +:+ t) = chars s ++ chars t.
Proof.
  induction s as [|c s IH]; [reflexivity|].
  change (String c s +:+ t) with (String c (s +:+ t)).
  simpl. congruence.
Qed.

Lemma length_app_string (s t : string) :
  String.length (s +:+ t) = (String.length s + String.length t)%nat.
Proof.
  induction s as [|c s IH]; [reflexivity|].
  change (String c s +:+ t) with (String c (s +:+ t)).
  simpl. congruence.
Qed.

(** X14: the position the step gives to SkyCoord: splitting the header
    value at the colons and joining the parts with spaces replaces each
    colon by a space and changes nothing else.  The text is the right
    ascension and the declination so rewritten, with one space between
    them; it holds no colon. *)
Theorem X14_position_text (ra dec : string) :
  center_text ra dec
  = replace_char ":" " " ra +:+ " " +:+ replace_char ":" " " dec /\
  String.length (center_text ra dec)
  = (String.length ra + 1 + String.length dec)%nat /\
  ~ In ":"%char (chars (center_text ra dec)).
Proof.
  unfold center_text. rewrite !concat_split.
  split; [reflexivity|]. split.
  - rewrite !length_app_string, !replace_char_length. simpl. lia.
  - rewrite !chars_app, !in_app_iff. simpl.
    intros [H|[[H|[]]|H]]; try discriminate;
      revert H; apply replace_char_gone; discriminate.
Qed.

Lemma split_no_sep (c : ascii) (p : string) :
  ~ In c (chars p) -> split c p = [p].
Proof.
  induction p as [|a p IH]; simpl; [reflexivity|]. intros H.
  destruct (Ascii.eqb_spec a c) as [->|_]; [tauto|].
  rewrite IH by tauto. reflexivity.
Qed.

Lemma split_app_sep (c : ascii) (p rest : string) :
  ~ In c (chars p) -> split c (p +:+ String c rest) = p :: split c rest.
Proof.
  induction p as [|a p IH]; simpl; intros H.
  - rewrite Ascii.eqb_refl. reflexivity.
  - destruct (Ascii.eqb_spec a c) as [->|_]; [tauto|].
    rewrite IH by tauto. reflexivity.
Qed.

(** X15: the name of the filter is the part of the header value before
    its first dash, and the whole value when it has no dash. *)
Theorem X15_filter_name_is_the_part_before_the_dash (p rest : string) :
  ~ In "-"%char (chars p) ->
  filter_name p = p /\ filter_name (p +:+ "-" +:+ rest) = p.
Proof.
  intros H. unfold filter_name. split.
  - rewrite (split_no_sep _ _ H). reflexivity.
  - change ("-" +:+ rest) with (String "-" rest).
    rewrite (split_app_sep _ _ _ H). reflexivity.
Qed.

Lemma X15_filter_name_is_the_part_before_the_dash_witness :
  filter_name "r" = "r" /\ filter_name ("r" +:+ "-" +:+ "band") = "r".
Proof.
  apply (X15_filter_name_is_the_part_before_the_dash "r" "band").
  simpl. intros [H|[]]. discriminate.
Defined.

Lemma lookup_map_at {X Y} (f : X -> Y) (l : list X) (k : nat) (x : X) :
  l !! k = Some x -> map f l !! k = Some (f x).
Proof.
  revert k. induction l as [|x0 l IH]; intros [|k]; simpl; try discriminate.
  - intros [= <-]. reflexivity.
  - apply IH.
Qed.

Lemma rescaled_nan (b z p : float) :
  is_nan p = true -> is_nan (b * (p - z))%float = true.
Proof.
  rewrite !FlFacts.is_nan_Prim2SF, mul_spec, sub_spec. intros ->.
  destruct (Prim2SF b); reflexivity.
Qed.

(** X16: the rescaled image has the shape of the image it is made from,
    row by row, and a pixel that is NaN in the input is NaN in the
    output. *)
Theorem X16_rescaling_keeps_shape_and_nan (lib : Lib) (args : Args)
        (datain : nat) (w : World) (i : Inputs) :
  ready lib (heap w datain) i ->
  exists w' : World,
    run lib args datain w = Ok tt w' /\
    length (pd_image (heap w' datain)) = length (pd_image (heap w datain)) /\
    (forall (y : nat) (row : list float),
        pd_image (heap w datain) !! y = Some row ->
        exists row' : list float,
          pd_image (heap w' datain) !! y = Some row' /\
          length row' = length row /\
          (forall (x : nat) (p : float),
              row !! x = Some p -> is_nan p = true ->
              exists q : float, row' !! x = Some q /\ is_nan q = true)).
Proof.
  intros Hr.
  destruct (fluxcal_run_spec lib args datain w i Hr) as (w' & E & Hh & _).
  exists w'. split; [exact E|]. rewrite Hh. unfold result. cbn [pd_image].
  split; [apply length_map|].
  intros y row Hy. eexists. split; [apply lookup_map_at, Hy|].
  split; [apply length_map|].
  intros x p Hx Hp. eexists. split; [apply lookup_map_at, Hx|].
  apply rescaled_nan, Hp.
Qed.

Lemma X16_rescaling_keeps_shape_and_nan_witness :
  exists w' : World,
    run ToyCal.lib3 setup 0 ToyCal.world0 = Ok tt w' /\
    length (pd_image (heap w' 0%nat))
    = length (pd_image (heap ToyCal.world0 0%nat)) /\
    (forall (y : nat) (row : list float),
        pd_image (heap ToyCal.world0 0%nat) !! y = Some row ->
        exists row' : list float,
          pd_image (heap w' 0%nat) !! y = Some row' /\
          length row' = length row /\
          (forall (x : nat) (p : float),
              row !! x = Some p -> is_nan p = true ->
              exists q : float, row' !! x = Some q /\ is_nan q = true)).
Proof.
  apply (X16_rescaling_keeps_shape_and_nan ToyCal.lib3 setup 0 ToyCal.world0
                                           ToyCal.inputs3).
  prove_ready.
Defined.

Lemma sublist_List_filter {X} (p : X -> bool) (l : list X) :
  List.filter p l `sublist_of` l.
Proof.
  induction l as [|x l IH]; simpl; [constructor|].
  destruct (p x); constructor; exact IH.
Qed.

Lemma sublist_map {X Y} (f : X -> Y) (l1 l2 : list X) :
  l1 `sublist_of` l2 -> map f l1 `sublist_of` map f l2.
Proof. induction 1; simpl; constructor; assumption. Qed.

Lemma take_Some_In {X} (l l' : list X) (idx : list nat) (x : X) :
  Np.take l idx = Some l' -> In x l' -> In x l.
Proof.
  intros H Hx. destruct (take_Some_inv x l l' idx H) as [HF ->].
  apply in_map_iff in Hx as (k & <- & Hk).
  rewrite Forall_forall in HF. apply nth_In, HF, Hk.
Qed.

(** X17: what reaches the fit has passed the cuts.  The catalog magnitudes
    given to the minimiser are entries of the filter column of the query
    table, in the order of the table and each table entry at most once,
    every one of them above 0 and below 22; the instrumental magnitudes
    are those of sources of the extractor catalog that pass the cut on
    flux over uncertainty; and the three arrays of the fit have the same
    length. *)
Theorem X17_fit_inputs_pass_the_cuts (lib : Lib) (args : Args) (datain : nat)
        (w : World) (i : Inputs) :
  ready lib (heap w datain) i ->
  exists (w' : World) (col : list float),
    run lib args datain w = Ok tt w' /\
    In (EvMinimize (1, -2)%float (fit_x i) (fit_data lib i)
                   (fit_errors lib i)) (trace w') /\
    in_table i !! ("SDSS" +:+ filter_name (in_filter i) +:+ "Mag")
    = Some col /\
    fit_x i `sublist_of` col /\
    Forall (fun m => (0 <? m)%float = true /\ (m <? 22)%float = true)
           (fit_x i) /\
    Forall (fun s => exists r : SexRow,
                In r (in_seo i) /\ is_star r = true /\ s = star_mag lib r)
           (fit_data lib i) /\
    length (fit_data lib i) = length (fit_x i) /\
    length (fit_errors lib i) = length (fit_x i).
Proof.
  intros Hr.
  destruct (fluxcal_run_spec lib args datain w i Hr)
    as (w' & E & _ & _ & _ & Ht).
  destruct Hr as (_ & _ & _ & _ & _ & _ & _ & _ & _ & _ & _ & Hmag & _ & _
                  & Hpairs).
  destruct (pairs_of_columns _ _ _ _ Hpairs) as (H1 & _ & H3).
  exists w', (map e_mag (in_rows i)).
  split; [exact E|].
  split; [rewrite Ht; apply in_or_app; right; apply minimize_in_effects|].
  split; [exact Hmag|].
  unfold fit_x, fit_data, fit_errors, retained.
  split; [|split; [|split; [|rewrite !length_map; auto]]].
  - etransitivity; [apply sublist_map, sublist_List_filter|].
    change (map gsc_mag (in_pairs i))
      with (map (fun p => e_mag (p_entry p)) (in_pairs i)).
    rewrite <- (map_map p_entry e_mag), H1.
    apply sublist_map, sublist_List_filter.
  - apply Forall_forall. intros m Hm.
    apply in_map_iff in Hm as (p & <- & Hp).
    apply filter_In in Hp as [Hp _].
    assert (Hu : In (p_entry p) (List.filter is_usable (in_rows i)))
      by (rewrite <- H1; apply in_map, Hp).
    apply filter_In in Hu as [_ Hu]. unfold is_usable in Hu.
    apply andb_true_iff in Hu as [Hlt Hgt]. split; assumption.
  - apply Forall_forall. intros s Hs.
    apply in_map_iff in Hs as (p & <- & Hp).
    apply filter_In in Hp as [Hp _].
    assert (Hstar : In (p_star p) (List.filter is_star (in_seo i)))
      by (eapply take_Some_In; [exact H3|apply in_map, Hp]).
    apply filter_In in Hstar as [Hin Hstar].
    exists (p_star p). auto.
Qed.

Lemma X17_fit_inputs_pass_the_cuts_witness :
  exists (w' : World) (col : list float),
    run ToyCal.lib3 setup 0 ToyCal.world0 = Ok tt w' /\
    In (EvMinimize (1, -2)%float (fit_x ToyCal.inputs3)
                   (fit_data ToyCal.lib3 ToyCal.inputs3)
                   (fit_errors ToyCal.lib3 ToyCal.inputs3)) (trace w') /\
    in_table ToyCal.inputs3
      !! ("SDSS" +:+ filter_name (in_filter ToyCal.inputs3) +:+ "Mag")
    = Some col /\
    fit_x ToyCal.inputs3 `sublist_of` col /\
    Forall (fun m => (0 <? m)%float = true /\ (m <? 22)%float = true)
           (fit_x ToyCal.inputs3) /\
    Forall (fun s => exists r : SexRow,
                In r (in_seo ToyCal.inputs3) /\ is_star r = true /\
                s = star_mag ToyCal.lib3 r)
           (fit_data ToyCal.lib3 ToyCal.inputs3) /\
    length (fit_data ToyCal.lib3 ToyCal.inputs3)
    = length (fit_x ToyCal.inputs3) /\
    length (fit_errors ToyCal.lib3 ToyCal.inputs3)
    = length (fit_x ToyCal.inputs3).
Proof.
  apply (X17_fit_inputs_pass_the_cuts ToyCal.lib3 setup 0 ToyCal.world0
                                      ToyCal.inputs3).
  prove_ready.
Defined.

(** X20: a catalog file that cannot be read.  The step does not look at
    how the source extractor ended: it reads the catalog file, and the
    exception of the reader is the exception of the step.  By then the
    extractor has been started; the catalog service is not queried and no
    fit is asked for. *)
Theorem X20_fluxcal_unreadable_catalog (lib : Lib) (args : Args)
        (datain : nat) (w : World) (v : HVal) (c : string) (last : ascii)
        (e : Exn) :
  let d := heap w datain in
  pd_header d !! "XBIN" = Some (v, c) ->
  last_char (pd_filenamebegin d) = Some last ->
  table_read lib (catfilename d last) = inl e ->
  exists (w' : World) (evs : list Event),
    run lib args datain w = Raise e w' /\
    trace w' = trace w ++ evs /\
    actions evs
    = (if path_exists lib (pd_filename d) then [] else [EvSave datain])
      ++ [EvPopen (command lib args d last)].
Proof.
  intros d HX Hlast Htab. subst d.
  cut (exists w' : World,
          run lib args datain w = Raise e w' /\
          exists evs : list Event,
            evolves w w' datain (heap w datain) evs (dataout w) /\
            actions evs
            = (if path_exists lib (pd_filename (heap w datain))
               then [] else [EvSave datain])
              ++ [EvPopen (command lib args (heap w datain) last)]).
  { intros (w' & E & evs & (_ & _ & _ & Ht) & Ha). exists w', evs. auto. }
  pose proof (evolves_refl w datain) as Hw.
  unfold run, run_on.
  pure_step_r ltac:(eapply (getheadval_step _ _ _ _ _ _ Hw); eassumption).
  step_r Hw. step_r Hw. step_r Hw.
  pure_step_r ltac:(apply or_raise_Some; exact Hlast).
  cbv beta zeta.
  step_r Hw. step_r Hw. step_r Hw. step_r Hw. step_r Hw.
  eexists. split.
  - apply bind_Raise.
    change (catfilename (heap w datain) last)
      with (if bool_decide (last ∈ ["."; "_"; "-"]%char)
            then pd_filenamebegin (heap w datain) +:+ "sex_cat.fits"
            else pd_filenamebegin (heap w datain) +:+ ".sex_cat.fits")
      in Htab.
    rewrite Htab. reflexivity.
  - eexists. split; [exact Hw|].
    destruct (path_exists lib _), (verbose args); reflexivity.
Qed.

Lemma X20_fluxcal_unreadable_catalog_witness :
  let lib :=
    mkLib (fun _ => true) (fun s => s) (fun _ a => "sex " +:+ a)
          (fun _ => "") (fun _ => inl (OtherError "No such file"))
          (fun x => x) (fun x => x) (fun _ => inr (150, 20)%float)
          (fun _ => "0.0") (fun _ => inr "") (fun _ => inr ∅)
          ToyCal.toy_match (fun _ x0 => x0) (fun _ _ => 0%float)
          (fun _ _ => 1%float) in
  let d := heap ToyCal.world0 0%nat in
  exists (w' : World) (evs : list Event),
    run lib setup 0 ToyCal.world0 = Raise (OtherError "No such file") w' /\
    trace w' = trace ToyCal.world0 ++ evs /\
    actions evs
    = (if path_exists lib (pd_filename d) then [] else [EvSave 0%nat])
      ++ [EvPopen (command lib setup d ".")].
Proof.
  intros lib d.
  apply (X20_fluxcal_unreadable_catalog lib setup 0 ToyCal.world0 (HInt 2)
                                        "binning" "."%char
                                        (OtherError "No such file"));
    vm_compute; reflexivity.
Defined.

Lemma is_nan_add_l (x y : float) :
  is_nan x = true -> is_nan (x + y)%float = true.
Proof.
  rewrite !FlFacts.is_nan_Prim2SF, add_spec. intros ->. reflexivity.
Qed.

Lemma is_nan_add_r (x y : float) :
  is_nan y = true -> is_nan (x + y)%float = true.
Proof.
  rewrite !FlFacts.is_nan_Prim2SF, add_spec. intros ->.
  destruct (Prim2SF x); reflexivity.
Qed.

Lemma is_nan_sub_l (x y : float) :
  is_nan x = true -> is_nan (x - y)%float = true.
Proof.
  rewrite !FlFacts.is_nan_Prim2SF, sub_spec. intros ->. reflexivity.
Qed.

Lemma is_nan_sub_r (x y : float) :
  is_nan y = true -> is_nan (x - y)%float = true.
Proof.
  rewrite !FlFacts.is_nan_Prim2SF, sub_spec. intros ->.
  destruct (Prim2SF x); reflexivity.
Qed.

Lemma is_nan_mul_l (x y : float) :
  is_nan x = true -> is_nan (x * y)%float = true.
Proof.
  rewrite !FlFacts.is_nan_Prim2SF, mul_spec. intros ->. reflexivity.
Qed.

Lemma is_nan_mul_r (x y : float) :
  is_nan y = true -> is_nan (x * y)%float = true.
Proof.
  rewrite !FlFacts.is_nan_Prim2SF, mul_spec. intros ->.
  destruct (Prim2SF x); reflexivity.
Qed.

Lemma is_nan_sqrt (x : float) :
  is_nan x = true -> is_nan (PrimFloat.sqrt x) = true.
Proof.
  rewrite !FlFacts.is_nan_Prim2SF, sqrt_spec. intros ->. reflexivity.
Qed.

Lemma is_nan_opp (x : float) :
  is_nan x = true -> is_nan (- x)%float = true.
Proof.
  rewrite !FlFacts.is_nan_Prim2SF, opp_spec. intros ->. reflexivity.
Qed.

Lemma is_nan_fold_add (l : list float) (acc : float) :
  is_nan acc = true -> is_nan (fold_left PrimFloat.add l acc) = true.
Proof.
  revert acc. induction l as [|x l IH]; simpl; intros acc H; [exact H|].
  apply IH, is_nan_add_l, H.
Qed.

Lemma is_nan_sum (l : list float) (x : float) :
  In x l -> is_nan x = true -> is_nan (Fl.sum l) = true.
Proof.
  unfold Fl.sum. generalize 0%float.
  induction l as [|y l IH]; simpl; intros acc Hin Hx; [destruct Hin|].
  destruct Hin as [<-|Hin].
  - apply is_nan_fold_add, is_nan_add_r, Hx.
  - apply IH; assumption.
Qed.

(** X21: the catalog entries are selected by their magnitude alone, and
    nothing in the step looks at the uncertainties of a pair.  When the
    combined uncertainty of one of the pairs, or one of its two
    magnitudes, is NaN, the objective the minimiser is given is NaN for
    every slope and intercept; the uncertainty of a pair is NaN as soon as
    that of its catalog entry is. *)
Theorem X21_nan_in_a_pair_spoils_the_objective (lib : Lib)
        (pairs : list Pair) (q : Pair) (params : float * float) :
  In q pairs ->
  is_nan (e_magerr (p_entry q)) = true \/
  is_nan (combined_err lib q) = true \/
  is_nan (gsc_mag q) = true \/ is_nan (seo_mag lib q) = true ->
  is_nan (objective lib pairs params) = true.
Proof.
  intros Hq Hnan. destruct params as [m c].
  rewrite objective_pairwise.
  apply is_nan_opp, is_nan_mul_r.
  apply (is_nan_sum _ _ (in_map _ _ _ Hq)).
  destruct Hnan as [H|[H|[H|H]]].
  - apply is_nan_mul_r, FlFacts.div_nan_r. unfold Fl.square.
    apply is_nan_mul_l. unfold combined_err.
    apply is_nan_sqrt, is_nan_add_l. unfold Fl.square.
    apply is_nan_mul_l, H.
  - apply is_nan_mul_r, FlFacts.div_nan_r. unfold Fl.square.
    apply is_nan_mul_l, H.
  - apply is_nan_mul_l. unfold Fl.square.
    apply is_nan_mul_l, is_nan_sub_r, is_nan_add_l, is_nan_mul_r, H.
  - apply is_nan_mul_l. unfold Fl.square.
    apply is_nan_mul_l, is_nan_sub_l, H.
Qed.

Lemma X21_nan_in_a_pair_spoils_the_objective_witness :
  let q := mkPair (mkEntry 150 20 3.5 Fl.nan) (mkSexRow 128 4 128 150 20) 0 in
  is_nan (objective ToyCal.lib3 [q] (1, -2)%float) = true.
Proof.
  intros q.
  apply (X21_nan_in_a_pair_spoils_the_objective ToyCal.lib3 [q] q
                                                (1, -2)%float).
  - left. reflexivity.
  - left. reflexivity.
Defined.

End FluxCalMore.

(** ** The source extraction step, run with other parameters and run again *)

Section SrcExtAgain.

Import StepSrcExtPy SrcExtRows.

(** X23: the table of the high threshold sources is a table of low
    threshold sources: the one a run leaves whose threshold is the
    threshold times the bright factor and whose deblending parameter is
    32, the default of the extraction, the other parameters being the
    same. *)
Theorem X23_high_table_is_a_low_table (lib : Sep) (args : Args)
        (datain : nat) (w : World) (v : HVal) (c : string) :
  pd_header (heap w datain) !! "XBIN" = Some (v, c) ->
  argsort_ok (argsort lib) ->
  let args' :=
    mkArgs (sourcetable args) (sourcetableformat args) (maskthreshold args)
           (backgroundwh args) (filterwh args) (fthreshold args)
           (extractthersh args * bfactor args)%float (bfactor args)
           32 (kronf args) in
  exists (w1 w2 : World) (t : list Column),
    run lib args datain w = Ok tt w1 /\
    run lib args' datain w = Ok tt w2 /\
    pd_tables (heap w1 datain) !! "High Threshold Sources" = Some t /\
    pd_tables (heap w2 datain) !! "Low Threshold Sources" = Some t.
Proof.
  intros HX Hsort args'.
  destruct (run_tables lib args datain w v c HX Hsort)
    as (w1 & rows & rowsb & _ & E2 & E & Hh & _).
  destruct (run_tables lib args' datain w v c HX Hsort)
    as (w2 & rows' & rowsb' & E1' & _ & E' & Hh' & _).
  exists w1, w2, (table_of rowsb).
  split; [exact E|]. split; [exact E'|].
  rewrite Hh, Hh', result_low, result_high.
  split; [reflexivity|].
  change (select lib args' (pd_image (heap w datain))
                 (low_sources lib args' (pd_image (heap w datain))))
    with (select lib args (pd_image (heap w datain))
                 (high_sources lib args (pd_image (heap w datain)))) in E1'.
  congruence.
Qed.

Lemma result_again (args : Args) (d : PipeData)
      (rows rowsb : list Measured) :
  result args (result args d rows rowsb) rows rowsb
  = result args d rows rowsb.
Proof.
  unfold result.
  cbn [pd_header pd_image pd_tables pd_filename pd_filenamebegin].
  f_equal.
  - repeat (rewrite insert_id
              by (rewrite ?lookup_insert_ne by discriminate;
                  apply lookup_insert_eq)).
    reflexivity.
  - repeat (rewrite insert_id
              by (rewrite ?lookup_insert_ne by discriminate;
                  apply lookup_insert_eq)).
    reflexivity.
Qed.

End SrcExtAgain.

(** ** The source extraction step on a FITS header *)

Section SrcExtFits.

Import StepSrcExtPy SrcExtRows.

Variable lib : Sep.
Variable args : Args.
Variable datain : nat.

(** From the first statement of the step to the assignment of [dataout]. *)
Ltac srcext_prefix bnd Hw Ho Hob Hs Hsb :=
  unfold run_fits, run_on;
  pure_step_with bnd
    ltac:(eapply (getheadval_fits_step _ _ _ _ _ _ Hw); eassumption);
  step_with bnd Hw;
  cbv beta zeta;
  pure_step_with bnd ltac:(apply or_raise_Some, take_arange_down);
  pure_step_with bnd ltac:(apply or_raise_Some; exact Ho);
  pure_step_with bnd ltac:(apply or_raise_Some, take_arange_down);
  pure_step_with bnd ltac:(apply or_raise_Some; exact Hob);
  pure_step_with bnd ltac:(apply or_raise_Some, take_arange_down);
  norm_columns;
  pure_step_with bnd ltac:(eapply sort_desc_columns; exact Hsb);
  pure_step_with bnd ltac:(eapply sort_desc_columns; exact Hsb);
  pure_step_with bnd ltac:(eapply sort_desc_self; exact Hsb);
  pure_step_with bnd ltac:(eapply sort_desc_columns; exact Hsb);
  pure_step_with bnd ltac:(apply or_raise_Some, take_arange_down);
  pure_step_with bnd ltac:(eapply sort_desc_columns; exact Hs);
  pure_step_with bnd ltac:(eapply sort_desc_columns; exact Hs);
  pure_step_with bnd ltac:(eapply sort_desc_self; exact Hs);
  pure_step_with bnd ltac:(eapply sort_desc_columns; exact Hs);
  norm_columns;
  rewrite !count_nonzero_map;
  step_with bnd Hw; step_with bnd Hw;
  do 12 pure_step_with bnd ltac:(apply index_mask_map);
  norm_columns;
  rewrite !length_map;
  step_with bnd Hw.

Lemma srcext_fits_ok (w : World) (v : HVal) (c : string)
      (rows rowsb : list Measured) :
  pd_header (heap w datain) !! "XBIN" = Some (v, c) ->
  select lib args (pd_image (heap w datain))
         (low_sources lib args (pd_image (heap w datain))) = Some rows ->
  select lib args (pd_image (heap w datain))
         (high_sources lib args (pd_image (heap w datain))) = Some rowsb ->
  forallb PrimFloat.is_finite (header_values args rows) = true ->
  exists w' : World,
    run_fits lib args datain w = Ok tt w' /\
    evolves w w' datain (result args (heap w datain) rows rowsb)
            (effects args (heap w datain) rows rowsb) (Some datain).
Proof.
  intros HX Hlow Hhigh Hfin.
  unfold select in Hlow, Hhigh.
  destruct (sort_desc lib src_flux (low_sources _ _ _)) as [objects|] eqn:Ho;
    [|discriminate].
  destruct (sort_desc lib src_flux (high_sources _ _ _)) as [objectsb|] eqn:Hob;
    [|discriminate].
  simpl in Hlow, Hhigh.
  destruct (sort_desc lib (m_flux) (map _ objects)) as [all|] eqn:Hall;
    [|discriminate].
  destruct (sort_desc lib (m_flux) (map _ objectsb)) as [allb|] eqn:Hallb;
    [|discriminate].
  simpl in Hlow, Hhigh.
  injection Hlow as <-. injection Hhigh as <-.
  apply sort_desc_map in Hall as (objs & Hs & ->).
  apply sort_desc_map in Hallb as (objsb & Hsb & ->).
  unfold header_values in Hfin. cbn [forallb] in Hfin.
  rewrite !andb_true_iff in Hfin.
  destruct Hfin as (H1 & H2 & H3 & H4 & H5 & _).
  rewrite filter_map_swap, map_map in H1, H2, H3.
  rewrite !filter_map_swap.
  pose proof (evolves_refl w datain) as Hw.
  srcext_prefix ltac:(eapply bind_ex) Hw Ho Hob Hs Hsb.
  do 14 step_with ltac:(eapply bind_ex) Hw.
  unfold effects, result, table_of.
  norm_columns. rewrite !length_map.
  destruct (sourcetable args).
  - do 6 step Hw.
    pure_step ltac:(eapply (tableget_step _ _ _ _ _ _ Hw);
                    cbn [pd_tables];
                    rewrite lookup_insert_ne by discriminate;
                    apply lookup_insert_eq).
    step Hw.
    destruct (emit_step _ _ _ _ _ _ Hw
                (EvLog "debug" "Saved sources table under %s"
                   [HStr (pd_filenamebegin (heap w datain)
                          +:+ "FALsources.txt")]))
      as (wn & E & Hwn).
    exists wn. split; [exact E|exact Hwn].
  - eexists. split; [reflexivity|]. exact Hw.
Qed.


Lemma srcext_fits_refused (w : World) (v : HVal) (c : string)
      (rows rowsb : list Measured) :
  pd_header (heap w datain) !! "XBIN" = Some (v, c) ->
  select lib args (pd_image (heap w datain))
         (low_sources lib args (pd_image (heap w datain))) = Some rows ->
  select lib args (pd_image (heap w datain))
         (high_sources lib args (pd_image (heap w datain))) = Some rowsb ->
  forallb PrimFloat.is_finite (header_values args rows) = false ->
  exists w' : World,
    run_fits lib args datain w = Raise ValueError w' /\
    (dataout w' = Some datain /\
     (forall r : nat, r <> datain -> heap w' r = heap w r) /\
     pd_image (heap w' datain) = pd_image (heap w datain) /\
     trace w'
     = trace w
       ++ [ EvLog "debug"
              "Selected %d high thershold stars from Source Extrator catalog"
              [HInt (Z.of_nat (length rows))];
            EvLog "debug"
              "Selected %d low thershold stars from Source Extrator catalog"
              [HInt (Z.of_nat (length rowsb))] ] /\
     (PrimFloat.is_finite (Np.nanmean (map m_rh rows)) = false ->
      heap w' datain = heap w datain)).
Proof.
  intros HX Hlow Hhigh Hfin.
  unfold select in Hlow, Hhigh.
  destruct (sort_desc lib src_flux (low_sources _ _ _)) as [objects|] eqn:Ho;
    [|discriminate].
  destruct (sort_desc lib src_flux (high_sources _ _ _)) as [objectsb|] eqn:Hob;
    [|discriminate].
  simpl in Hlow, Hhigh.
  destruct (sort_desc lib (m_flux) (map _ objects)) as [all|] eqn:Hall;
    [|discriminate].
  destruct (sort_desc lib (m_flux) (map _ objectsb)) as [allb|] eqn:Hallb;
    [|discriminate].
  simpl in Hlow, Hhigh.
  injection Hlow as <-. injection Hhigh as <-.
  apply sort_desc_map in Hall as (objs & Hs & ->).
  apply sort_desc_map in Hallb as (objsb & Hsb & ->).
  unfold header_values in Hfin. cbn [forallb] in Hfin.
  rewrite filter_map_swap, !map_map in Hfin.
  rewrite !filter_map_swap.
  pose proof (evolves_refl w datain) as Hw.
  assert (Hend : forall (w' : World) (d : PipeData),
             evolves w w' datain d
               [ EvLog "debug"
                   "Selected %d high thershold stars from Source Extrator catalog"
                   [HInt (Z.of_nat
                            (length (List.filter
                                       (fun x => accepted (measure lib args
                                          (pd_image (heap w datain)) x))
                                       objs)))];
                 EvLog "debug"
                   "Selected %d low thershold stars from Source Extrator catalog"
                   [HInt (Z.of_nat
                            (length (List.filter
                                       (fun x => accepted (measure lib args
                                          (pd_image (heap w datain)) x))
                                       objsb)))] ]
               (Some datain) ->
             pd_image d = pd_image (heap w datain) ->
             dataout w' = Some datain /\
             (forall r : nat, r <> datain -> heap w' r = heap w r) /\
             pd_image (heap w' datain) = pd_image (heap w datain) /\
             trace w'
             = trace w
               ++ [ EvLog "debug"
                      "Selected %d high thershold stars from Source Extrator catalog"
                      [HInt (Z.of_nat
                               (length (List.filter
                                          (fun x => accepted (measure lib args
                                             (pd_image (heap w datain)) x))
                                          objs)))];
                    EvLog "debug"
                      "Selected %d low thershold stars from Source Extrator catalog"
                      [HInt (Z.of_nat
                               (length (List.filter
                                          (fun x => accepted (measure lib args
                                             (pd_image (heap w datain)) x))
                                          objsb)))] ]).
  { intros w' d (Hd & Hf & Hout & Ht) Himg. rewrite Hd. auto. }
  match type of Hfin with
  | (PrimFloat.is_finite ?x && _) = false =>
      destruct (PrimFloat.is_finite x) eqn:E1
  end.
  2:{ srcext_prefix ltac:(eapply bind_ex_Raise) Hw Ho Hob Hs Hsb.
      step_with ltac:(eapply bind_ex_Raise) Hw.
      refused Hw E1.
      destruct (Hend _ _ Hw eq_refl) as (P1 & P2 & P3 & P4).
      destruct Hw as (Hd & _). auto 6. }
  match type of Hfin with
  | (true && (PrimFloat.is_finite ?x && _)) = false =>
      destruct (PrimFloat.is_finite x) eqn:E2
  end.
  2:{ srcext_prefix ltac:(eapply bind_ex_Raise) Hw Ho Hob Hs Hsb.
      do 3 step_with ltac:(eapply bind_ex_Raise) Hw.
      refused Hw E2.
      destruct (Hend _ _ Hw eq_refl) as (P1 & P2 & P3 & P4).
      repeat (split; [assumption|]).
      intros Hc. discriminate (eq_trans (eq_sym E1) Hc). }
  match type of Hfin with
  | (true && (true && (PrimFloat.is_finite ?x && _))) = false =>
      destruct (PrimFloat.is_finite x) eqn:E3
  end.
  2:{ srcext_prefix ltac:(eapply bind_ex_Raise) Hw Ho Hob Hs Hsb.
      do 5 step_with ltac:(eapply bind_ex_Raise) Hw.
      refused Hw E3.
      destruct (Hend _ _ Hw eq_refl) as (P1 & P2 & P3 & P4).
      repeat (split; [assumption|]).
      intros Hc. discriminate (eq_trans (eq_sym E1) Hc). }
  match type of Hfin with
  | (true && (true && (true && (PrimFloat.is_finite ?x && _)))) = false =>
      destruct (PrimFloat.is_finite x) eqn:E4
  end.
  2:{ srcext_prefix ltac:(eapply bind_ex_Raise) Hw Ho Hob Hs Hsb.
      do 11 step_with ltac:(eapply bind_ex_Raise) Hw.
      refused Hw E4.
      destruct (Hend _ _ Hw eq_refl) as (P1 & P2 & P3 & P4).
      repeat (split; [assumption|]).
      intros Hc. discriminate (eq_trans (eq_sym E1) Hc). }
  match type of Hfin with
  | (true && (true && (true && (true && (PrimFloat.is_finite ?x && _)))))
    = false =>
      destruct (PrimFloat.is_finite x) eqn:E5
  end.
  2:{ srcext_prefix ltac:(eapply bind_ex_Raise) Hw Ho Hob Hs Hsb.
      do 13 step_with ltac:(eapply bind_ex_Raise) Hw.
      refused Hw E5.
      destruct (Hend _ _ Hw eq_refl) as (P1 & P2 & P3 & P4).
      repeat (split; [assumption|]).
      intros Hc. discriminate (eq_trans (eq_sym E1) Hc). }
  discriminate Hfin.
Qed.

End SrcExtFits.

Section SrcExtOnFits.

Import StepSrcExtPy SrcExtRows.

(** C6 at a failing input: an image on which the two extractions return no
    source.  The means of the empty selection are NaN, and the step gives
    the first of them to the header as RHALF: the header refuses it and
    the run raises ValueError.  By then [dataout] is the input object; no
    keyword has been written and no table attached. *)
Theorem C6_no_source_run_raises :
  let lib := Toy.toy_sep (fun _ => []) (fun _ => 1%float) in
  let img := pd_image (heap Toy.world0 0%nat) in
  low_sources lib setup img = [] /\
  high_sources lib setup img = [] /\
  PrimFloat.is_nan (Np.nanmean []) = true /\
  exists w' : World,
    run_fits lib setup 0 Toy.world0 = Raise ValueError w' /\
    dataout w' = Some 0%nat /\
    heap w' 0%nat = heap Toy.world0 0%nat /\
    pd_tables (heap w' 0%nat) !! "Low Threshold Sources" = None /\
    pd_tables (heap w' 0%nat) !! "High Threshold Sources" = None /\
    pd_header (heap w' 0%nat) !! "RHALF" = None.
Proof.
  intros lib img. do 3 (split; [reflexivity|]).
  eexists. split; [vm_compute; reflexivity|].
  repeat split.
Qed.

(** X1: the step on a FITS header, without the files of the source list.
    With XBIN in the header and an argsort that sorts, the run completes
    exactly when the five values it writes to the header (the mean and the
    deviation of the half-light radii and the mean elongation of the
    accepted low threshold sources, and the two parameters) are finite
    numbers; it then leaves the object, [dataout] and the log lines that
    the step leaves on a header that takes every value.  When one of the
    five is NaN or infinite the run raises ValueError, after [dataout] has
    been assigned. *)
Theorem X1_srcext_on_a_fits_header (lib : Sep) (args : Args) (datain : nat)
        (w : World) (v : HVal) (c : string) (rows : list Measured) :
  pd_header (heap w datain) !! "XBIN" = Some (v, c) ->
  argsort_ok (argsort lib) ->
  sourcetable args = false ->
  select lib args (pd_image (heap w datain))
         (low_sources lib args (pd_image (heap w datain))) = Some rows ->
  exists w1 : World,
    run lib args datain w = Ok tt w1 /\
    pd_tables (heap w1 datain) !! "Low Threshold Sources"
    = Some (table_of rows) /\
    if forallb PrimFloat.is_finite (header_values args rows)
    then exists w' : World,
           run_fits lib args datain w = Ok tt w' /\
           (forall r : nat, heap w' r = heap w1 r) /\
           dataout w' = dataout w1 /\
           trace w' = trace w1
    else exists w' : World,
           run_fits lib args datain w = Raise ValueError w' /\
           dataout w' = Some datain.
Proof.
  intros HX Hsort _ Hrows.
  destruct (run_tables lib args datain w v c HX Hsort)
    as (w1 & rows' & rowsb & E1 & E2 & E & Hh & Hf & Hd & Ht).
  assert (rows' = rows) by congruence. subst rows'.
  exists w1. split; [exact E|]. rewrite Hh, result_low.
  split; [reflexivity|].
  destruct (forallb PrimFloat.is_finite (header_values args rows)) eqn:Hfin.
  - destruct (srcext_fits_ok lib args datain w v c rows rowsb HX E1 E2 Hfin)
      as (w' & E' & Hh' & Hf' & Hd' & Ht').
    exists w'. split; [exact E'|]. split; [|split; congruence].
    intros r. destruct (Nat.eq_dec r datain) as [->|Hr]; [congruence|].
    rewrite (Hf' r Hr), (Hf r Hr). reflexivity.
  - destruct (srcext_fits_refused lib args datain w v c rows rowsb HX E1 E2
                                  Hfin)
      as (w' & E' & Hd' & _).
    exists w'. split; [exact E'|exact Hd'].
Qed.

Lemma X1_srcext_on_a_fits_header_witness :
  let lib := Toy.toy_sep (fun _ => Toy.twins) (fun _ => 1%float) in
  let none := Toy.toy_sep (fun _ => []) (fun _ => 1%float) in
  (exists w1 : World,
      run lib setup 0 Toy.world0 = Ok tt w1 /\
      pd_tables (heap w1 0%nat) !! "Low Threshold Sources"
      = Some (table_of (map (measure lib setup (pd_image Toy.blank))
                            (rev Toy.twins))) /\
      exists w' : World,
        run_fits lib setup 0 Toy.world0 = Ok tt w' /\
        (forall r : nat, heap w' r = heap w1 r) /\
        dataout w' = dataout w1 /\
        trace w' = trace w1) /\
  (exists w1 : World,
      run none setup 0 Toy.world0 = Ok tt w1 /\
      pd_tables (heap w1 0%nat) !! "Low Threshold Sources"
      = Some (table_of []) /\
      exists w' : World,
        run_fits none setup 0 Toy.world0 = Raise ValueError w' /\
        dataout w' = Some 0%nat).
Proof.
  intros lib none. split.
  - exact (X1_srcext_on_a_fits_header
             lib setup 0 Toy.world0 (HInt 2) "binning"
             (map (measure lib setup (pd_image Toy.blank)) (rev Toy.twins))
             eq_refl argsort_stable_ok eq_refl eq_refl).
  - exact (X1_srcext_on_a_fits_header
             none setup 0 Toy.world0 (HInt 2) "binning" []
             eq_refl argsort_stable_ok eq_refl eq_refl).
Defined.

(** X2: an image without an accepted source of the low threshold, on a
    FITS header.  When no extracted source of the low threshold passes the
    cut (also when none is extracted), the run raises ValueError where it
    writes RHALF, the mean of no radius being NaN.  By then [dataout] is
    the input object, and that is all: no data object has changed, no
    keyword is written and no table attached, and the step has logged its
    two counts, the first of them 0. *)
Theorem X2_no_accepted_source_no_output (lib : Sep) (args : Args)
        (datain : nat) (w : World) (v : HVal) (c : string) :
  pd_header (heap w datain) !! "XBIN" = Some (v, c) ->
  argsort_ok (argsort lib) ->
  List.filter accepted
    (map (measure lib args (pd_image (heap w datain)))
         (low_sources lib args (pd_image (heap w datain)))) = [] ->
  exists (w' : World) (nb : nat),
    run_fits lib args datain w = Raise ValueError w' /\
    dataout w' = Some datain /\
    (forall r : nat, heap w' r = heap w r) /\
    trace w'
    = trace w
      ++ [ EvLog "debug"
             "Selected %d high thershold stars from Source Extrator catalog"
             [HInt 0];
           EvLog "debug"
             "Selected %d low thershold stars from Source Extrator catalog"
             [HInt (Z.of_nat nb)] ].
Proof.
  intros HX Hsort Hnone.
  set (img := pd_image (heap w datain)) in *.
  destruct (select_ok lib Hsort args img (low_sources lib args img))
    as (rows & objs & E1 & HP & Hrows & _).
  destruct (select_ok lib Hsort args img (high_sources lib args img))
    as (rowsb & objsb & E2 & _).
  assert (Hnil : rows = []).
  { apply Permutation_nil. rewrite <- Hnone, Hrows.
    apply Permutation_sym, Permutation_List_filter, Permutation_map, HP. }
  rewrite Hnil in E1.
  destruct (srcext_fits_refused lib args datain w v c [] rowsb HX E1 E2
                                eq_refl)
    as (w' & E' & Hd' & Hf' & _ & Ht' & Hsame).
  exists w', (length rowsb). split; [exact E'|]. split; [exact Hd'|].
  split; [|exact Ht'].
  intros r. destruct (Nat.eq_dec r datain) as [->|Hr]; [|exact (Hf' r Hr)].
  apply Hsame. reflexivity.
Qed.

Lemma X2_no_accepted_source_no_output_witness :
  let lib := Toy.toy_sep (fun _ => []) (fun _ => 1%float) in
  exists (w' : World) (nb : nat),
    run_fits lib setup 0 Toy.world0 = Raise ValueError w' /\
    dataout w' = Some 0%nat /\
    (forall r : nat, heap w' r = heap Toy.world0 r) /\
    trace w'
    = trace Toy.world0
      ++ [ EvLog "debug"
             "Selected %d high thershold stars from Source Extrator catalog"
             [HInt 0];
           EvLog "debug"
             "Selected %d low thershold stars from Source Extrator catalog"
             [HInt (Z.of_nat nb)] ].
Proof.
  intros lib.
  apply (X2_no_accepted_source_no_output lib setup 0 Toy.world0 (HInt 2)
                                         "binning").
  - vm_compute. reflexivity.
  - exact argsort_stable_ok.
  - reflexivity.
Defined.

Lemma X23_high_table_is_a_low_table_witness :
  let lib := Toy.toy_sep Toy.blend (fun _ => 1%float) in
  let args' :=
    mkArgs (sourcetable setup) (sourcetableformat setup)
           (maskthreshold setup) (backgroundwh setup) (filterwh setup)
           (fthreshold setup) (extractthersh setup * bfactor setup)%float
           (bfactor setup) 32 (kronf setup) in
  exists (w1 w2 : World) (t : list Column),
    run lib setup 0 Toy.world0 = Ok tt w1 /\
    run lib args' 0 Toy.world0 = Ok tt w2 /\
    pd_tables (heap w1 0%nat) !! "High Threshold Sources" = Some t /\
    pd_tables (heap w2 0%nat) !! "Low Threshold Sources" = Some t.
Proof.
  intros lib args'.
  apply (X23_high_table_is_a_low_table lib setup 0 Toy.world0 (HInt 2)
                                       "binning").
  - vm_compute. reflexivity.
  - exact argsort_stable_ok.
Defined.

(** X24: the step can be run again, on a FITS header and without the files
    of the source list.  When a run has completed, a second run on its
    output completes too and leaves the object as the first run left it:
    the same tables and the same five keywords. *)
Theorem X24_srcext_again_changes_nothing (lib : Sep) (args : Args)
        (datain : nat) (w w1 : World) (v : HVal) (c : string) :
  pd_header (heap w datain) !! "XBIN" = Some (v, c) ->
  argsort_ok (argsort lib) ->
  sourcetable args = false ->
  run_fits lib args datain w = Ok tt w1 ->
  exists w2 : World,
    run_fits lib args datain w1 = Ok tt w2 /\
    heap w2 datain = heap w1 datain /\
    (forall r : nat, r <> datain -> heap w2 r = heap w1 r) /\
    dataout w2 = dataout w1.
Proof.
  intros HX Hsort _ Hrun.
  set (img := pd_image (heap w datain)).
  destruct (select_ok lib Hsort args img (low_sources lib args img))
    as (rows & objs & E1 & _).
  destruct (select_ok lib Hsort args img (high_sources lib args img))
    as (rowsb & objsb & E2 & _).
  destruct (forallb PrimFloat.is_finite (header_values args rows)) eqn:Hfin.
  2:{ destruct (srcext_fits_refused lib args datain w v c rows rowsb HX E1 E2
                                    Hfin) as (w' & E' & _).
      congruence. }
  destruct (srcext_fits_ok lib args datain w v c rows rowsb HX E1 E2 Hfin)
    as (w' & E' & Hh & Hf & Hd & _).
  assert (w' = w1) by congruence. subst w'.
  destruct (srcext_fits_ok lib args datain w1 v c rows rowsb)
    as (w2 & E'' & Hh' & Hf' & Hd' & _).
  - rewrite Hh. unfold result. cbn [pd_header].
    rewrite !lookup_insert_ne by discriminate. exact HX.
  - rewrite Hh. exact E1.
  - rewrite Hh. exact E2.
  - exact Hfin.
  - exists w2. split; [exact E''|].
    split; [rewrite Hh', Hh; apply result_again|].
    split; [exact Hf'|congruence].
Qed.

Lemma X24_srcext_again_changes_nothing_witness :
  let lib := Toy.toy_sep (fun _ => Toy.twins) (fun _ => 1%float) in
  exists w1 w2 : World,
    run_fits lib setup 0 Toy.world0 = Ok tt w1 /\
    run_fits lib setup 0 w1 = Ok tt w2 /\
    heap w2 0%nat = heap w1 0%nat /\
    (forall r : nat, r <> 0%nat -> heap w2 r = heap w1 r) /\
    dataout w2 = dataout w1.
Proof.
  intros lib. eexists.
  assert (E : run_fits lib setup 0 Toy.world0 = Ok tt _)
    by (vm_compute; reflexivity).
  destruct (X24_srcext_again_changes_nothing
              lib setup 0 Toy.world0 _ (HInt 2) "binning" eq_refl
              argsort_stable_ok eq_refl E) as (w2 & H).
  exists w2. split; [exact E|exact H].
Defined.

End SrcExtOnFits.

(** ** The flux calibration step on a FITS header *)

Section FluxCalFits.

Import StepFluxCalSex FluxCalPairs.

Variable lib : Lib.
Variable args : Args.
Variable datain : nat.

(** From the first statement of the step to the assignment of [dataout]. *)
Ltac fluxcal_prefix bnd Hw i HX Hb Hlast Htab HRA HDEC Hsky Hget HF Hascii
                    Hra Hdec Hmag Hmagerr Hmatch H1 H2 H3 :=
  unfold run_fits, run_on;
  pure_step_with bnd
    ltac:(eapply (getheadval_fits_step _ _ _ _ _ _ Hw); exact HX);
  step_with bnd Hw; step_with bnd Hw; step_with bnd Hw;
  pure_step_with bnd ltac:(apply or_raise_Some; exact Hlast);
  cbv beta zeta;
  step_with bnd Hw; step_with bnd Hw; step_with bnd Hw; step_with bnd Hw;
  step_with bnd Hw;
  pure_step_with bnd ltac:(apply lift_sum_inr; exact Htab);
  norm_columns; rewrite !count_nonzero_map;
  step_with bnd Hw; step_with bnd Hw;
  pure_step_with bnd
    ltac:(eapply (getheadval_fits_step _ _ _ _ _ _ Hw); exact HRA);
  pure_step_with bnd ltac:(reflexivity);
  pure_step_with bnd
    ltac:(eapply (getheadval_fits_step _ _ _ _ _ _ Hw); exact HDEC);
  pure_step_with bnd ltac:(reflexivity);
  pure_step_with bnd ltac:(apply lift_sum_inr; exact Hsky);
  step_with bnd Hw; step_with bnd Hw; step_with bnd Hw;
  pure_step_with bnd ltac:(apply lift_sum_inr; exact Hget);
  pure_step_with bnd
    ltac:(eapply (getheadval_fits_step _ _ _ _ _ _ Hw); exact HF);
  pure_step_with bnd ltac:(reflexivity);
  pure_step_with bnd ltac:(apply or_raise_Some, split_head);
  pure_step_with bnd ltac:(apply lift_sum_inr; exact Hascii);
  pure_step_with bnd ltac:(apply or_raise_Some; exact Hra);
  pure_step_with bnd ltac:(apply or_raise_Some; exact Hmag);
  norm_columns;
  pure_step_with bnd ltac:(apply index_mask_map);
  pure_step_with bnd ltac:(apply or_raise_Some; exact Hdec);
  pure_step_with bnd ltac:(apply or_raise_Some; exact Hmag);
  norm_columns;
  pure_step_with bnd ltac:(apply index_mask_map);
  pure_step_with bnd ltac:(apply or_raise_Some; exact Hmag);
  pure_step_with bnd ltac:(apply or_raise_Some; exact Hmag);
  norm_columns;
  pure_step_with bnd ltac:(apply index_mask_map);
  pure_step_with bnd ltac:(apply or_raise_Some; exact Hmagerr);
  pure_step_with bnd ltac:(apply or_raise_Some; exact Hmag);
  norm_columns;
  pure_step_with bnd ltac:(apply index_mask_map);
  rewrite !length_map;
  step_with bnd Hw;
  pure_step_with bnd ltac:(apply index_mask_map);
  norm_columns;
  pure_step_with bnd ltac:(apply lift_sum_inr; exact Hmatch);
  pure_step_with bnd ltac:(apply or_raise_Some; exact Hb);
  step_with bnd Hw;
  change (List.filter _ (in_rows i))
    with (List.filter is_usable (in_rows i));
  change (List.filter _ (in_seo i)) with (List.filter is_star (in_seo i));
  rewrite <- H1, <- H2; norm_columns;
  pure_step_with bnd ltac:(apply index_mask_map);
  pure_step_with bnd ltac:(apply index_mask_map);
  pure_step_with bnd ltac:(apply or_raise_Some; rewrite take_map;
                           change (List.filter _ (in_seo i))
                             with (List.filter is_star (in_seo i));
                           rewrite H3; reflexivity);
  norm_columns;
  pure_step_with bnd ltac:(apply index_mask_map);
  pure_step_with bnd ltac:(apply index_mask_map);
  pure_step_with bnd ltac:(apply index_mask_map);
  pure_step_with bnd ltac:(apply or_raise_Some; rewrite take_map;
                           change (List.filter _ (in_seo i))
                             with (List.filter is_star (in_seo i));
                           rewrite H3; reflexivity);
  norm_columns;
  pure_step_with bnd ltac:(apply index_mask_map);
  norm_columns;
  step_with bnd Hw; step_with bnd Hw;
  step_with bnd Hw.

Lemma fluxcal_fits_ok (w : World) (i : Inputs) :
  ready lib (heap w datain) i ->
  PrimFloat.is_finite (- snd (fit lib i)) = true ->
  exists w' : World,
    run_fits lib args datain w = Ok tt w' /\
    evolves w w' datain (result lib args (heap w datain) i)
            (effects lib args datain (heap w datain) i) (Some datain).
Proof.
  intros ((v & c & HX & Hb) & Hlast & Htab & (cra & HRA) & (cdec & HDEC)
          & Hsky & Hget & (cf & HF) & Hascii & Hra & Hdec & Hmag & Hmagerr
          & Hmatch & Hpairs) Hfin.
  destruct (pairs_of_columns _ _ _ _ Hpairs) as (H1 & H2 & H3).
  assert (Hzero : PrimFloat.is_finite 0.0 = true) by reflexivity.
  unfold fit, fit_x, fit_data, fit_errors, retained in Hfin.
  pose proof (evolves_refl w datain) as Hw.
  fluxcal_prefix ltac:(eapply bind_ex) Hw i HX Hb Hlast Htab HRA HDEC Hsky
                 Hget HF Hascii Hra Hdec Hmag Hmagerr Hmatch H1 H2 H3.
  do 9 step_with ltac:(eapply bind_ex) Hw.
  match goal with
  | |- ex (fun w' => set_image _ ?img _ = _ /\ _) =>
      destruct (update_step _ _ _ _ _ _ Hw
                  (fun d => mkPipeData (pd_header d) img (pd_tables d)
                                       (pd_filename d) (pd_filenamebegin d)))
        as (wn & E & Hwn)
  end.
  exists wn. split; [exact E|].
  cbn [pd_header pd_image pd_tables pd_filename pd_filenamebegin] in Hwn.
  unfold effects, result, fit_x, fit_data, fit_errors, retained.
  destruct (path_exists lib _), (verbose args), (delete_cat args);
    exact Hwn.
Qed.

Lemma fluxcal_fits_refused (w : World) (i : Inputs) :
  ready lib (heap w datain) i ->
  PrimFloat.is_finite (- snd (fit lib i)) = false ->
  exists w' : World,
    run_fits lib args datain w = Raise ValueError w' /\
    evolves w w' datain (heap w datain)
            (effects lib args datain (heap w datain) i) (Some datain).
Proof.
  intros ((v & c & HX & Hb) & Hlast & Htab & (cra & HRA) & (cdec & HDEC)
          & Hsky & Hget & (cf & HF) & Hascii & Hra & Hdec & Hmag & Hmagerr
          & Hmatch & Hpairs) Hfin.
  destruct (pairs_of_columns _ _ _ _ Hpairs) as (H1 & H2 & H3).
  unfold fit, fit_x, fit_data, fit_errors, retained in Hfin.
  pose proof (evolves_refl w datain) as Hw.
  fluxcal_prefix ltac:(eapply bind_ex_Raise) Hw i HX Hb Hlast Htab HRA HDEC
                 Hsky Hget HF Hascii Hra Hdec Hmag Hmagerr Hmatch H1 H2 H3.
  step_with ltac:(eapply bind_ex_Raise) Hw.
  refused Hw Hfin.
  unfold effects, fit_x, fit_data, fit_errors, retained.
  destruct (path_exists lib _), (verbose args), (delete_cat args);
    exact Hw.
Qed.

End FluxCalFits.

Section FluxCalOnFits.

Import StepFluxCalSex FluxCalPairs.

(** X8: the step on a FITS header.  On inputs with which the step reaches
    the fit, whose file exists, and with a percentile between 0 and 100,
    the run completes exactly when the intercept the minimiser returns is
    a finite number, and it then leaves the object and the effects that
    the step leaves on a header that takes every value.  When the
    intercept is NaN or infinite the header refuses PHOTZP and the run
    raises ValueError: by then [dataout] is the input object and the fit
    has been made, but no keyword is written and the image is not
    rescaled. *)
Theorem X8_fluxcal_on_a_fits_header (lib : Lib) (args : Args) (datain : nat)
        (w : World) (i : Inputs) :
  ready lib (heap w datain) i ->
  path_exists lib (pd_filename (heap w datain)) = true ->
  ((0 <=? zeropercent args)%float && (zeropercent args <=? 100)%float)
  = true ->
  exists w' : World,
    dataout w' = Some datain /\
    trace w' = trace w ++ effects lib args datain (heap w datain) i /\
    (forall r : nat, r <> datain -> heap w' r = heap w r) /\
    if PrimFloat.is_finite (- snd (fit lib i))
    then run_fits lib args datain w = Ok tt w' /\
         heap w' datain = result lib args (heap w datain) i
    else run_fits lib args datain w = Raise ValueError w' /\
         heap w' datain = heap w datain.
Proof.
  intros Hr _ _.
  destruct (PrimFloat.is_finite (- snd (fit lib i))) eqn:Hfin.
  - destruct (fluxcal_fits_ok lib args datain w i Hr Hfin)
      as (w' & E & Hh & Hf & Hd & Ht).
    exists w'. auto.
  - destruct (fluxcal_fits_refused lib args datain w i Hr Hfin)
      as (w' & E & Hh & Hf & Hd & Ht).
    exists w'. auto.
Qed.

Lemma X8_fluxcal_on_a_fits_header_witness :
  let lost :=
    mkLib (path_exists ToyCal.lib3) (expandvars ToyCal.lib3)
          (format_s ToyCal.lib3) (communicate ToyCal.lib3)
          (table_read ToyCal.lib3) (np_log10 ToyCal.lib3)
          (np_log ToyCal.lib3) (SkyCoord ToyCal.lib3) (str ToyCal.lib3)
          (requests_get ToyCal.lib3) (ascii_read ToyCal.lib3)
          (match_to_catalog_sky ToyCal.lib3)
          (fun _ _ => (1%float, Fl.nan))
          (nanpercentile ToyCal.lib3) (pow ToyCal.lib3) in
  (exists w' : World,
      dataout w' = Some 0%nat /\
      trace w'
      = trace ToyCal.world0
        ++ effects ToyCal.lib3 setup 0 (heap ToyCal.world0 0%nat)
                   ToyCal.inputs3 /\
      (forall r : nat, r <> 0%nat -> heap w' r = heap ToyCal.world0 r) /\
      run_fits ToyCal.lib3 setup 0 ToyCal.world0 = Ok tt w' /\
      heap w' 0%nat
      = result ToyCal.lib3 setup (heap ToyCal.world0 0%nat) ToyCal.inputs3) /\
  (exists w' : World,
      dataout w' = Some 0%nat /\
      trace w'
      = trace ToyCal.world0
        ++ effects lost setup 0 (heap ToyCal.world0 0%nat) ToyCal.inputs3 /\
      (forall r : nat, r <> 0%nat -> heap w' r = heap ToyCal.world0 r) /\
      run_fits lost setup 0 ToyCal.world0 = Raise ValueError w' /\
      heap w' 0%nat = heap ToyCal.world0 0%nat).
Proof.
  intros lost. split.
  - refine (X8_fluxcal_on_a_fits_header ToyCal.lib3 setup 0 ToyCal.world0
                                        ToyCal.inputs3 _ eq_refl eq_refl).
    prove_ready.
  - refine (X8_fluxcal_on_a_fits_header lost setup 0 ToyCal.world0
                                        ToyCal.inputs3 _ eq_refl eq_refl).
    prove_ready.
Defined.

(** X9: without the keyword XBIN the data object logs an error line and
    raises KeyError, "Missing XBIN keyword in header ", at the first
    statement of the step: the input is not saved, the source extractor is
    not started and no data object changes, although the binning is used
    only for the distance threshold, after the catalog query. *)
Theorem X9_fluxcal_without_binning (lib : Lib) (args : Args) (datain : nat)
        (w : World) :
  pd_header (heap w datain) !! "XBIN" = None ->
  exists (w' : World) (line : string),
    run_fits lib args datain w
    = Raise (KeyError "Missing XBIN keyword in header ") w' /\
    trace w' = trace w ++ [EvLog "error" line []] /\
    heap w' = heap w /\ dataout w' = dataout w.
Proof.
  intros HX. eexists. eexists. split.
  - unfold run_fits, run_on. apply bind_Raise.
    apply (getheadval_fits_None datain "XBIN" w HX).
  - repeat split.
Qed.

Lemma X9_fluxcal_without_binning_witness :
  let w := mkWorld (fun _ => mkPipeData ∅ [[1]]%float ∅ "img.fits" "img.")
                   None [] in
  exists (w' : World) (line : string),
    run_fits ToyCal.lib3 setup 0 w
    = Raise (KeyError "Missing XBIN keyword in header ") w' /\
    trace w' = trace w ++ [EvLog "error" line []] /\
    heap w' = heap w /\ dataout w' = dataout w.
Proof.
  intros w. apply (X9_fluxcal_without_binning ToyCal.lib3 setup 0 w).
  vm_compute. reflexivity.
Defined.

End FluxCalOnFits.
